(** * playwright-vibe-check: the evaluation pipeline

    A shallow embedding of the TypeScript sources of playwright-vibe-check
    (src/utils/fs-utils.ts, src/providers/base-provider.ts,
    src/providers/openai-provider.ts, src/providers/anthropic-provider.ts,
    src/providers/index.ts, src/config/config.ts,
    src/playwright/fixtures.ts) and the properties of its natural-language
    specification, proved or refuted on that embedding.

    Conventions.
    - A JavaScript string is a [string]; the code below only inspects ASCII
      characters of it.
    - A JavaScript number is a [number]: [NaN] or a rational [Fin q], the
      exact value the number denotes, written in lowest terms.  Comparisons
      of numbers are exact on that value; rounding of binary64 arithmetic
      and the infinities are not modelled.
    - [undefined] is [None] of an [option]; a value read from a judge's
      reply is a [json].
    - An exception is the [Throw] case of an [Outcome]. *)

From Stdlib Require Import ZArith QArith Qround String Ascii List Bool Lia.
From stdpp Require Import base option gmap strings list fin_maps pretty.

Local Open Scope list_scope.
Local Set Warnings "-register-all".

(** ** Strings *)

Module Str.

(** [s.substring(0, n)]. *)
Fixpoint take (n : nat) (s : string) : string :=
  match n, s with
  | S n', String c s' => String c (take n' s')
  | _, _ => ""
  end.

(** [sub] occurs in [s]. *)
Definition contains (s sub : string) : Prop :=
  ∃ pre post, s = pre +:+ sub +:+ post.

(** [s.startsWith(p)], returning the rest of [s]. *)
Fixpoint strip_prefix (p s : string) : option string :=
  match p, s with
  | "", _ => Some s
  | String a p', String b s' =>
      if Ascii.eqb a b then strip_prefix p' s' else None
  | String _ _, "" => None
  end.

Definition is_digit (c : ascii) : bool :=
  let n := nat_of_ascii c in (48 <=? n)%nat && (n <=? 57)%nat.

Definition is_upper (c : ascii) : bool :=
  let n := nat_of_ascii c in (65 <=? n)%nat && (n <=? 90)%nat.

Definition is_lower (c : ascii) : bool :=
  let n := nat_of_ascii c in (97 <=? n)%nat && (n <=? 122)%nat.

(** The character class [[a-zA-Z0-9]]. *)
Definition is_alnum (c : ascii) : bool :=
  is_lower c || is_upper c || is_digit c.

Fixpoint all (p : ascii → bool) (s : string) : bool :=
  match s with
  | "" => true
  | String c s' => p c && all p s'
  end.

(** [s] matches [\d+]. *)
Definition is_digits (s : string) : bool :=
  match s with "" => false | _ => all is_digit s end.

(** [lines.join(sep)]. *)
Fixpoint join (sep : string) (lines : list string) : string :=
  match lines with
  | [] => ""
  | [l] => l
  | l :: rest => l +:+ sep +:+ join sep rest
  end.

End Str.

(** ** src/utils/fs-utils.ts *)

(** [s.replace(/[^a-zA-Z0-9]/g, "-")]. *)
Fixpoint replace_non_alnum (s : string) : string :=
  match s with
  | "" => ""
  | String c s' =>
      String (if Str.is_alnum c then c else "-"%char) (replace_non_alnum s')
  end.

(** [s.replace(/-+/g, "-")]: every maximal run of hyphens becomes one. *)
Fixpoint collapse_hyphens (s : string) : string :=
  match s with
  | "" => ""
  | String c s' =>
      if Ascii.eqb c "-" then
        match s' with
        | String d _ =>
            if Ascii.eqb d "-" then collapse_hyphens s'
            else String c (collapse_hyphens s')
        | "" => String c ""
        end
      else String c (collapse_hyphens s')
  end.

(** [generateScreenshotName(testTitle, customName)]; [timestamp] is the value
    [Date.now()] returns, a count of milliseconds.  A [customName] that is
    [undefined] or empty is falsy and is left out. *)
Definition generateScreenshotName
    (timestamp : N) (testTitle : string) (customName : option string) : string :=
  let sanitizedTitle :=
    Str.take 50 (collapse_hyphens (replace_non_alnum testTitle)) in
  match customName with
  | Some ((String _ _) as name) =>
      let sanitizedCustom := collapse_hyphens (replace_non_alnum name) in
      sanitizedTitle +:+ "-" +:+ sanitizedCustom +:+ "-" +:+ pretty timestamp
  | _ => sanitizedTitle +:+ "-" +:+ pretty timestamp
  end.

(** The pattern [^<prefix>\d+$]. *)
Definition matches_prefix_digits (prefix s : string) : bool :=
  match Str.strip_prefix prefix s with
  | Some rest => Str.is_digits rest
  | None => false
  end.

(** The characters of a generated name: letters, digits and hyphens. *)
Definition safe (c : ascii) : bool := Str.is_alnum c || Ascii.eqb c "-".

(** ** JavaScript values *)

(** A number: [NaN], or the rational it denotes.  The integer [n] is
    [Num.of_Z n]; the literal [0.8] is [Fin (4 # 5)]. *)
Inductive number : Type :=
  | NaN
  | Fin (q : Q).

Module Num.

Definition of_Z (z : Z) : number := Fin (inject_Z z).

(** [a < b]; false as soon as one side is [NaN]. *)
Definition lt (a b : number) : bool :=
  match a, b with
  | Fin x, Fin y => negb (Qle_bool y x)
  | _, _ => false
  end.

(** [a <= b]; false as soon as one side is [NaN]. *)
Definition le (a b : number) : bool :=
  match a, b with
  | Fin x, Fin y => Qle_bool x y
  | _, _ => false
  end.

(** [a >= b]. *)
Definition ge (a b : number) : bool := le b a.

(** [ToBoolean]: [0] and [NaN] are falsy. *)
Definition truthy (a : number) : bool :=
  match a with
  | NaN => false
  | Fin x => negb (Qeq_bool x 0)
  end.

(** [a || b] on numbers. *)
Definition or_else (a : option number) (b : number) : number :=
  match a with
  | Some x => if truthy x then x else b
  | None => b
  end.

End Num.

(** A value parsed from JSON text.  The members of an object are kept in
    the order of the text, one entry per key. *)
Inductive json : Type :=
  | JNull
  | JBool (b : bool)
  | JNumber (n : number)
  | JString (s : string)
  | JArray (items : list json)
  | JObject (members : list (string * json)).

(** A value that may be [undefined]. *)
Abbreviation jsval := (option json).

Module Js.

(** [ToBoolean] of a value. *)
Definition truthy (v : jsval) : bool :=
  match v with
  | None => false
  | Some JNull => false
  | Some (JBool b) => b
  | Some (JNumber n) => Num.truthy n
  | Some (JString s) => negb (String.eqb s "")
  | Some (JArray _) => true
  | Some (JObject _) => true
  end.

(** [a || b]. *)
Definition or_else (a : jsval) (b : json) : jsval :=
  if truthy a then a else Some b.

Fixpoint assoc (k : string) (ms : list (string * json)) : jsval :=
  match ms with
  | [] => None
  | (k', v) :: rest => if String.eqb k k' then Some v else assoc k rest
  end.

(** [o.k] for one of the keys the adapters read ([confidence],
    [reasoning], [verdict], [failReason], [suggestions]), none of which
    is a property of [Object.prototype] or [Array.prototype]: the own
    member of an object, [undefined] on an array. *)
Definition get (o : json) (k : string) : jsval :=
  match o with
  | JObject ms => assoc k ms
  | _ => None
  end.

End Js.

(** ** Exceptions *)

Inductive Error : Type :=
  | Err (message : string)          (* [new Error(message)] *)
  | TypeError_in (key : string) (operand : json)
                                    (* [key in operand], operand not an object *)
  | Rejected (reason : string).     (* a rejection of [fetch] or of the file system *)

Inductive Outcome (A : Type) : Type :=
  | Return (a : A)
  | Throw (e : Error).
Arguments Return {A} a.
Arguments Throw {A} e.

(** ** What the platform provides *)

(** The built-ins the code calls whose results depend on binary64
    arithmetic or on the engine's JSON reader and printer.
    - [JSON_parse s] is [None] when [JSON.parse(s)] throws a [SyntaxError];
    - [JSON_stringify v] is [JSON.stringify(v)];
    - [percent x] is the text of [(x * 100).toFixed(1)]. *)
Class Platform : Type := {
  JSON_parse : string → option json;
  JSON_stringify : json → string;
  percent : number → string;
}.

(** ** src/types/llm.ts *)

(** [LLMResponse], with the fields at the types the interface declares.
    [verdict] is declared ["yes" | "no"]; nothing enforces the union at run
    time, so the field is a string here. *)
Record LLMResponse : Type := {
  verdict : string;
  confidence : number;
  failReason : option string;
  reasoning : option string;
  suggestions : option (list string);
  rawResponse : jsval;
}.

(** An optional property of an object literal: the key may be absent, or
    present and holding [undefined], or present and holding a value.  The
    difference shows in a spread, which copies a present key whatever it
    holds. *)
Inductive prop (A : Type) : Type :=
  | Absent
  | Undefined
  | Value (a : A).
Arguments Absent {A}.
Arguments Undefined {A}.
Arguments Value {A} a.

(** [o.k]. *)
Definition read {A} (p : prop A) : option A :=
  match p with
  | Value a => Some a
  | _ => None
  end.

(** The property [k: v] of an object literal. *)
Definition holding {A} (v : option A) : prop A :=
  match v with
  | Some a => Value a
  | None => Undefined
  end.

(** The property [k] of [{ k: base, ...o }], [over] being the property of [o]. *)
Definition spread_over {A} (base over : prop A) : prop A :=
  match over with
  | Absent => base
  | _ => over
  end.

(** The address of an object in the store. *)
Abbreviation loc := positive.

(** [EvaluateOptions].  [modelParameters] refers to an object of the store. *)
Record EvaluateOptions : Type := {
  confidenceThreshold : prop number;
  modelParameters : prop loc;
  includeRawResponse : prop bool;
  maxRetries : prop number;
}.

(** [LLMProviderConfig]. *)
Record LLMProviderConfig : Type := {
  apiKey : option string;
  apiKeyEnvVar : option string;
  defaultConfidenceThreshold : option number;
  defaultMaxRetries : option number;
  model : option string;
  maxTokens : option number;
  temperature : option number;
}.

(** An [LLMResponse] as it exists at run time: the object an adapter
    builds from a judge's reply.  The casts [as number], [as string] of the
    source check nothing, so a field holds whatever the reply held. *)
Module Runtime.

Record LLMResponse : Type := {
  verdict : jsval;
  confidence : jsval;
  failReason : jsval;
  reasoning : jsval;
  suggestions : jsval;
  rawResponse : jsval;
}.

End Runtime.

(** ** src/playwright/fixtures.ts: the decision *)

Definition nl : string := String "010"%char "".
Definition dquote : string := String "034"%char "".

(** [if (s) ...] on an optional string: [undefined] and the empty string are
    falsy. *)
Definition nonempty (s : option string) : option string :=
  match s with
  | Some ((String _ _) as t) => Some t
  | _ => None
  end.

(** [VibeCheckResult]: [{ ...result, screenshotPath }]. *)
Record VibeCheckResult : Type := {
  response : LLMResponse;
  screenshotPath : string;
}.

Section Decision.
Context `{Platform}.

(** [buildFailureMessage(specification, result, threshold, screenshotPath)]. *)
Definition buildFailureMessage
    (specification : string) (result : LLMResponse) (threshold : number)
    (screenshotPath : string) : string :=
  let lines :=
    [ "Vibe check failed!";
      "";
      "Specification: " +:+ dquote +:+ specification +:+ dquote;
      "";
      "Verdict: " +:+ verdict result;
      "Confidence: " +:+ percent (confidence result)
        +:+ "% (threshold: " +:+ percent threshold +:+ "%)" ] in
  let lines :=
    match nonempty (reasoning result) with
    | Some r => lines ++ [""; "Reasoning: " +:+ r]
    | None => lines
    end in
  let lines :=
    match nonempty (failReason result) with
    | Some r => lines ++ [""; "Fail Reason: " +:+ r]
    | None => lines
    end in
  let lines :=
    match suggestions result with
    | Some ((_ :: _) as l) =>
        (lines ++ [""; "Suggestions:"]) ++ map (λ s, "  - " +:+ s) l
    | _ => lines
    end in
  let lines := lines ++ [""; "Screenshot: " +:+ screenshotPath] in
  Str.join nl lines.

(** The last step of [vibeCheck] (fixtures.ts, "Assert based on confidence
    threshold"): [confidenceThreshold] is
    [evaluationOptions.confidenceThreshold], [result] what the judge
    returned. *)
Definition vibeCheck_assert
    (specification : string) (result : LLMResponse)
    (confidenceThreshold : option number) (path : string)
  : Outcome VibeCheckResult :=
  let threshold := default (Fin (4 # 5)) confidenceThreshold in
  if String.eqb (verdict result) "no"
     || Num.lt (confidence result) threshold
  then Throw (Err (buildFailureMessage specification result threshold path))
  else Return {| response := result; screenshotPath := path |}.

End Decision.

(** ** A reference platform

    An executable [Platform], used to run the model on concrete inputs.
    The reader follows the JSON grammar (ECMA-404); a number literal is
    read at its exact decimal value.  The printer and [percent] render
    exact decimals and keep members in the order of the object.

    It departs from the built-ins where binary64 shows: [JSON.parse]
    rounds a literal to the nearest double (and has infinities),
    [toFixed] rounds the double product [x * 100], not the exact one, and
    [JSON.stringify] writes large and small numbers with an exponent and
    lists integer-like keys first.  The inputs it is run on here (short
    decimals such as 0.7, 0.8, 0.9, 0.95, 1.5 and 42, keys that are
    words) are read and written alike by both. *)

Module Reference.

Definition is_ws (c : ascii) : bool :=
  match c with
  | " " | "009" | "010" | "013" => true
  | _ => false
  end%char.

Fixpoint skip_ws (s : string) : string :=
  match s with
  | String c s' => if is_ws c then skip_ws s' else s
  | "" => ""
  end.

Definition digit_val (c : ascii) : N := N_of_ascii c - 48.

(** The longest prefix of digits, as a list of digit values. *)
Fixpoint lex_digits (s : string) : list N * string :=
  match s with
  | String c s' =>
      if Str.is_digit c then
        let '(ds, rest) := lex_digits s' in (digit_val c :: ds, rest)
      else ([], s)
  | "" => ([], "")
  end.

Definition digits_to_N (ds : list N) : N :=
  fold_left (λ acc d, acc * 10 + d)%N ds 0%N.

(** [int]: a single [0], or a non-empty run not starting with [0]. *)
Definition lex_int (s : string) : option (list N * string) :=
  match s with
  | String "0" rest => Some ([0%N], rest)
  | _ => match lex_digits s with
         | ([], _) => None
         | r => Some r
         end
  end.

Definition lex_frac (s : string) : option (list N * string) :=
  match s with
  | String "." rest =>
      match lex_digits rest with
      | ([], _) => None
      | r => Some r
      end
  | _ => Some ([], s)
  end.

Definition lex_exp (s : string) : option (Z * string) :=
  let digits (neg : bool) (t : string) :=
    match lex_digits t with
    | ([], _) => None
    | (ds, rest) =>
        let e := Z.of_N (digits_to_N ds) in
        Some (if neg then (- e)%Z else e, rest)
    end in
  match s with
  | String c rest =>
      if Ascii.eqb c "e" || Ascii.eqb c "E" then
        match rest with
        | String "+" t => digits false t
        | String "-" t => digits true t
        | _ => digits false rest
        end
      else Some (0%Z, s)
  | "" => Some (0%Z, "")
  end.

(** [m * 10^e]. *)
Definition scale (m e : Z) : Q :=
  match e with
  | Zneg p => Qred (m # Pos.pow 10 p)
  | _ => inject_Z (m * 10 ^ e)
  end.

Definition lex_number (s : string) : option (number * string) :=
  let '(neg, s1) :=
    match s with String "-" t => (true, t) | _ => (false, s) end in
  '(int, s2) ← lex_int s1;
  '(frac, s3) ← lex_frac s2;
  '(e, s4) ← lex_exp s3;
  let m := Z.of_N (digits_to_N (int ++ frac)) in
  let m := if neg then (- m)%Z else m in
  Some (Fin (scale m (e - Z.of_nat (length frac))), s4).

Definition hex_val (c : ascii) : option N :=
  let n := N_of_ascii c in
  if (48 <=? n)%N && (n <=? 57)%N then Some (n - 48)%N
  else if (65 <=? n)%N && (n <=? 70)%N then Some (n - 55)%N
  else if (97 <=? n)%N && (n <=? 102)%N then Some (n - 87)%N
  else None.

(** The UTF-8 bytes of the code unit [u]. *)
Definition utf8 (u : N) : string :=
  let byte (n : N) := ascii_of_N n in
  if (u <? 128)%N then String (byte u) ""
  else if (u <? 2048)%N then
    String (byte (192 + u / 64)%N) (String (byte (128 + u mod 64)%N) "")
  else
    String (byte (224 + u / 4096)%N)
      (String (byte (128 + (u / 64) mod 64)%N)
         (String (byte (128 + u mod 64)%N) "")).

(** The rest of a string literal, after its opening quote. *)
Fixpoint lex_string (s : string) : option (string * string) :=
  match s with
  | EmptyString => None
  | String "034"%char rest => Some (EmptyString, rest)
  | String "092"%char (String c rest) =>
      let cons (x : ascii) :=
        '(t, r) ← lex_string rest; Some (String x t, r) in
      match c with
      | "034" => cons "034"
      | "092" => cons "092"
      | "/" => cons "/"
      | "b" => cons "008"
      | "f" => cons "012"
      | "n" => cons "010"
      | "r" => cons "013"
      | "t" => cons "009"
      | "u" =>
          match rest with
          | String h1 (String h2 (String h3 (String h4 rest'))) =>
              a ← hex_val h1; b ← hex_val h2;
              c ← hex_val h3; d ← hex_val h4;
              '(t, r) ← lex_string rest';
              Some (utf8 (((a * 16 + b) * 16 + c) * 16 + d)%N +:+ t, r)
          | _ => None
          end
      | _ => None
      end%char
  | String "092"%char EmptyString => None
  | String c rest =>
      if (N_of_ascii c <? 32)%N then None
      else '(t, r) ← lex_string rest; Some (String c t, r)
  end.

(** [o[k] = v] while building an object: a repeated key keeps its place
    and takes the later value. *)
Fixpoint set_member (k : string) (v : json) (ms : list (string * json))
  : list (string * json) :=
  match ms with
  | [] => [(k, v)]
  | (k', v') :: rest =>
      if String.eqb k k' then (k, v) :: rest
      else (k', v') :: set_member k v rest
  end.

Fixpoint parse_value (fuel : nat) (s : string) : option (json * string) :=
  match fuel with
  | O => None
  | S fuel =>
      match skip_ws s with
      | String "{"%char rest =>
          match skip_ws rest with
          | String "}"%char r => Some (JObject [], r)
          | r => parse_members fuel r []
          end
      | String "["%char rest =>
          match skip_ws rest with
          | String "]"%char r => Some (JArray [], r)
          | r => parse_items fuel r []
          end
      | String "034"%char rest =>
          '(t, r) ← lex_string rest; Some (JString t, r)
      | t =>
          match Str.strip_prefix "true" t,
                Str.strip_prefix "false" t,
                Str.strip_prefix "null" t with
          | Some r, _, _ => Some (JBool true, r)
          | _, Some r, _ => Some (JBool false, r)
          | _, _, Some r => Some (JNull, r)
          | _, _, _ => '(n, r) ← lex_number t; Some (JNumber n, r)
          end
      end
  end
with parse_items (fuel : nat) (s : string) (acc : list json)
  : option (json * string) :=
  match fuel with
  | O => None
  | S fuel =>
      '(v, r) ← parse_value fuel s;
      match skip_ws r with
      | String ","%char r' => parse_items fuel r' (v :: acc)
      | String "]"%char r' => Some (JArray (rev (v :: acc)), r')
      | _ => None
      end
  end
with parse_members (fuel : nat) (s : string) (acc : list (string * json))
  : option (json * string) :=
  match fuel with
  | O => None
  | S fuel =>
      match skip_ws s with
      | String "034"%char r =>
          '(k, r) ← lex_string r;
          match skip_ws r with
          | String ":"%char r =>
              '(v, r) ← parse_value fuel r;
              match skip_ws r with
              | String ","%char r' => parse_members fuel r' (set_member k v acc)
              | String "}"%char r' => Some (JObject (set_member k v acc), r')
              | _ => None
              end
          | _ => None
          end
      | _ => None
      end
  end.

(** [JSON.parse(s)]; [None] for a [SyntaxError]. *)
Definition parse (s : string) : option json :=
  '(v, rest) ← parse_value (2 * String.length s + 2) s;
  match skip_ws rest with
  | "" => Some v
  | _ => None
  end.

(** The digits of a fraction [r] in [[0, 1)], at most [fuel] of them. *)
Fixpoint render_frac (fuel : nat) (r : Q) : string :=
  match fuel with
  | O => ""
  | S fuel =>
      if Qeq_bool r 0 then ""
      else
        let d := Qfloor (r * 10) in
        pretty (Z.to_N d) +:+ render_frac fuel (r * 10 - inject_Z d)
  end.

Definition render_number (n : number) : string :=
  match n with
  | NaN => "null"
  | Fin q =>
      let neg := negb (Qle_bool 0 q) in
      let a := if neg then Qopp q else q in
      let i := Qfloor a in
      let r := (a - inject_Z i)%Q in
      (if neg then "-" else "") +:+ pretty (Z.to_N i)
        +:+ (if Qeq_bool r 0 then "" else "." +:+ render_frac 17 r)
  end.

Definition hex_digit (n : N) : ascii :=
  ascii_of_N (if (n <? 10)%N then 48 + n else 87 + n)%N.

Fixpoint escape (s : string) : string :=
  match s with
  | "" => ""
  | String c rest =>
      let bs (x : ascii) := String "092" (String x "") in
      (match c with
       | "034" => bs "034"
       | "092" => bs "092"
       | "008" => bs "b"
       | "012" => bs "f"
       | "010" => bs "n"
       | "013" => bs "r"
       | "009" => bs "t"
       | _ =>
           let n := N_of_ascii c in
           if (n <? 32)%N then
             bs "u" +:+ "00"
               +:+ String (hex_digit (n / 16)) (String (hex_digit (n mod 16)) "")
           else String c ""
       end%char) +:+ escape rest
  end.

Definition quote (s : string) : string := dquote +:+ escape s +:+ dquote.

(** [JSON.stringify(v)], compact. *)
Fixpoint stringify (v : json) : string :=
  match v with
  | JNull => "null"
  | JBool true => "true"
  | JBool false => "false"
  | JNumber n => render_number n
  | JString s => quote s
  | JArray items => "[" +:+ Str.join "," (map stringify items) +:+ "]"
  | JObject ms =>
      "{" +:+ Str.join ","
                (map (λ kv, quote (fst kv) +:+ ":" +:+ stringify (snd kv)) ms)
          +:+ "}"
  end.

(** [x.toFixed(1)] on the exact value: the nearest tenth, a tie going to
    the larger magnitude. *)
Definition toFixed1 (q : Q) : string :=
  let neg := negb (Qle_bool 0 q) in
  let a := if neg then Qopp q else q in
  let n := Z.to_N (Qfloor (a * 10 + (1 # 2))) in
  (if neg then "-" else "") +:+ pretty (n / 10)%N +:+ "."
    +:+ pretty (n mod 10)%N.

Definition percent_text (x : number) : string :=
  match x with
  | NaN => "NaN"
  | Fin q => toFixed1 (q * 100)
  end.

Definition platform : Platform :=
  {| JSON_parse := parse;
     JSON_stringify := stringify;
     percent := percent_text |}.

End Reference.

(** ** The world outside the process *)

(** The outcome of one HTTP exchange of an adapter with its backend: the
    [fetch] call and the decoding of the response.
    - [NetworkError]: [fetch], or [response.json()] on a success response,
      rejects;
    - [HttpError status error]: [response.ok] is false; [error] is
      [errorData.error] of the decoded error body;
    - [Reply data content]: a success response with body [data], from
      which the adapter took the judge's reply text [content]. *)
Inductive Exchange : Type :=
  | NetworkError (reason : string)
  | HttpError (status : N) (error : jsval)
  | Reply (data : json) (content : string).

Record World : Type := {
  files : gmap string string;   (* path of a file, base64 text of its bytes *)
  env : gmap string string;     (* [process.env] *)
  network : nat → Exchange;     (* the outcome of request number 0, 1, ... *)
  requests : nat;               (* the requests sent so far *)
}.

(** Computations that read and change the world, and may throw. *)
Definition M (A : Type) : Type := World → Outcome A * World.

Definition ret {A} (a : A) : M A := λ w, (Return a, w).

Definition throw {A} (e : Error) : M A := λ w, (Throw e, w).

Definition bind {A B} (m : M A) (k : A → M B) : M B :=
  λ w, match m w with
       | (Return a, w') => k a w'
       | (Throw e, w') => (Throw e, w')
       end.

Notation "'do' x <- m ; k" := (bind m (λ x, k))
  (at level 10, x name, m at level 100, k at level 200,
   format "'[v' 'do'  x  <-  m ; '/' k ']'").

(** [pathExists(filePath)]. *)
Definition pathExists (filePath : string) (w : World) : bool :=
  bool_decide (is_Some (files w !! filePath)).

(** [readFileAsBase64(filePath)]. *)
Definition readFileAsBase64 (filePath : string) : M string :=
  λ w, match files w !! filePath with
       | Some text => (Return text, w)
       | None => (Throw (Rejected ("ENOENT: " +:+ filePath)), w)
       end.

(** [getEnv(key)]: [process.env[key] || undefined]. *)
Definition getEnv (key : string) : M (option string) :=
  λ w, (Return (nonempty (env w !! key)), w).

(** [getApiKey(envVarName)]. *)
Definition getApiKey (envVarName : string) : M (option string) :=
  getEnv envVarName.

(** [fetch(...)] and the decoding of its response. *)
Definition fetch : M Exchange :=
  λ w, (Return (network w (requests w)),
        {| files := files w; env := env w; network := network w;
           requests := S (requests w) |}).

(** ** src/providers/base-provider.ts *)

(** A configured number that [||] replaces: [undefined], [0] or [NaN]. *)
Definition falsy (x : option number) : bool :=
  match x with
  | Some n => negb (Num.truthy n)
  | None => true
  end.

(** What a call of [evaluateScreenshot] did: its result, how many times it
    called [evaluateScreenshotInternal], the delays in milliseconds it
    waited between the calls, and the world it left. *)
Record Run : Type := {
  outcome : Outcome Runtime.LLMResponse;
  calls : nat;
  delays : list Z;
  final : World;
}.

(** [validateConfig(config)] of [BaseLLMProvider]; [environment] is
    [process.env] at construction. *)
Definition validateConfig_base
    (environment : gmap string string) (config : LLMProviderConfig)
  : LLMProviderConfig :=
  let key :=
    match nonempty (apiKey config), nonempty (apiKeyEnvVar config) with
    | None, Some variable =>
        Some (default "" (nonempty (environment !! variable)))
    | _, _ => apiKey config
    end in
  {| apiKey := key;
     apiKeyEnvVar := apiKeyEnvVar config;
     defaultConfidenceThreshold :=
       Some (Num.or_else (defaultConfidenceThreshold config) (Fin (4 # 5)));
     defaultMaxRetries :=
       Some (Num.or_else (defaultMaxRetries config) (Fin 3));
     model := model config;
     maxTokens := maxTokens config;
     temperature := Some (Num.or_else (temperature config) (Fin (3 # 10))) |}.

Section BaseLLMProvider.

(** [this.providerName], [this.config] and the abstract method. *)
Variable providerName : string.
Variable config : LLMProviderConfig.
Variable evaluateScreenshotInternal :
  string → string → EvaluateOptions → M Runtime.LLMResponse.

(** [{ confidenceThreshold: ..., maxRetries: ..., ...options }]. *)
Definition mergedOptions (options : option EvaluateOptions) : EvaluateOptions :=
  let o :=
    default {| confidenceThreshold := Absent; modelParameters := Absent;
               includeRawResponse := Absent; maxRetries := Absent |}
            options in
  {| confidenceThreshold :=
       spread_over (holding (defaultConfidenceThreshold config))
                   (confidenceThreshold o);
     maxRetries :=
       spread_over (holding (defaultMaxRetries config)) (maxRetries o);
     modelParameters := modelParameters o;
     includeRawResponse := includeRawResponse o |}.

(** [mergedOptions.maxRetries || 1]. *)
Definition attemptLimit (merged : EvaluateOptions) : number :=
  Num.or_else (read (maxRetries merged)) (Fin 1).

(** [1000 * Math.pow(2, attempt - 1)]. *)
Definition backoff (attempt : Z) : Z := (1000 * 2 ^ (attempt - 1))%Z.

(** The [for] loop of [evaluateScreenshot], entered with the loop
    variable at [attempt].  [fuel] bounds the iterations; [None] means it
    ran out. *)
Fixpoint attempts
    (fuel : nat) (internal : M Runtime.LLMResponse) (limit : number)
    (attempt : Z) (lastError : option Error) (made : nat) (waited : list Z)
    (w : World) : option Run :=
  match fuel with
  | O => None
  | S fuel =>
      if Num.le (Num.of_Z attempt) limit then
        match internal w with
        | (Return result, w') =>
            Some {| outcome := Return result; calls := S made;
                    delays := waited; final := w' |}
        | (Throw error, w') =>
            if Num.ge (Num.of_Z attempt) limit then
              Some {| outcome := Throw error; calls := S made;
                      delays := waited; final := w' |}
            else
              attempts fuel internal limit (attempt + 1) (Some error)
                       (S made) (waited ++ [backoff attempt]) w'
        end
      else
        Some {| outcome :=
                  Throw (default
                           (Err ("Unknown error evaluating screenshot with "
                                 +:+ providerName))
                           lastError);
                calls := made; delays := waited; final := w |}
  end.

(** Iterations that are enough for the loop to end. *)
Definition budget (limit : number) : nat :=
  match limit with
  | Fin q => S (Z.to_nat (Qfloor q))
  | NaN => 1
  end.

(** [evaluateScreenshot(screenshotPath, specification, options)]. *)
Definition evaluateScreenshot
    (screenshotPath specification : string)
    (options : option EvaluateOptions) (w : World) : option Run :=
  if negb (pathExists screenshotPath w) then
    Some {| outcome :=
              Throw (Err ("Screenshot does not exist at path: "
                          +:+ screenshotPath));
            calls := 0; delays := []; final := w |}
  else
    let merged := mergedOptions options in
    let limit := attemptLimit merged in
    attempts (budget limit)
             (evaluateScreenshotInternal screenshotPath specification merged)
             limit 1 None 0 [] w.

End BaseLLMProvider.

(** ** src/providers/openai-provider.ts, src/providers/anthropic-provider.ts *)

(** What differs between the two adapters. *)
Record Backend : Type := {
  name : string;                    (* [providerName] *)
  DEFAULT_MODEL : string;
  API_KEY : string;                 (* its entry of [ENV_VARS] *)
  rawOf : json → string → json;     (* what [includeRawResponse] attaches *)
}.

Definition OpenAI : Backend :=
  {| name := "OpenAI";
     DEFAULT_MODEL := "gpt-4o";
     API_KEY := "OPENAI_API_KEY";
     rawOf := λ _ content, JString content |}.

Definition Anthropic : Backend :=
  {| name := "Anthropic";
     DEFAULT_MODEL := "claude-sonnet-4-5-20250929";
     API_KEY := "ANTHROPIC_API_KEY";
     rawOf := λ data _, data |}.

(** [validateConfig(config)] of an adapter. *)
Definition validateConfig
    (b : Backend) (environment : gmap string string)
    (config : LLMProviderConfig) : LLMProviderConfig :=
  let v := validateConfig_base environment config in
  {| apiKey := apiKey v;
     apiKeyEnvVar := apiKeyEnvVar v;
     defaultConfidenceThreshold := defaultConfidenceThreshold v;
     defaultMaxRetries := defaultMaxRetries v;
     model := Some (default (DEFAULT_MODEL b) (nonempty (model v)));
     maxTokens := maxTokens v;
     temperature := temperature v |}.

(** The suffix of [s] from its first opening brace. *)
Fixpoint from_first_brace (s : string) : option string :=
  match s with
  | "" => None
  | String c rest =>
      if Ascii.eqb c "{" then Some s else from_first_brace rest
  end.

(** The prefix of [s] up to its last closing brace. *)
Fixpoint upto_last_brace (s : string) : option string :=
  match s with
  | "" => None
  | String c rest =>
      match upto_last_brace rest with
      | Some t => Some (String c t)
      | None => if Ascii.eqb c "}" then Some (String c "") else None
      end
  end.

(** [content.match(/(\{[\s\S]*\})/)]: from the first opening brace to the
    last closing brace after it. *)
Definition jsonMatch (content : string) : option string :=
  from_first_brace content ≫= upto_last_brace.

(** [key in operand], for a [key] that no prototype defines. *)
Definition has_key (key : string) (operand : json) : Outcome bool :=
  match operand with
  | JObject ms => Return (bool_decide (is_Some (Js.assoc key ms)))
  | JArray _ => Return false
  | _ => Throw (TypeError_in key operand)
  end.

Section Adapter.
Context `{Platform}.
Variable b : Backend.

(** "Try to extract JSON from the response content": the value of
    [resultJson] after the inner [try]. *)
Definition resultJson (content : string) : json :=
  match JSON_parse (default content (jsonMatch content)) with
  | Some parsed => parsed
  | None =>
      JObject
        [ ("confidence", JNumber (Fin 0));
          ("reasoning", JString ("Error parsing response: " +:+ content));
          ("verdict", JString "no") ]
  end.

(** The two [return] statements of [evaluateScreenshotInternal]; [raw] is
    the value of its [rawResponse]. *)
Definition toResponse (parsed : json) (raw : jsval)
  : Outcome Runtime.LLMResponse :=
  match has_key "confidence" parsed with
  | Throw e => Throw e
  | Return false =>
      Return
        {| Runtime.confidence := Some (JNumber (Fin 0));
           Runtime.reasoning :=
             Some (JString ("Invalid response format: "
                            +:+ JSON_stringify parsed));
           Runtime.verdict := Some (JString "no");
           Runtime.failReason := None;
           Runtime.suggestions := None;
           Runtime.rawResponse := raw |}
  | Return true =>
      Return
        {| Runtime.confidence := Js.get parsed "confidence";
           Runtime.reasoning :=
             Js.or_else (Js.get parsed "reasoning")
                        (JString "No reasoning provided");
           Runtime.verdict :=
             Js.or_else (Js.get parsed "verdict") (JString "no");
           Runtime.failReason := Js.get parsed "failReason";
           Runtime.suggestions := Js.get parsed "suggestions";
           Runtime.rawResponse := raw |}
  end.

(** From the reply text to the response: the part of
    [evaluateScreenshotInternal] after the exchange. *)
Definition normalize
    (options : EvaluateOptions) (data : json) (content : string)
  : Outcome Runtime.LLMResponse :=
  toResponse (resultJson content)
    (if default false (read (includeRawResponse options))
     then Some (rawOf b data content) else None).

(** [evaluateScreenshotInternal(screenshotPath, specification, options)];
    [config] is [this.config]. *)
Definition evaluateScreenshotInternal
    (config : LLMProviderConfig) (screenshotPath specification : string)
    (options : EvaluateOptions) : M Runtime.LLMResponse :=
  do base64Image <- readFileAsBase64 screenshotPath;
  if String.eqb base64Image "" then
    throw (Err ("Could not read screenshot file: " +:+ screenshotPath))
  else
    do key <- match nonempty (apiKey config) with
              | Some k => ret (Some k)
              | None => getApiKey (API_KEY b)
              end;
    match key with
    | None =>
        throw (Err ("No " +:+ name b +:+
                    " API key provided. Please check your environment variables."))
    | Some _ =>
        do exchange <- fetch;
        match exchange with
        | NetworkError reason => throw (Rejected reason)
        | HttpError status error =>
            throw (Err ("API request failed with status " +:+ pretty status
                        +:+ (if Js.truthy error
                             then ": " +:+ JSON_stringify (default JNull error)
                             else "")))
        | Reply data content =>
            λ w, (normalize options data content, w)
        end
    end.

(** An adapter: [BaseLLMProvider] with this [evaluateScreenshotInternal]. *)
Definition provider_evaluateScreenshot (config : LLMProviderConfig) :=
  evaluateScreenshot (name b) config (evaluateScreenshotInternal config).

End Adapter.

(** A value of type [string | undefined]. *)
Definition optional_string (v : jsval) : option (option string) :=
  match v with
  | None => Some None
  | Some (JString s) => Some (Some s)
  | Some _ => None
  end.

(** A value of type [string[] | undefined]. *)
Definition optional_strings (v : jsval) : option (option (list string)) :=
  match v with
  | None => Some None
  | Some (JArray items) =>
      Some <$> mapM (λ i, match i with JString s => Some s | _ => None end) items
  | Some _ => None
  end.

(** The response of an adapter seen at the types [LLMResponse] declares;
    [None] when a field holds a value of another type.  The source has no
    such test: [vibeCheck] applies its comparisons to the values as they
    are ([vibeCheck_test]), and where this view exists the two decide
    alike ([vibeCheck_test_typed]). *)
Definition typed (r : Runtime.LLMResponse) : option LLMResponse :=
  match Runtime.verdict r, Runtime.confidence r with
  | Some (JString v), Some (JNumber c) =>
      why ← optional_string (Runtime.failReason r);
      how ← optional_string (Runtime.reasoning r);
      tips ← optional_strings (Runtime.suggestions r);
      Some {| verdict := v; confidence := c; failReason := why;
              reasoning := how; suggestions := tips;
              rawResponse := Runtime.rawResponse r |}
  | _, _ => None
  end.

(** ** src/providers/index.ts *)

Module LLMService.
Section Service.

(** The registered [LLMProvider] objects. *)
Context {Provider : Type}.

Record t : Type := {
  providers : gmap string Provider;
  defaultProviderName : option string;     (* [None] is [null] *)
}.

(** [new LLMService()]. *)
Definition new : t := {| providers := ∅; defaultProviderName := None |}.

(** [registerProvider(name, provider, isDefault)]. *)
Definition registerProvider
    (name : string) (provider : Provider) (isDefault : bool) (s : t) : t :=
  let registered := <[name := provider]> (providers s) in
  {| providers := registered;
     defaultProviderName :=
       if isDefault || bool_decide (size registered = 1)
       then Some name else defaultProviderName s |}.

(** [setDefaultProvider(name)]. *)
Definition setDefaultProvider (name : string) (s : t) : Outcome t :=
  match providers s !! name with
  | None =>
      Throw (Err ("Provider " +:+ dquote +:+ name +:+ dquote
                  +:+ " not registered"))
  | Some _ =>
      Return {| providers := providers s;
                defaultProviderName := Some name |}
  end.

(** [getProvider(name)]; a [name] that is [undefined] or empty is falsy. *)
Definition getProvider (name : option string) (s : t) : Outcome Provider :=
  let providerName :=
    match nonempty name with
    | Some n => Some n
    | None => defaultProviderName s
    end in
  match nonempty providerName with
  | None => Throw (Err "No provider specified and no default provider set")
  | Some n =>
      match providers s !! n with
      | Some provider => Return provider
      | None =>
          Throw (Err ("Provider " +:+ dquote +:+ n +:+ dquote
                      +:+ " not found"))
      end
  end.

(** The services a program can build: a new one, and what the two
    mutators make of it. *)
Inductive reachable : t → Prop :=
  | reachable_new : reachable new
  | reachable_register name provider isDefault s :
      reachable s → reachable (registerProvider name provider isDefault s)
  | reachable_setDefault name s s' :
      reachable s → setDefaultProvider name s = Return s' → reachable s'.

End Service.
Arguments t : clear implicits.
End LLMService.

(** ** src/config/config.ts *)

(** [VibeCheckOptions]: the options of one call of [vibeCheck]. *)
Module VibeCheckOptions.
Record t : Type := {
  name : option string;
  provider : option string;
  confidenceThreshold : option number;
  includeRawResponse : option bool;
  maxRetries : option number;
  modelParameters : option loc;
}.
End VibeCheckOptions.

(** [VibeConfig["evaluation"]]: the evaluation defaults of the session. *)
Module Evaluation.
Record t : Type := {
  confidenceThreshold : option number;
  includeRawResponse : option bool;
  maxRetries : option number;
  modelParameters : option loc;
}.
End Evaluation.

(** ** Objects and the store

    The objects the option merges read and create.  Evaluating an object
    literal allocates a new object at a fresh address; the objects it
    spreads or reads stay where they are. *)
Inductive object : Type :=
  | Parameters (entries : gmap string jsval)      (* a [modelParameters] record *)
  | CheckOptions (o : VibeCheckOptions.t)
  | SessionEvaluation (e : Evaluation.t)
  | Options (o : EvaluateOptions)
  | ProviderConfig (c : LLMProviderConfig).

Abbreviation store := (gmap loc object).

Definition allocate (o : object) (h : store) : loc * store :=
  let l := fresh (dom h) in (l, <[l := o]> h).

(** The entries a spread [...o.modelParameters] copies; none when the
    property is [undefined]. *)
Definition spread_parameters (l : option loc) (h : store)
  : option (gmap string jsval) :=
  match l with
  | None => Some ∅
  | Some l =>
      match h !! l with
      | Some (Parameters entries) => Some entries
      | _ => None
      end
  end.

(** [a ?? b]. *)
Definition nullish {A} (a b : option A) : option A :=
  match a with
  | Some x => Some x
  | None => b
  end.

(** The [options] argument of [vibeCheck]: [undefined], or the object at an
    address. *)
Definition checkOptions_at (options : option loc) (h : store)
  : option (option VibeCheckOptions.t) :=
  match options with
  | None => Some None
  | Some l =>
      match h !! l with
      | Some (CheckOptions o) => Some (Some o)
      | _ => None
      end
  end.

(** "Merge evaluation options" of [vibeCheck] (fixtures.ts): [options] is
    the argument of the call, [undefined] or an object; [evaluation] is
    [vibeConfig.evaluation].  The result is the address of the new
    [evaluationOptions]; [None] when an address does not hold an object of
    the expected type. *)
Definition vibeCheck_evaluationOptions
    (options : option loc) (evaluation : loc) (h : store)
  : option (loc * store) :=
  o ← checkOptions_at options h;
  e ← match h !! evaluation with
      | Some (SessionEvaluation e) => Some e
      | _ => None
      end;
  session ← spread_parameters (Evaluation.modelParameters e) h;
  call ← spread_parameters (o ≫= VibeCheckOptions.modelParameters) h;
  let '(parameters, h) := allocate (Parameters (call ∪ session)) h in
  Some
    (allocate
       (Options
          {| confidenceThreshold :=
               holding (nullish (o ≫= VibeCheckOptions.confidenceThreshold)
                                (Evaluation.confidenceThreshold e));
             includeRawResponse :=
               holding (nullish (o ≫= VibeCheckOptions.includeRawResponse)
                                (Evaluation.includeRawResponse e));
             maxRetries :=
               holding (nullish (o ≫= VibeCheckOptions.maxRetries)
                                (Evaluation.maxRetries e));
             modelParameters := Value parameters |})
       h).

(** "Merge options with defaults" of [evaluateScreenshot]
    (base-provider.ts), on the store: [config] is the address of
    [this.config], [options] the argument.  The result is the address of
    the new [mergedOptions]. *)
Definition evaluateScreenshot_mergedOptions
    (config : loc) (options : option loc) (h : store) : option (loc * store) :=
  c ← match h !! config with
      | Some (ProviderConfig c) => Some c
      | _ => None
      end;
  o ← match options with
      | None => Some None
      | Some l =>
          match h !! l with
          | Some (Options o) => Some (Some o)
          | _ => None
          end
      end;
  Some (allocate (Options (mergedOptions c o)) h).

(** The two merges in the order of a check: [vibeCheck] builds
    [evaluationOptions] and passes it, through
    [LLMService.evaluateScreenshot], to [evaluateScreenshot] of the
    provider. *)
Definition check_mergedOptions
    (options : option loc) (evaluation config : loc) (h : store)
  : option (loc * store) :=
  '(evaluationOptions, h) ← vibeCheck_evaluationOptions options evaluation h;
  evaluateScreenshot_mergedOptions config (Some evaluationOptions) h.

(** The world after [k] calls of [m] in a row. *)
Fixpoint after {A} (m : M A) (k : nat) (w : World) : World :=
  match k with
  | O => w
  | S k => after m k (snd (m w))
  end.

(** Call number [k] of [m] in a row, counted from 0, throws. *)
Definition throws_at {A} (m : M A) (k : nat) (w : World) : Prop :=
  ∃ e, fst (m (after m k w)) = Throw e.

(** The delays before attempts [first + 1], ..., [first + count]. *)
Definition waits (first : Z) (count : nat) : list Z :=
  backoff <$> seqZ first (Z.of_nat count).

(** The error of an adapter that finds no API key. *)
Definition no_key_error (b : Backend) : Error :=
  Err ("No " +:+ name b
       +:+ " API key provided. Please check your environment variables.").

(** The failing response that stands for a reply the adapter could not
    use. *)
Definition degraded (reason : string) (raw : jsval) : Runtime.LLMResponse :=
  {| Runtime.confidence := Some (JNumber (Fin 0));
     Runtime.reasoning := Some (JString reason);
     Runtime.verdict := Some (JString "no");
     Runtime.failReason := None;
     Runtime.suggestions := None;
     Runtime.rawResponse := raw |}.

(** ** Sample inputs *)

Module Sample.

(** A world with one screenshot, no API key in the environment, and a
    network that answers every request with [answer]. *)
Definition world (answer : Exchange) : World :=
  {| files := {[ "shots/login.png" := "iVBORw0KGgo=" ]};
     env := ∅;
     network := λ _, answer;
     requests := 0 |}.

(** A provider configuration as [createDefaultConfig] writes it, with the
    key [key]. *)
Definition config (key : string) : LLMProviderConfig :=
  {| apiKey := Some key; apiKeyEnvVar := None;
     defaultConfidenceThreshold := Some (Fin (3 # 5));
     defaultMaxRetries := None; model := None; maxTokens := None;
     temperature := None |}.

(** The options [vibeCheck] passes on, with [maxRetries] set to [n]. *)
Definition options (n : Z) : EvaluateOptions :=
  {| confidenceThreshold := Value (Fin (4 # 5));
     modelParameters := Absent;
     includeRawResponse := Value false;
     maxRetries := Value (Num.of_Z n) |}.

(** What a run did, without the world it left: result, calls of the
    adapter, delays, requests sent. *)
Definition summary (run : option Run)
  : option (Outcome Runtime.LLMResponse * nat * list Z * nat) :=
  (λ r, (outcome r, calls r, delays r, requests (final r))) <$> run.

(** No key in the configuration; the variable it designates is unset. *)
Definition keyless : LLMProviderConfig :=
  {| apiKey := None; apiKeyEnvVar := Some "VIBE_KEY";
     defaultConfidenceThreshold := None; defaultMaxRetries := None;
     model := None; maxTokens := None; temperature := None |}.

(** A network that fails twice and then answers with [content]. *)
Definition flaky (content : string) : World :=
  {| files := {[ "shots/login.png" := "iVBORw0KGgo=" ]};
     env := ∅;
     network := λ k, if (k <? 2)%nat then NetworkError "ECONNRESET"
                     else Reply JNull content;
     requests := 0 |}.

End Sample.

Module Replies.

Definition quoted (s : string) : string := dquote +:+ s +:+ dquote.

(** [{"confidence": <c>, "verdict": "<v>"}]. *)
Definition reply (c v : string) : string :=
  "{" +:+ quoted "confidence" +:+ ": " +:+ c +:+ ", "
      +:+ quoted "verdict" +:+ ": " +:+ quoted v +:+ "}".

(** A reply wrapped in prose, with a verdict that is neither "yes" nor
    "no". *)
Definition undecided : string :=
  "Here is my assessment: " +:+ reply "0.9" "maybe" +:+ " Hope this helps.".

(** A reply with a confidence above 1. *)
Definition overconfident : string := reply "1.5" "yes".

(** A reply that is JSON, but a number and not an object. *)
Definition bare_number : string := "42".

(** A reply that is not JSON. *)
Definition prose : string := "I cannot judge this image.".

End Replies.

Module SampleStore.

(** Session defaults: the thresholds of [createDefaultConfig], and model
    parameters as a custom test instance sets them. *)
Definition sessionParameters : object :=
  Parameters {[ "temperature" := Some (JNumber (Fin (1 # 10)));
                "seed" := Some (JNumber (Fin 7)) ]}.

Definition session : object :=
  SessionEvaluation
    {| Evaluation.confidenceThreshold := Some (Fin (4 # 5));
       Evaluation.includeRawResponse := Some false;
       Evaluation.maxRetries := Some (Fin 2);
       Evaluation.modelParameters := Some 1%positive |}.

(** The options of one call: a threshold and a temperature of its own. *)
Definition callParameters : object :=
  Parameters {[ "temperature" := Some (JNumber (Fin 0)) ]}.

Definition call : object :=
  CheckOptions
    {| VibeCheckOptions.name := Some "btn";
       VibeCheckOptions.provider := None;
       VibeCheckOptions.confidenceThreshold := Some (Fin (1 # 2));
       VibeCheckOptions.includeRawResponse := None;
       VibeCheckOptions.maxRetries := None;
       VibeCheckOptions.modelParameters := Some 3%positive |}.

Definition backend : object :=
  ProviderConfig (validateConfig OpenAI ∅ (Sample.config "sk-test")).

Definition objects : store :=
  {[ 1%positive := sessionParameters; 2%positive := session;
     3%positive := callParameters; 4%positive := call;
     5%positive := backend ]}.

End SampleStore.

(** ** What the properties of the adapters speak of *)

(** The adapter can send its request: the screenshot file has content and
    a key is found in the configuration or in the backend's variable. *)
Definition usable
    (b : Backend) (config : LLMProviderConfig) (path : string) (w : World)
  : bool :=
  match files w !! path with
  | Some (String _ _) =>
      bool_decide (is_Some (nonempty (apiKey config)))
      || bool_decide (is_Some (nonempty (env w !! API_KEY b)))
  | _ => false
  end.

(** The world after one more request. *)
Definition requested (w : World) : World :=
  {| files := files w; env := env w; network := network w;
     requests := S (requests w) |}.

(** A value that is no object and no array. *)
Definition primitive (v : json) : Prop :=
  match v with JObject _ | JArray _ => False | _ => True end.

(** No character of [s] is [c]. *)
Definition free_of (c : ascii) (s : string) : bool :=
  Str.all (λ x, negb (Ascii.eqb x c)) s.

(** ** Objects with string keys

    The own properties of an object, in the order of their creation, one
    entry per key. *)
Module Obj.

(** [o[k]]. *)
Fixpoint get {A} (k : string) (o : list (string * A)) : option A :=
  match o with
  | [] => None
  | (k', v) :: rest => if String.eqb k k' then Some v else get k rest
  end.

(** [o[k] = v]: a key that exists keeps its place. *)
Fixpoint set {A} (k : string) (v : A) (o : list (string * A))
  : list (string * A) :=
  match o with
  | [] => [(k, v)]
  | (k', v') :: rest =>
      if String.eqb k k' then (k, v) :: rest else (k', v') :: set k v rest
  end.

Fixpoint digits_value (s : string) (acc : N) : option N :=
  match s with
  | "" => Some acc
  | String c rest =>
      if Str.is_digit c
      then digits_value rest (acc * 10 + (N_of_ascii c - 48))%N
      else None
  end.

(** The array index a key stands for: a canonical decimal numeral below
    2^32 - 1. *)
Definition array_index (k : string) : option N :=
  match k with
  | "" => None
  | _ =>
      match digits_value k 0 with
      | Some n =>
          if String.eqb (pretty n) k && (n <? 4294967295)%N
          then Some n else None
      | None => None
      end
  end.

Fixpoint insert_index {A} (n : N) (e : A) (l : list (N * A)) : list (N * A) :=
  match l with
  | [] => [(n, e)]
  | (m, e') :: rest =>
      if (n <? m)%N then (n, e) :: l else (m, e') :: insert_index n e rest
  end.

(** The entries whose key is an array index, in ascending order. *)
Fixpoint indexed {A} (o : list (string * A)) : list (N * (string * A)) :=
  match o with
  | [] => []
  | e :: rest =>
      match array_index e.1 with
      | Some n => insert_index n e (indexed rest)
      | None => indexed rest
      end
  end.

(** [Object.entries(o)]: the array indices in ascending order, then the
    other keys in the order of their creation. *)
Definition entries {A} (o : list (string * A)) : list (string * A) :=
  (snd <$> indexed o)
  ++ filter (λ e, array_index e.1 = None) o.

(** [{ ...base, ...over }]. *)
Definition spread {A} (base over : list (string * A)) : list (string * A) :=
  fold_left (λ acc e, set e.1 e.2 acc) (entries over) base.

End Obj.

(** ** src/config/config.ts: the configuration *)

(** An entry of [VibeConfig["providers"]]. *)
Module ProviderEntry.
Record t : Type := {
  type : string;               (* [LLMProviderType], or what a caller wrote *)
  config : LLMProviderConfig;
}.
End ProviderEntry.

(** [VibeConfig].  The evaluation defaults are held by value; their
    [modelParameters] is the address of an object of the store. *)
Module VibeConfig.
Record t : Type := {
  defaultProvider : string;
  providers : list (string * ProviderEntry.t);
  evaluation : Evaluation.t;
}.
End VibeConfig.

(** The [evaluation] member of a [Partial<VibeConfig>], as a caller can
    write it: each key absent, [undefined] or set. *)
Module EvaluationPatch.
Record t : Type := {
  confidenceThreshold : prop number;
  includeRawResponse : prop bool;
  maxRetries : prop number;
  modelParameters : prop loc;
}.
End EvaluationPatch.

(** [Partial<VibeConfig>]; [None] is a member that is absent, [undefined]
    or [null]. *)
Module PartialVibeConfig.
Record t : Type := {
  defaultProvider : option string;
  providers : option (list (string * ProviderEntry.t));
  evaluation : option EvaluationPatch.t;
}.

(** [{}]. *)
Definition empty : t :=
  {| defaultProvider := None; providers := None; evaluation := None |}.
End PartialVibeConfig.

(** The property [k] of [{ ...base, ...over }] read back, [base] being
    what [base.k] reads. *)
Definition overlay {A} (base : option A) (over : prop A) : option A :=
  read (spread_over (holding base) over).

(** [{ ...base, ...over }] on evaluation defaults; spreading [undefined]
    copies nothing. *)
Definition spread_evaluation
    (base : Evaluation.t) (over : option EvaluationPatch.t) : Evaluation.t :=
  match over with
  | None => base
  | Some o =>
      {| Evaluation.confidenceThreshold :=
           overlay (Evaluation.confidenceThreshold base)
                   (EvaluationPatch.confidenceThreshold o);
         Evaluation.includeRawResponse :=
           overlay (Evaluation.includeRawResponse base)
                   (EvaluationPatch.includeRawResponse o);
         Evaluation.maxRetries :=
           overlay (Evaluation.maxRetries base) (EvaluationPatch.maxRetries o);
         Evaluation.modelParameters :=
           overlay (Evaluation.modelParameters base)
                   (EvaluationPatch.modelParameters o) |}
  end.

(** The [config] of a built-in provider; [key] is what [process.env]
    holds for its key. *)
Definition builtin (key : option string) : LLMProviderConfig :=
  {| apiKey := Some (default "" (nonempty key));
     apiKeyEnvVar := None;
     defaultConfidenceThreshold := Some (Fin (3 # 5));
     defaultMaxRetries := None; model := None; maxTokens := None;
     temperature := None |}.

(** [createDefaultConfig()]; [environment] is [process.env].  The empty
    [modelParameters] is a new object of the store. *)
Definition createDefaultConfig
    (environment : gmap string string) (h : store) : VibeConfig.t * store :=
  let '(parameters, h) := allocate (Parameters ∅) h in
  ({| VibeConfig.defaultProvider :=
        default "openai" (nonempty (environment !! "VIBE_DEFAULT_PROVIDER"));
      VibeConfig.providers :=
        [ ("openai",
           {| ProviderEntry.type := "openai";
              ProviderEntry.config :=
                builtin (environment !! "OPENAI_API_KEY") |});
          ("anthropic",
           {| ProviderEntry.type := "anthropic";
              ProviderEntry.config :=
                builtin (environment !! "ANTHROPIC_API_KEY") |}) ];
      VibeConfig.evaluation :=
        {| Evaluation.confidenceThreshold := Some (Fin (4 # 5));
           Evaluation.includeRawResponse := Some false;
           Evaluation.maxRetries := Some (Fin 2);
           Evaluation.modelParameters := Some parameters |} |},
   h).

(** [mergeConfig(userConfig)]. *)
Definition mergeConfig
    (environment : gmap string string) (userConfig : PartialVibeConfig.t)
    (h : store) : VibeConfig.t * store :=
  let '(defaultConfig, h) := createDefaultConfig environment h in
  ({| VibeConfig.defaultProvider :=
        default (VibeConfig.defaultProvider defaultConfig)
                (PartialVibeConfig.defaultProvider userConfig);
      VibeConfig.providers :=
        Obj.spread (VibeConfig.providers defaultConfig)
                   (default [] (PartialVibeConfig.providers userConfig));
      VibeConfig.evaluation :=
        spread_evaluation (VibeConfig.evaluation defaultConfig)
                          (PartialVibeConfig.evaluation userConfig) |},
   h).

(** ** src/providers/index.ts: the factory; src/playwright/fixtures.ts: the fixtures *)

(** An [LLMProvider] object: its class and its [this.config]. *)
Record Instance : Type := {
  backend : Backend;
  settings : LLMProviderConfig;
}.

(** [createProvider(type, config)]; the constructor validates the
    configuration against [environment]. *)
Definition createProvider
    (environment : gmap string string) (type : string)
    (config : LLMProviderConfig) : Outcome Instance :=
  if String.eqb type "openai" then
    Return {| backend := OpenAI;
              settings := validateConfig OpenAI environment config |}
  else if String.eqb type "anthropic" then
    Return {| backend := Anthropic;
              settings := validateConfig Anthropic environment config |}
  else Throw (Err ("Unknown provider type: " +:+ type)).

(** The loop of the [llmService] fixture over the entries of
    [config.providers]. *)
Fixpoint registerEach
    (environment : gmap string string) (defaultProvider : string)
    (entries : list (string * ProviderEntry.t)) (service : LLMService.t Instance)
  : Outcome (LLMService.t Instance) :=
  match entries with
  | [] => Return service
  | (name, providerConfig) :: rest =>
      match createProvider environment (ProviderEntry.type providerConfig)
                           (ProviderEntry.config providerConfig) with
      | Throw e => Throw e
      | Return provider =>
          registerEach environment defaultProvider rest
            (LLMService.registerProvider name provider
               (String.eqb name defaultProvider) service)
      end
  end.

(** The [llmService] fixture of [createVibeTest(userConfig)]. *)
Definition llmService
    (environment : gmap string string)
    (userConfig : option PartialVibeConfig.t) (h : store)
  : Outcome (LLMService.t Instance) :=
  let config :=
    (mergeConfig environment (default PartialVibeConfig.empty userConfig) h).1 in
  registerEach environment (VibeConfig.defaultProvider config)
               (Obj.entries (VibeConfig.providers config)) LLMService.new.

(** The [vibeConfig] fixture: the configuration a test starts with. *)
Definition vibeConfig
    (environment : gmap string string)
    (userConfig : option PartialVibeConfig.t) (h : store)
  : VibeConfig.t * store :=
  mergeConfig environment (default PartialVibeConfig.empty userConfig) h.

(** [configureVibes(options)] on the configuration of the test. *)
Definition configureVibes
    (options : PartialVibeConfig.t) (vibeConfig : VibeConfig.t) : VibeConfig.t :=
  {| VibeConfig.defaultProvider :=
       default (VibeConfig.defaultProvider vibeConfig)
               (nonempty (PartialVibeConfig.defaultProvider options));
     VibeConfig.evaluation :=
       spread_evaluation (VibeConfig.evaluation vibeConfig)
                         (PartialVibeConfig.evaluation options);
     VibeConfig.providers :=
       match PartialVibeConfig.providers options with
       | Some added => Obj.spread (VibeConfig.providers vibeConfig) added
       | None => VibeConfig.providers vibeConfig
       end |}.

(** [options?.provider || vibeConfig.defaultProvider] of [vibeCheck]. *)
Definition vibeCheck_providerName
    (options : option VibeCheckOptions.t) (vibeConfig : VibeConfig.t) : string :=
  default (VibeConfig.defaultProvider vibeConfig)
          (nonempty (options ≫= VibeCheckOptions.provider)).



(** [LLMService.evaluateScreenshot(screenshotPath, specification,
    providerName, options)]: a lookup that throws rejects the promise
    before any call of a provider. *)
Definition LLMService_evaluateScreenshot `{Platform}
    (service : LLMService.t Instance) (screenshotPath specification : string)
    (providerName : option string) (options : option EvaluateOptions)
    (w : World) : option Run :=
  match LLMService.getProvider providerName service with
  | Throw e =>
      Some {| outcome := Throw e; calls := 0; delays := []; final := w |}
  | Return provider =>
      provider_evaluateScreenshot (backend provider) (settings provider)
        screenshotPath specification options w
  end.

(** The provider the [llmService] fixture constructs for an entry, when
    [createProvider] returns. *)
Definition constructed
    (environment : gmap string string) (entry : ProviderEntry.t)
  : option Instance :=
  match createProvider environment (ProviderEntry.type entry)
                       (ProviderEntry.config entry) with
  | Return provider => Some provider
  | Throw _ => None
  end.

(** The type of an entry is one [createProvider] knows. *)
Definition known (entry : ProviderEntry.t) : Prop :=
  ProviderEntry.type entry = "openai" ∨ ProviderEntry.type entry = "anthropic".

(** Sample configurations of a test file. *)
Module SampleConfig.

(** [OPENAI_API_KEY] is set, nothing else. *)
Definition environment : gmap string string :=
  {[ "OPENAI_API_KEY" := "sk-test" ]}.

(** An entry for a provider of type [type] with the key [key]. *)
Definition entry (type key : string) : ProviderEntry.t :=
  {| ProviderEntry.type := type;
     ProviderEntry.config :=
       {| apiKey := Some key; apiKeyEnvVar := None;
          defaultConfidenceThreshold := None; defaultMaxRetries := None;
          model := None; maxTokens := None; temperature := None |} |}.

(** [{ providers: { <name>: { type, config } }, defaultProvider: <name> }]. *)
Definition adding (name type : string) : PartialVibeConfig.t :=
  {| PartialVibeConfig.defaultProvider := Some name;
     PartialVibeConfig.providers := Some [(name, entry type "key")];
     PartialVibeConfig.evaluation := None |}.

End SampleConfig.

(** ** src/playwright/fixtures.ts: the test of the check, on the values of a response

    [vibeCheck] applies [===] and [<] to whatever the adapter returned:
    the fields of a response are not checked against the types
    [LLMResponse] declares. *)

(** [ToNumber(v)] for a [v] that is a string, an array or an object: what
    [<] makes of an operand that is no number, [StringToNumber], for an
    array or an object after [ToPrimitive], which can throw. *)
Class Coercion : Type := {
  ToNumber : json → Outcome number;
}.

Section Test.
Context `{Coercion}.

(** [x < y] for a number [y]. *)
Definition less_than (x : jsval) (y : number) : Outcome bool :=
  match x with
  | None => Return false                          (* [undefined] is [NaN] *)
  | Some JNull => Return (Num.lt (Fin 0) y)
  | Some (JBool true) => Return (Num.lt (Fin 1) y)
  | Some (JBool false) => Return (Num.lt (Fin 0) y)
  | Some (JNumber n) => Return (Num.lt n y)
  | Some v =>
      match ToNumber v with
      | Return n => Return (Num.lt n y)
      | Throw e => Throw e
      end
  end.

(** [x === "no"]. *)
Definition is_no (x : jsval) : bool :=
  match x with
  | Some (JString s) => String.eqb s "no"
  | _ => false
  end.

(** [result.verdict === "no" || result.confidence < threshold], the
    condition under which [vibeCheck] throws the failure message; when it
    is false the check returns. *)
Definition vibeCheck_test
    (result : Runtime.LLMResponse) (threshold : number) : Outcome bool :=
  if is_no (Runtime.verdict result) then Return true
  else less_than (Runtime.confidence result) threshold.

End Test.

(** An executable [Coercion], used to run the test on concrete inputs.
    It reads a string that is empty or a decimal numeral as JSON writes
    it, with spaces around it, and takes every other string for [NaN]:
    the other numeric forms of JavaScript (a leading plus sign, [.5],
    [5.], hexadecimal, octal and binary numerals, [Infinity]) and white
    space outside ASCII are not read.  An array is read through the text
    [join] gives it; an object is [NaN], also one with a member
    [toString] or [valueOf], for which JavaScript can throw. *)
Module ReferenceCoercion.

(** The text of an element in [Array.prototype.join]. *)
Fixpoint element_text (v : json) : string :=
  match v with
  | JNull => ""
  | JBool true => "true"
  | JBool false => "false"
  | JNumber NaN => "NaN"
  | JNumber n => Reference.render_number n
  | JString s => s
  | JArray items => Str.join "," (map element_text items)
  | JObject _ => "[object Object]"
  end.

Definition string_to_number (s : string) : number :=
  match Reference.skip_ws s with
  | "" => Fin 0
  | t =>
      match Reference.lex_number t with
      | Some (n, rest) =>
          match Reference.skip_ws rest with
          | "" => n
          | _ => NaN
          end
      | None => NaN
      end
  end.

Definition to_number (v : json) : Outcome number :=
  Return
    match v with
    | JNull => Fin 0
    | JBool true => Fin 1
    | JBool false => Fin 0
    | JNumber n => n
    | JString s => string_to_number s
    | JArray items => string_to_number (Str.join "," (map element_text items))
    | JObject _ => NaN
    end.

Definition coercion : Coercion := {| ToNumber := to_number |}.

End ReferenceCoercion.

(** * Properties *)

(** ** Artifact names *)

Example generateScreenshotName_test1 :
  generateScreenshotName 1700000000000 "should verify button appearance" None
  = "should-verify-button-appearance-1700000000000".
Proof. vm_compute. reflexivity. Qed.

Example generateScreenshotName_test2 :
  generateScreenshotName 42 "my test" (Some "custom-screenshot")
  = "my-test-custom-screenshot-42".
Proof. vm_compute. reflexivity. Qed.

Example generateScreenshotName_scenario :
  generateScreenshotName 1700000000000 "Should Verify!" (Some "btn")
  = "Should-Verify--btn-1700000000000".
Proof. vm_compute. reflexivity. Qed.

(** ** Strings *)

Lemma app_cons (c : ascii) (s t : string) :
  String c s +:+ t = String c (s +:+ t).
Proof. reflexivity. Qed.

Lemma app_empty_l (s : string) : "" +:+ s = s.
Proof. reflexivity. Qed.

Lemma app_empty_r (s : string) : s +:+ "" = s.
Proof. induction s as [|c s IH]; [reflexivity|]. now rewrite app_cons, IH. Qed.

Lemma app_assoc_string (a b c : string) : (a +:+ b) +:+ c = a +:+ (b +:+ c).
Proof.
  induction a as [|x a IH]; [reflexivity|].
  now rewrite !app_cons, IH.
Qed.

Lemma contains_refl (s : string) : Str.contains s s.
Proof. exists "", "". now rewrite app_empty_l, app_empty_r. Qed.

Lemma contains_app_r (p s x : string) :
  Str.contains s x → Str.contains (p +:+ s) x.
Proof.
  intros (pre & post & ->). exists (p +:+ pre), post.
  now rewrite app_assoc_string.
Qed.

Lemma contains_app_l (p s x : string) :
  Str.contains s x → Str.contains (s +:+ p) x.
Proof.
  intros (pre & post & ->). exists pre, (post +:+ p).
  now rewrite !app_assoc_string.
Qed.

Lemma contains_trans (s t x : string) :
  Str.contains s t → Str.contains t x → Str.contains s x.
Proof.
  intros (pre & post & ->) Hx.
  now apply contains_app_r, contains_app_l.
Qed.

(** A line of a joined text occurs in the text. *)
Lemma join_contains (sep : string) (lines : list string) (x : string) :
  In x lines → Str.contains (Str.join sep lines) x.
Proof.
  induction lines as [|l rest IH]; [intros []|].
  intros [-> | Hin].
  - destruct rest as [|l' rest]; [apply contains_refl|].
    change (Str.contains (x +:+ sep +:+ Str.join sep (l' :: rest)) x).
    apply contains_app_l, contains_refl.
  - destruct rest as [|l' rest]; [destruct Hin|].
    change (Str.contains (l +:+ sep +:+ Str.join sep (l' :: rest)) x).
    now apply contains_app_r, contains_app_r, IH.
Qed.

Lemma strip_prefix_app (p s : string) : Str.strip_prefix p (p +:+ s) = Some s.
Proof.
  induction p as [|c p IH]; [now destruct s|].
  rewrite app_cons. simpl. now rewrite Ascii.eqb_refl.
Qed.

Lemma all_digits_char (n : N) : Str.is_digit (pretty_N_char n) = true.
Proof.
  unfold pretty_N_char. repeat case_match; reflexivity.
Qed.

Lemma pretty_N_go_digits (x : N) (s : string) :
  Str.all Str.is_digit s = true →
  Str.all Str.is_digit (pretty_N_go x s) = true.
Proof.
  revert s. induction (N.lt_wf_0 x) as [x _ IH]. intros s Hs.
  destruct (decide (0 < x)%N) as [Hpos|Hzero].
  - rewrite pretty_N_go_step by assumption.
    apply IH; [now apply N.div_lt|].
    simpl. now rewrite all_digits_char, Hs.
  - replace x with 0%N by lia. assumption.
Qed.

Lemma pretty_N_go_nonempty (x : N) (s : string) :
  (0 < x)%N → pretty_N_go x s ≠ "".
Proof.
  revert s. induction (N.lt_wf_0 x) as [x _ IH]. intros s Hpos.
  rewrite pretty_N_go_step by assumption.
  destruct (decide (0 < x `div` 10)%N) as [Hq|Hq].
  - apply IH; [now apply N.div_lt | assumption].
  - assert (x `div` 10 = 0)%N as -> by (apply N.nlt_ge, N.le_0_r in Hq; exact Hq).
    discriminate.
Qed.

(** The decimal text of a natural number matches [\d+]. *)
Lemma pretty_N_is_digits (n : N) : Str.is_digits (pretty n) = true.
Proof.
  unfold pretty, pretty_N. destruct (decide (n = 0%N)) as [->|Hn]; [reflexivity|].
  pose proof (pretty_N_go_nonempty n "" ltac:(lia)) as Hne.
  pose proof (pretty_N_go_digits n "" eq_refl) as Hd.
  unfold Str.is_digits. destruct (pretty_N_go n ""); [contradiction|assumption].
Qed.

Lemma matches_prefix_digits_app (p s : string) :
  matches_prefix_digits p (p +:+ s) = Str.is_digits s.
Proof. unfold matches_prefix_digits. now rewrite strip_prefix_app. Qed.

(** ** Artifact names (fs-utils.ts) *)

(** The name of the scenario, whatever the clock says. *)
Lemma generateScreenshotName_scenario_text (timestamp : N) :
  generateScreenshotName timestamp "Should Verify!" (Some "btn")
  = "Should-Verify--btn-" +:+ pretty timestamp.
Proof.
  unfold generateScreenshotName.
  generalize (pretty timestamp). intros digits. vm_compute. reflexivity.
Qed.

(** C9, as stated, fails: for the title "Should Verify!" and the custom
    name "btn" the generated name does not match
    [^should-verify-btn-\d+$]; the letters keep their case and the
    hyphen that replaces "!" is followed by the joining hyphen. *)
Lemma generateScreenshotName_scenario_mismatch :
  matches_prefix_digits "should-verify-btn-"
    (generateScreenshotName 1700000000000 "Should Verify!" (Some "btn"))
  = false.
Proof. vm_compute. reflexivity. Qed.

(** C9, amended: for the title "Should Verify!" and the custom name "btn"
    the generated name is "Should-Verify--btn-" followed by the decimal
    digits of the timestamp, so it matches [^Should-Verify--btn-\d+$]. *)
Theorem generateScreenshotName_scenario_amended (timestamp : N) :
  generateScreenshotName timestamp "Should Verify!" (Some "btn")
  = "Should-Verify--btn-" +:+ pretty timestamp
  ∧ matches_prefix_digits "Should-Verify--btn-"
      (generateScreenshotName timestamp "Should Verify!" (Some "btn"))
    = true.
Proof.
  rewrite generateScreenshotName_scenario_text. split; [reflexivity|].
  rewrite matches_prefix_digits_app. apply pretty_N_is_digits.
Qed.

(** *** Every generated name is made of letters, digits and hyphens *)

Lemma all_app (p : ascii → bool) (s t : string) :
  Str.all p (s +:+ t) = Str.all p s && Str.all p t.
Proof.
  induction s as [|c s IH]; [reflexivity|].
  rewrite app_cons. simpl. now rewrite IH, andb_assoc.
Qed.

Lemma replace_non_alnum_safe (s : string) :
  Str.all safe (replace_non_alnum s) = true.
Proof.
  induction s as [|c s IH]; [reflexivity|]. simpl. rewrite IH, andb_true_r.
  unfold safe. destruct (Str.is_alnum c) eqn:Hc; [now rewrite Hc|reflexivity].
Qed.

Lemma collapse_hyphens_cons (c : ascii) (s : string) :
  collapse_hyphens (String c s)
  = if Ascii.eqb c "-" then
      match s with
      | String d _ =>
          if Ascii.eqb d "-" then collapse_hyphens s
          else String c (collapse_hyphens s)
      | "" => String c ""
      end
    else String c (collapse_hyphens s).
Proof. reflexivity. Qed.

Lemma collapse_hyphens_safe (s : string) :
  Str.all safe s = true → Str.all safe (collapse_hyphens s) = true.
Proof.
  induction s as [|c s IH]; [reflexivity|].
  intros Hall. change (safe c && Str.all safe s = true) in Hall.
  apply andb_true_iff in Hall as [Hc Hs]. specialize (IH Hs).
  assert (Hcons : Str.all safe (String c (collapse_hyphens s)) = true).
  { change (safe c && Str.all safe (collapse_hyphens s) = true).
    now rewrite Hc, IH. }
  rewrite collapse_hyphens_cons.
  destruct (Ascii.eqb c "-"); [|exact Hcons].
  destruct s as [|d s]; [simpl; now rewrite Hc|].
  destruct (Ascii.eqb d "-"); [exact IH | exact Hcons].
Qed.

Lemma take_safe (n : nat) (s : string) :
  Str.all safe s = true → Str.all safe (Str.take n s) = true.
Proof.
  revert s. induction n as [|n IH]; intros [|c s]; try reflexivity.
  simpl. intros [Hc Hs]%andb_true_iff. now rewrite Hc, IH.
Qed.

Lemma digits_safe (s : string) :
  Str.all Str.is_digit s = true → Str.all safe s = true.
Proof.
  induction s as [|c s IH]; [reflexivity|].
  simpl. intros [Hc Hs]%andb_true_iff. rewrite (IH Hs), andb_true_r.
  unfold safe, Str.is_alnum. now rewrite Hc, !orb_true_r.
Qed.

Lemma pretty_N_safe (n : N) : Str.all safe (pretty n) = true.
Proof.
  apply digits_safe. pose proof (pretty_N_is_digits n) as Hd.
  unfold Str.is_digits in Hd. now destruct (pretty n).
Qed.

(** X1: whatever the title and the custom name, the generated name
    matches [^[a-zA-Z0-9-]+$]: letters, digits and hyphens only. *)
Lemma generateScreenshotName_safe
    (timestamp : N) (testTitle : string) (customName : option string) :
  Str.all safe (generateScreenshotName timestamp testTitle customName) = true.
Proof.
  assert (Htitle :
    Str.all safe (Str.take 50 (collapse_hyphens (replace_non_alnum testTitle)))
    = true)
    by apply take_safe, collapse_hyphens_safe, replace_non_alnum_safe.
  unfold generateScreenshotName.
  destruct customName as [[|c name]|];
    rewrite !all_app, ?Htitle, ?pretty_N_safe, ?collapse_hyphens_safe;
    auto using replace_non_alnum_safe.
Qed.

(** The unit tests of fs-utils, on the model. *)
Example generateScreenshotName_test3 :
  generateScreenshotName 1700000000000 "test with: special/characters!@#$%" None
  = "test-with-special-characters--1700000000000".
Proof. vm_compute. reflexivity. Qed.

Example generateScreenshotName_test4 :
  generateScreenshotName 1700000000000
    ("aaaaaaaaaaaaaaaaaaaaaaaaaaaaaaaaaaaaaaaaaaaaaaaaaaaaaaaaaaaa"
     +:+ "aaaaaaaaaaaaaaaaaaaaaaaaaaaaaaaaaaaaaaaa") None
  = "aaaaaaaaaaaaaaaaaaaaaaaaaaaaaaaaaaaaaaaaaaaaaaaaaa-1700000000000".
Proof. vm_compute. reflexivity. Qed.

(** ** The decision (fixtures.ts) *)

Section DecisionProperties.
Context `{Platform}.

Lemma num_lt_fin (c t : Q) : Num.lt (Fin c) (Fin t) = false ↔ (t <= c)%Q.
Proof.
  unfold Num.lt. rewrite negb_false_iff. apply Qle_bool_iff.
Qed.

(** The fixed lines of the failure message. *)
Lemma buildFailureMessage_lines
    (specification : string) (result : LLMResponse) (threshold : number)
    (path : string) (line : string) :
  In line
     [ "Specification: " +:+ dquote +:+ specification +:+ dquote;
       "Verdict: " +:+ verdict result;
       "Confidence: " +:+ percent (confidence result)
         +:+ "% (threshold: " +:+ percent threshold +:+ "%)";
       "Screenshot: " +:+ path ] →
  Str.contains (buildFailureMessage specification result threshold path) line.
Proof.
  intros Hin. unfold buildFailureMessage. apply join_contains.
  apply in_or_app.
  destruct Hin as [<- | [<- | [<- | [<- | []]]]];
    [left | left | left | right; simpl; tauto].
  all: destruct (nonempty (reasoning result));
       destruct (nonempty (failReason result));
       destruct (suggestions result) as [[|? ?]|];
       repeat (apply in_or_app; left); simpl; tauto.
Qed.

(** The optional parts of the failure message. *)
Lemma buildFailureMessage_failReason
    (specification : string) (result : LLMResponse) (threshold : number)
    (path why : string) :
  nonempty (failReason result) = Some why →
  Str.contains (buildFailureMessage specification result threshold path)
               ("Fail Reason: " +:+ why).
Proof.
  intros Hwhy. unfold buildFailureMessage. rewrite Hwhy. apply join_contains.
  apply in_or_app. left.
  destruct (nonempty (reasoning result));
    destruct (suggestions result) as [[|? ?]|];
    repeat (apply in_or_app; (left + (right; simpl; tauto))); simpl; tauto.
Qed.

(** C1: for a verdict that is "yes" or "no", with a confidence and a
    threshold that are numbers, the check passes exactly when the verdict is
    "yes" and the confidence is at least the threshold; otherwise it throws
    an error whose message contains the specification, the verdict, the
    confidence and the threshold as percentages to one decimal place, and
    the path of the screenshot. *)
Theorem vibeCheck_decision
    (specification path : string) (v : LLMResponse) (c t : Q) :
  verdict v = "yes" ∨ verdict v = "no" →
  confidence v = Fin c →
  let decision := vibeCheck_assert specification v (Some (Fin t)) path in
  let pass := verdict v = "yes" ∧ (t <= c)%Q in
  (decision = Return {| response := v; screenshotPath := path |} ↔ pass)
  ∧ (¬ pass →
     ∃ message,
       decision = Throw (Err message)
       ∧ Str.contains message specification
       ∧ Str.contains message ("Verdict: " +:+ verdict v)
       ∧ Str.contains message
           ("Confidence: " +:+ percent (Fin c) +:+ "% (threshold: "
            +:+ percent (Fin t) +:+ "%)")
       ∧ Str.contains message path).
Proof.
  intros Hverdict Hc decision pass.
  assert (Hmessage :
    let message := buildFailureMessage specification v (Fin t) path in
    Str.contains message specification
    ∧ Str.contains message ("Verdict: " +:+ verdict v)
    ∧ Str.contains message
        ("Confidence: " +:+ percent (Fin c) +:+ "% (threshold: "
         +:+ percent (Fin t) +:+ "%)")
    ∧ Str.contains message path).
  { intros message. subst message. rewrite <- Hc. repeat split.
    - eapply contains_trans;
        [apply buildFailureMessage_lines; left; reflexivity|].
      apply contains_app_r, contains_app_r, contains_app_l, contains_refl.
    - apply buildFailureMessage_lines. right. left. reflexivity.
    - apply buildFailureMessage_lines. right. right. left. reflexivity.
    - eapply contains_trans;
        [apply buildFailureMessage_lines; do 3 right; left; reflexivity|].
      apply contains_app_r, contains_refl. }
  subst decision pass. unfold vibeCheck_assert. simpl default. rewrite Hc.
  destruct Hverdict as [Hyes | Hno].
  - rewrite Hyes in *.
    replace (String.eqb "yes" "no") with false by reflexivity. cbn [orb].
    destruct (Num.lt (Fin c) (Fin t)) eqn:Hlt.
    + assert (¬ (t <= c)%Q) as Hnot.
      { intros Hle. apply num_lt_fin in Hle. congruence. }
      split; [split; [intros ?; discriminate | tauto]|].
      intros _. eexists. split; [reflexivity | exact Hmessage].
    + apply num_lt_fin in Hlt.
      split; [split; [now split | reflexivity]|].
      intros Hnot. exfalso. apply Hnot. now split.
  - rewrite Hno in *.
    replace (String.eqb "no" "no") with true by reflexivity. cbn [orb].
    split; [split; [intros ?; discriminate | intros [? _]; discriminate]|].
    intros _. eexists. split; [reflexivity | exact Hmessage].
Qed.

End DecisionProperties.

(** *** The reference rendering of percentages *)

Lemma pretty_N_small (n : N) :
  (n < 10)%N → pretty n = String (pretty_N_char n) "".
Proof.
  intros Hn. unfold pretty, pretty_N.
  destruct (decide (n = 0%N)) as [->|Hpos]; [reflexivity|].
  rewrite pretty_N_go_step by lia.
  now rewrite N.div_small, N.mod_small by assumption.
Qed.

(** [toFixed1] writes an optional sign, the digits of the whole part, a
    point and one digit. *)
Lemma toFixed1_shape (q : Q) :
  ∃ sign whole tenth,
    Reference.toFixed1 q = sign +:+ whole +:+ "." +:+ String tenth ""
    ∧ (sign = "" ∨ sign = "-")
    ∧ Str.is_digits whole = true
    ∧ Str.is_digit tenth = true.
Proof.
  unfold Reference.toFixed1.
  set (n := Z.to_N (Qfloor _)).
  exists (if negb (Qle_bool 0 q) then "-" else ""), (pretty (n / 10)%N),
         (pretty_N_char (n mod 10)).
  rewrite (pretty_N_small (n mod 10)) by (apply N.mod_lt; lia).
  repeat split.
  - destruct (negb (Qle_bool 0 q)); auto.
  - apply pretty_N_is_digits.
  - apply all_digits_char.
Qed.

Example percent_text_samples :
  Reference.percent_text (Fin (19 # 20)) = "95.0"
  ∧ Reference.percent_text (Fin (7 # 10)) = "70.0"
  ∧ Reference.percent_text (Fin (1 # 3)) = "33.3"
  ∧ Reference.percent_text (Fin 1) = "100.0"
  ∧ Reference.percent_text NaN = "NaN".
Proof. repeat split; vm_compute; reflexivity. Qed.

(** The scenario "confidence 0.7, default threshold 0.8, verdict yes": the
    check fails on the threshold. *)
Lemma vibeCheck_decision_witness :
  let v := {| verdict := "yes"; confidence := Fin (7 # 10);
              failReason := None; reasoning := Some "Moderate match";
              suggestions := None; rawResponse := None |} in
  (verdict v = "yes" ∨ verdict v = "no")
  ∧ confidence v = Fin (7 # 10)
  ∧ ∃ message,
      vibeCheck_assert (H := Reference.platform) "A page" v
        (Some (Fin (4 # 5))) "test-results/vibe-screenshots/a-page-1.png"
      = Throw (Err message)
      ∧ Str.contains message "Confidence: 70.0% (threshold: 80.0%)".
Proof.
  intros v.
  split; [left; reflexivity|]. split; [reflexivity|].
  destruct (vibeCheck_decision (H := Reference.platform) "A page"
              "test-results/vibe-screenshots/a-page-1.png" v (7 # 10) (4 # 5))
    as [_ Hfail]; [left; reflexivity | reflexivity |].
  destruct Hfail as (message & Hthrow & _ & _ & Hpercent & _).
  { intros [_ Hle]. vm_compute in Hle. apply Hle. reflexivity. }
  exists message. split; [exact Hthrow | exact Hpercent].
Defined.

(** The scenarios of the mocked end-to-end tests. *)
Example vibeCheck_fails_on_verdict_no :
  ∃ message,
    vibeCheck_assert (H := Reference.platform) "A page with a submit button"
      {| verdict := "no"; confidence := Fin (9 # 10);
         failReason := Some "Expected button not found";
         reasoning := Some "The UI does not match";
         suggestions := None; rawResponse := None |}
      (Some (Fin (4 # 5))) "shots/page.png"
    = Throw (Err message)
    ∧ Str.contains message "Fail Reason: Expected button not found".
Proof.
  eexists. split; [reflexivity|].
  now apply (buildFailureMessage_failReason (H := Reference.platform)).
Qed.

Example vibeCheck_respects_custom_threshold :
  let result := {| verdict := "yes"; confidence := Fin (3 # 5);
                   failReason := None; reasoning := Some "Moderate match";
                   suggestions := None; rawResponse := None |} in
  vibeCheck_assert (H := Reference.platform) "A webpage" result
    (Some (Fin (1 # 2))) "shots/page.png"
  = Return {| response := result; screenshotPath := "shots/page.png" |}.
Proof. reflexivity. Qed.

(** ** Provider configuration (base-provider.ts) *)

Lemma or_else_falsy (x : option number) (d : number) :
  falsy x = true → Num.or_else x d = d.
Proof.
  destruct x as [n|]; [|reflexivity]. simpl. unfold Num.or_else.
  now destruct (Num.truthy n).
Qed.

Lemma or_else_truthy (x : option number) (d : number) :
  Num.truthy d = true → Num.truthy (Num.or_else x d) = true.
Proof.
  intros Hd. unfold Num.or_else. destruct x as [n|]; [|exact Hd].
  now destruct (Num.truthy n) eqn:Hn.
Qed.

(** C10: validation replaces a falsy [defaultConfidenceThreshold],
    [defaultMaxRetries] or [temperature], zero included, by 0.8, 3 and 0.3;
    a validated configuration never holds zero in these fields. *)
Theorem validateConfig_zero_not_expressible
    (b : Backend) (environment : gmap string string)
    (config : LLMProviderConfig) :
  let validated := validateConfig b environment config in
  (falsy (defaultConfidenceThreshold config) = true →
   defaultConfidenceThreshold validated = Some (Fin (4 # 5)))
  ∧ (falsy (defaultMaxRetries config) = true →
     defaultMaxRetries validated = Some (Fin 3))
  ∧ (falsy (temperature config) = true →
     temperature validated = Some (Fin (3 # 10)))
  ∧ falsy (defaultConfidenceThreshold validated) = false
  ∧ falsy (defaultMaxRetries validated) = false
  ∧ falsy (temperature validated) = false.
Proof.
  simpl. repeat split.
  1-3: intros Hf; f_equal; now apply or_else_falsy.
  all: apply negb_false_iff, or_else_truthy; reflexivity.
Qed.

(** A configuration that sets the three numbers to zero gets the defaults. *)
Lemma validateConfig_zero_witness :
  let config := {| apiKey := Some "test-key"; apiKeyEnvVar := None;
                   defaultConfidenceThreshold := Some (Fin 0);
                   defaultMaxRetries := Some (Fin 0);
                   model := None; maxTokens := None;
                   temperature := Some (Fin 0) |} in
  let validated := validateConfig OpenAI ∅ config in
  falsy (defaultConfidenceThreshold config) = true
  ∧ falsy (defaultMaxRetries config) = true
  ∧ falsy (temperature config) = true
  ∧ defaultConfidenceThreshold validated = Some (Fin (4 # 5))
  ∧ defaultMaxRetries validated = Some (Fin 3)
  ∧ temperature validated = Some (Fin (3 # 10)).
Proof.
  intros config validated.
  destruct (validateConfig_zero_not_expressible OpenAI ∅ config)
    as (Hthreshold & Hretries & Htemperature & _).
  split; [reflexivity|]. split; [reflexivity|]. split; [reflexivity|].
  split; [apply Hthreshold; reflexivity|].
  split; [apply Hretries | apply Htemperature]; reflexivity.
Defined.

(** ** The registry (providers/index.ts) *)

Module RegistryProperties.
Import LLMService.

Section Registry.
Context {Provider : Type}.
Implicit Types (s : LLMService.t Provider) (provider : Provider).

(** A map of size one holds one key. *)
Lemma size_one_key (m : gmap string Provider) (i j : string) :
  size m = 1 → is_Some (m !! i) → is_Some (m !! j) → i = j.
Proof.
  intros Hsize [x Hi] [y Hj].
  destruct (decide (i = j)) as [|Hne]; [assumption|exfalso].
  pose proof (map_size_delete_Some i m (mk_is_Some _ _ Hi)) as Hdel.
  rewrite Hsize in Hdel. simpl in Hdel.
  apply map_size_empty_inv in Hdel.
  assert (delete i m !! j = Some y) as Hj' by now rewrite lookup_delete_ne.
  rewrite Hdel, lookup_empty in Hj'. discriminate.
Qed.

(** Once a provider is registered there is a default, and it is the name
    of a registered provider; before, there is none. *)
Lemma reachable_default s :
  reachable s →
  (providers s = ∅ ∧ defaultProviderName s = None)
  ∨ (∃ d, defaultProviderName s = Some d ∧ is_Some (providers s !! d)).
Proof.
  induction 1 as [|name provider isDefault s Hs IH|name s s' Hs IH Hset].
  - left. now split.
  - right. unfold registerProvider. simpl.
    destruct (isDefault || bool_decide (size (<[name:=provider]> (providers s)) = 1))
      eqn:Hcond.
    + exists name. split; [reflexivity|]. rewrite lookup_insert_eq. eauto.
    + apply orb_false_iff in Hcond as [_ Hsize].
      apply bool_decide_eq_false in Hsize.
      destruct IH as [[Hempty _] | (d & Hd & Hin)].
      * exfalso. apply Hsize. rewrite Hempty.
        rewrite insert_empty. apply map_size_singleton.
      * exists d. split; [assumption|].
        apply lookup_insert_is_Some. destruct (decide (name = d)); auto.
  - right. unfold setDefaultProvider in Hset.
    destruct (providers s !! name) as [provider|] eqn:Hlookup; [|discriminate].
    injection Hset as <-. simpl. exists name. split; [reflexivity|].
    rewrite Hlookup. eauto.
Qed.

(** A registration that does not ask to be the default leaves the default
    of a service that has providers. *)
Lemma registerProvider_keeps_default s (name : string) provider :
  reachable s → providers s ≠ ∅ →
  defaultProviderName (registerProvider name provider false s)
  = defaultProviderName s.
Proof.
  intros Hs Hne. unfold registerProvider. simpl.
  case_bool_decide as Hsize; [|reflexivity].
  destruct (reachable_default s Hs) as [[Hempty _] | (d & Hd & Hin)];
    [contradiction|].
  rewrite Hd. f_equal.
  apply (size_one_key (<[name:=provider]> (providers s))); [assumption|..].
  - rewrite lookup_insert_eq. eauto.
  - apply lookup_insert_is_Some. destruct (decide (name = d)); auto.
Qed.

Lemma getProvider_named s (x : string) :
  x ≠ "" →
  getProvider (Some x) s
  = match providers s !! x with
    | Some provider => Return provider
    | None => Throw (Err ("Provider " +:+ dquote +:+ x +:+ dquote
                          +:+ " not found"))
    end.
Proof.
  intros Hx. unfold getProvider.
  destruct x as [|c x]; [contradiction|]. reflexivity.
Qed.

(** C7: the first registration becomes the default even with [isDefault]
    false, and is what a lookup without a name returns; a lookup without a
    name on a new service fails; a lookup by a name returns the provider
    registered under it; a lookup of an unregistered name fails; setting an
    unregistered name as default fails; a later registration changes the
    default only when [isDefault] is true, and [setDefaultProvider] of a
    registered name changes it.  A name is a non-empty string. *)
Theorem registry_contract :
  (∀ name provider,
     defaultProviderName (registerProvider name provider false new) = Some name)
  ∧ (∀ name provider, name ≠ "" →
       getProvider None (registerProvider name provider false new)
       = Return provider)
  ∧ getProvider None (new (Provider := Provider))
    = Throw (Err "No provider specified and no default provider set")
  ∧ (∀ s x provider isDefault, x ≠ "" →
       getProvider (Some x) (registerProvider x provider isDefault s)
       = Return provider)
  ∧ (∀ s x, x ≠ "" → providers s !! x = None →
       getProvider (Some x) s
       = Throw (Err ("Provider " +:+ dquote +:+ x +:+ dquote +:+ " not found")))
  ∧ (∀ s x, providers s !! x = None →
       setDefaultProvider x s
       = Throw (Err ("Provider " +:+ dquote +:+ x +:+ dquote
                     +:+ " not registered")))
  ∧ (∀ s name provider, reachable s → providers s ≠ ∅ →
       defaultProviderName (registerProvider name provider false s)
       = defaultProviderName s)
  ∧ (∀ s name provider,
       defaultProviderName (registerProvider name provider true s) = Some name)
  ∧ (∀ s x provider, providers s !! x = Some provider →
       setDefaultProvider x s
       = Return {| providers := providers s; defaultProviderName := Some x |}).
Proof.
  repeat apply conj.
  - intros name provider. unfold registerProvider, new. simpl.
    rewrite insert_empty, map_size_singleton. reflexivity.
  - intros name provider Hname. unfold getProvider, registerProvider, new.
    simpl. rewrite insert_empty, map_size_singleton. simpl.
    destruct name as [|c name]; [contradiction|]. simpl.
    now rewrite lookup_singleton_eq.
  - reflexivity.
  - intros s x provider isDefault Hx. rewrite getProvider_named by assumption.
    unfold registerProvider. simpl. now rewrite lookup_insert_eq.
  - intros s x Hx Hnone. rewrite getProvider_named by assumption.
    now rewrite Hnone.
  - intros s x Hnone. unfold setDefaultProvider. now rewrite Hnone.
  - intros s name provider. apply registerProvider_keeps_default.
  - reflexivity.
  - intros s x provider Hsome. unfold setDefaultProvider. now rewrite Hsome.
Qed.

End Registry.
End RegistryProperties.

(** Two providers, as in the repository's unit test: the second registration
    keeps the first default, and [setDefaultProvider] moves it. *)
Lemma registry_contract_witness :
  let s1 := LLMService.registerProvider "openai" 1%nat false LLMService.new in
  let s2 := LLMService.registerProvider "anthropic" 2%nat false s1 in
  LLMService.reachable s1
  ∧ LLMService.providers s1 ≠ ∅
  ∧ LLMService.providers s2 !! "custom" = None
  ∧ LLMService.defaultProviderName s2 = Some "openai"
  ∧ LLMService.getProvider None s2 = Return 1%nat
  ∧ LLMService.getProvider (Some "anthropic") s2 = Return 2%nat
  ∧ LLMService.setDefaultProvider "custom" s2
    = Throw (Err ("Provider " +:+ dquote +:+ "custom" +:+ dquote
                  +:+ " not registered")).
Proof.
  intros s1 s2.
  pose proof (RegistryProperties.registry_contract (Provider := nat))
    as (Hfirst & _ & _ & Hnamed & _ & Hunknown & Hkeep & _).
  assert (LLMService.reachable s1) as Hreach1
    by (apply LLMService.reachable_register, LLMService.reachable_new).
  assert (LLMService.providers s1 ≠ ∅) as Hne1.
  { intros Hempty.
    assert (LLMService.providers s1 !! "openai" = None) as Hlookup
      by (rewrite Hempty; apply lookup_empty).
    vm_compute in Hlookup. discriminate. }
  assert (LLMService.providers s2 !! "custom" = None) as Hcustom
    by (vm_compute; reflexivity).
  assert (LLMService.defaultProviderName s2 = Some "openai") as Hdefault.
  { unfold s2. rewrite (Hkeep s1 "anthropic" 2%nat Hreach1 Hne1).
    apply Hfirst. }
  repeat apply conj; try assumption.
  - vm_compute. reflexivity.
  - apply Hnamed. discriminate.
  - apply Hunknown. exact Hcustom.
Defined.

(** ** The retry loop (base-provider.ts) *)

Lemma num_le_Z (a b : Z) : Num.le (Num.of_Z a) (Num.of_Z b) = (a <=? b)%Z.
Proof.
  unfold Num.le, Num.of_Z. apply eq_true_iff_eq.
  rewrite Qle_bool_iff, <- Zle_Qle. symmetry. apply Z.leb_le.
Qed.

Lemma num_ge_Z (a b : Z) : Num.ge (Num.of_Z a) (Num.of_Z b) = (b <=? a)%Z.
Proof. apply num_le_Z. Qed.

Lemma waits_nil (first : Z) : waits first 0 = [].
Proof. reflexivity. Qed.

Lemma waits_cons (first : Z) (count : nat) :
  waits first (S count) = backoff first :: waits (first + 1) count.
Proof.
  unfold waits. rewrite seqZ_cons by lia. rewrite fmap_cons.
  do 3 f_equal; lia.
Qed.

Section RetryLoop.
Variable providerName : string.
Variable internal : M Runtime.LLMResponse.

(** When the calls from [attempt] up to the limit [n] all throw, the loop
    makes every one of them, waits in between, and throws what the last
    call threw. *)
Lemma attempts_exhausted (n : Z) (r : nat) :
  ∀ (fuel : nat) (attempt : Z) (lastError : option Error) (made : nat)
    (waited : list Z) (w : World) (e : Error),
  Z.of_nat r = (n - attempt)%Z →
  r < fuel →
  (∀ k, k < r → throws_at internal k w) →
  fst (internal (after internal r w)) = Throw e →
  attempts providerName fuel internal (Num.of_Z n) attempt lastError made waited w
  = Some {| outcome := Throw e; calls := made + S r;
            delays := waited ++ waits attempt r;
            final := after internal (S r) w |}.
Proof.
  induction r as [|r IH]; intros fuel attempt lastError made waited w e
    Hr Hfuel Hbefore Hlast;
    (destruct fuel as [|fuel]; [lia|]); cbn [attempts].
  - rewrite num_le_Z, num_ge_Z.
    replace (attempt <=? n)%Z with true by (symmetry; apply Z.leb_le; lia).
    replace (n <=? attempt)%Z with true by (symmetry; apply Z.leb_le; lia).
    simpl in Hlast. simpl after.
    destruct (internal w) as [[result|error] w']; simpl in *; [discriminate|].
    injection Hlast as ->.
    rewrite waits_nil, app_nil_r. do 2 f_equal. lia.
  - rewrite num_le_Z, num_ge_Z.
    replace (attempt <=? n)%Z with true by (symmetry; apply Z.leb_le; lia).
    replace (n <=? attempt)%Z with false by (symmetry; apply Z.leb_gt; lia).
    destruct (Hbefore 0%nat ltac:(lia)) as [e0 He0]. simpl in He0.
    change (after internal (S (S r)) w)
      with (after internal (S r) (snd (internal w))).
    change (after internal (S r) w)
      with (after internal r (snd (internal w))) in Hlast.
    destruct (internal w) as [[result|error] w'] eqn:Hcall; simpl in *;
      [discriminate|].
    rewrite (IH fuel (attempt + 1)%Z (Some error) (S made)
               (waited ++ [backoff attempt]) w' e); [|lia|lia| |assumption].
    + rewrite waits_cons, <- app_assoc. simpl. do 2 f_equal. lia.
    + intros k Hk. destruct (Hbefore (S k) ltac:(lia)) as [ek Hek].
      exists ek. simpl in Hek. rewrite Hcall in Hek. exact Hek.
Qed.

(** When a call returns after [j] calls that threw, the loop stops there
    and returns its result. *)
Lemma attempts_returned (n : Z) (j : nat) :
  ∀ (fuel : nat) (attempt : Z) (lastError : option Error) (made : nat)
    (waited : list Z) (w : World) (result : Runtime.LLMResponse),
  (attempt + Z.of_nat j <= n)%Z →
  j < fuel →
  (∀ k, k < j → throws_at internal k w) →
  fst (internal (after internal j w)) = Return result →
  attempts providerName fuel internal (Num.of_Z n) attempt lastError made waited w
  = Some {| outcome := Return result; calls := made + S j;
            delays := waited ++ waits attempt j;
            final := after internal (S j) w |}.
Proof.
  induction j as [|j IH]; intros fuel attempt lastError made waited w result
    Hj Hfuel Hbefore Hlast;
    (destruct fuel as [|fuel]; [lia|]); cbn [attempts].
  - rewrite num_le_Z.
    replace (attempt <=? n)%Z with true by (symmetry; apply Z.leb_le; lia).
    simpl in Hlast. simpl after.
    destruct (internal w) as [[result'|error] w']; simpl in *; [|discriminate].
    injection Hlast as ->.
    rewrite waits_nil, app_nil_r. do 2 f_equal. lia.
  - rewrite num_le_Z, num_ge_Z.
    replace (attempt <=? n)%Z with true by (symmetry; apply Z.leb_le; lia).
    replace (n <=? attempt)%Z with false by (symmetry; apply Z.leb_gt; lia).
    destruct (Hbefore 0%nat ltac:(lia)) as [e0 He0]. simpl in He0.
    change (after internal (S (S j)) w)
      with (after internal (S j) (snd (internal w))).
    change (after internal (S j) w)
      with (after internal j (snd (internal w))) in Hlast.
    destruct (internal w) as [[result'|error] w'] eqn:Hcall; simpl in *;
      [discriminate|].
    rewrite (IH fuel (attempt + 1)%Z (Some error) (S made)
               (waited ++ [backoff attempt]) w' result); [|lia|lia| |assumption].
    + rewrite waits_cons, <- app_assoc. simpl. do 2 f_equal. lia.
    + intros k Hk. destruct (Hbefore (S k) ltac:(lia)) as [ek Hek].
      exists ek. simpl in Hek. rewrite Hcall in Hek. exact Hek.
Qed.

(** The loop ends within its budget, whatever the limit and the calls do. *)
Lemma attempts_total (limit : number) :
  ∀ (fuel : nat) (attempt : Z) (lastError : option Error) (made : nat)
    (waited : list Z) (w : World),
  match limit with
  | Fin q => (Z.to_nat (Qfloor q - attempt + 1) < fuel)%nat
  | NaN => (0 < fuel)%nat
  end →
  is_Some (attempts providerName fuel internal limit attempt lastError made
                    waited w).
Proof.
  induction fuel as [|fuel IH]; intros attempt lastError made waited w Hfuel.
  { destruct limit; lia. }
  cbn [attempts].
  destruct (Num.le (Num.of_Z attempt) limit) eqn:Hle; [|eauto].
  destruct (internal w) as [[result|error] w']; [eauto|].
  destruct (Num.ge (Num.of_Z attempt) limit); [eauto|].
  apply IH. destruct limit as [|q]; [discriminate|].
  unfold Num.le, Num.of_Z in Hle. apply Qle_bool_iff, Qfloor_resp_le in Hle.
  rewrite Qfloor_Z in Hle. lia.
Qed.

End RetryLoop.

Lemma attemptLimit_positive (merged : EvaluateOptions) (n : nat) :
  (1 ≤ n)%nat →
  read (maxRetries merged) = Some (Num.of_Z (Z.of_nat n)) →
  attemptLimit merged = Num.of_Z (Z.of_nat n).
Proof.
  intros Hn Hread. unfold attemptLimit. rewrite Hread. unfold Num.or_else.
  replace (Num.truthy (Num.of_Z (Z.of_nat n))) with true; [reflexivity|].
  symmetry. unfold Num.truthy, Num.of_Z, Qeq_bool. simpl.
  apply negb_true_iff, Z.eqb_neq. lia.
Qed.

Lemma budget_Z (n : nat) : budget (Num.of_Z (Z.of_nat n)) = S n.
Proof. unfold budget, Num.of_Z. now rewrite Qfloor_Z, Nat2Z.id. Qed.

Section EvaluateScreenshot.
Variable providerName : string.
Variable config : LLMProviderConfig.
Variable internal : string → string → EvaluateOptions → M Runtime.LLMResponse.

(** [evaluateScreenshot] returns or throws: the loop never runs out of
    fuel. *)
Lemma evaluateScreenshot_total
    (path specification : string) (options : option EvaluateOptions)
    (w : World) :
  is_Some (evaluateScreenshot providerName config internal path specification
                              options w).
Proof.
  unfold evaluateScreenshot. destruct (pathExists path w); simpl; [|eauto].
  apply attempts_total. unfold budget.
  destruct (attemptLimit (mergedOptions config options)); lia.
Qed.

(** With [maxRetries] a positive integer, the loop runs on that limit with
    a budget that is enough. *)
Lemma evaluateScreenshot_loop
    (path specification : string) (options : option EvaluateOptions)
    (w : World) (n : nat) :
  pathExists path w = true →
  (1 ≤ n)%nat →
  read (maxRetries (mergedOptions config options))
  = Some (Num.of_Z (Z.of_nat n)) →
  evaluateScreenshot providerName config internal path specification options w
  = attempts providerName (S n)
      (internal path specification (mergedOptions config options))
      (Num.of_Z (Z.of_nat n)) 1 None 0 [] w.
Proof.
  intros Hexists Hn Hretries. unfold evaluateScreenshot.
  rewrite Hexists. simpl negb. cbv iota zeta.
  now rewrite (attemptLimit_positive _ n Hn Hretries), budget_Z.
Qed.

(** Every call throws: [n] calls, then the last error. *)
Lemma evaluateScreenshot_exhausted
    (path specification : string) (options : option EvaluateOptions)
    (w : World) (m : nat) (e : Error) :
  let call := internal path specification (mergedOptions config options) in
  pathExists path w = true →
  read (maxRetries (mergedOptions config options))
  = Some (Num.of_Z (Z.of_nat (S m))) →
  (∀ k, (k < m)%nat → throws_at call k w) →
  fst (call (after call m w)) = Throw e →
  evaluateScreenshot providerName config internal path specification options w
  = Some {| outcome := Throw e; calls := S m; delays := waits 1 m;
            final := after call (S m) w |}.
Proof.
  intros call Hexists Hretries Hbefore Hlast.
  rewrite (evaluateScreenshot_loop path specification options w (S m))
    by (assumption || lia).
  fold call.
  rewrite (attempts_exhausted providerName call (Z.of_nat (S m)) m
             (S (S m)) 1 None 0 [] w e);
    [reflexivity|lia|lia|assumption|assumption].
Qed.

(** A call returns after [k] calls that threw: [k + 1] calls, then its
    result. *)
Lemma evaluateScreenshot_returned
    (path specification : string) (options : option EvaluateOptions)
    (w : World) (n k : nat) (result : Runtime.LLMResponse) :
  let call := internal path specification (mergedOptions config options) in
  pathExists path w = true →
  (k < n)%nat →
  read (maxRetries (mergedOptions config options))
  = Some (Num.of_Z (Z.of_nat n)) →
  (∀ i, (i < k)%nat → throws_at call i w) →
  fst (call (after call k w)) = Return result →
  evaluateScreenshot providerName config internal path specification options w
  = Some {| outcome := Return result; calls := S k; delays := waits 1 k;
            final := after call (S k) w |}.
Proof.
  intros call Hexists Hk Hretries Hbefore Hlast.
  rewrite (evaluateScreenshot_loop path specification options w n)
    by (assumption || lia).
  fold call.
  rewrite (attempts_returned providerName call (Z.of_nat n) k
             (S n) 1 None 0 [] w result);
    [reflexivity|lia|lia|assumption|assumption].
Qed.

(** C3: with [maxRetries] a positive integer [n] and the screenshot in
    place, when every call of the adapter throws, [evaluateScreenshot]
    makes exactly [n] calls and throws what the last of them threw; when
    the call after [k < n] failed calls returns, it makes no further call
    and returns that result. *)
Theorem evaluateScreenshot_attempts
    (path specification : string) (options : option EvaluateOptions)
    (w : World) (n : nat) :
  pathExists path w = true →
  (1 ≤ n)%nat →
  read (maxRetries (mergedOptions config options))
  = Some (Num.of_Z (Z.of_nat n)) →
  let call := internal path specification (mergedOptions config options) in
  let run :=
    evaluateScreenshot providerName config internal path specification
                       options w in
  ((∀ k, (k < n)%nat → throws_at call k w) →
   ∃ e, fst (call (after call (n - 1) w)) = Throw e
        ∧ run = Some {| outcome := Throw e; calls := n;
                        delays := waits 1 (n - 1);
                        final := after call n w |})
  ∧ (∀ k result,
       (k < n)%nat →
       (∀ i, (i < k)%nat → throws_at call i w) →
       fst (call (after call k w)) = Return result →
       run = Some {| outcome := Return result; calls := S k;
                     delays := waits 1 k;
                     final := after call (S k) w |}).
Proof.
  intros Hexists Hn Hretries call run. split.
  - intros Hfail. destruct n as [|m]; [lia|].
    replace (S m - 1)%nat with m by lia.
    destruct (Hfail m ltac:(lia)) as [e He].
    exists e. split; [exact He|].
    apply evaluateScreenshot_exhausted; try assumption.
    intros k Hk. apply Hfail. lia.
  - intros k result Hk Hbefore Hreturn.
    now apply evaluateScreenshot_returned with n.
Qed.

End EvaluateScreenshot.

(** ** The adapters (openai-provider.ts, anthropic-provider.ts) *)

Lemma after_unchanged {A} (m : M A) (w : World) (k : nat) :
  snd (m w) = w → after m k w = w.
Proof. intros Hsame. induction k as [|k IH]; simpl; [reflexivity|]. now rewrite Hsame. Qed.

(** Validation finds no key where the configuration names none and the
    variable it designates is unset. *)
Lemma validateConfig_no_key
    (b : Backend) (environment : gmap string string) (raw : LLMProviderConfig) :
  nonempty (apiKey raw) = None →
  (∀ variable, nonempty (apiKeyEnvVar raw) = Some variable →
               nonempty (environment !! variable) = None) →
  nonempty (apiKey (validateConfig b environment raw)) = None.
Proof.
  intros Hkey Hvariable. unfold validateConfig, validateConfig_base. simpl.
  rewrite Hkey. destruct (nonempty (apiKeyEnvVar raw)) as [variable|] eqn:Hname.
  - now rewrite (Hvariable variable eq_refl).
  - exact Hkey.
Qed.

Section AdapterProperties.
Context `{Platform}.
Variable b : Backend.

(** Without a key the adapter throws before it sends a request: the world
    is as it was. *)
Lemma evaluateScreenshotInternal_no_key
    (config : LLMProviderConfig) (path specification image : string)
    (options : EvaluateOptions) (w : World) :
  files w !! path = Some image → image ≠ "" →
  nonempty (apiKey config) = None →
  nonempty (env w !! API_KEY b) = None →
  evaluateScreenshotInternal b config path specification options w
  = (Throw (no_key_error b), w).
Proof.
  intros Hfile Himage Hkey Henv.
  unfold evaluateScreenshotInternal, bind, readFileAsBase64.
  rewrite Hfile. destruct image as [|c image]; [contradiction|].
  replace (String.eqb (String c image) "") with false by reflexivity.
  rewrite Hkey. unfold getApiKey, getEnv. cbn beta iota.
  rewrite Henv. reflexivity.
Qed.

(** C4, amended: without a key in the configuration, in the variable the
    configuration designates and in the backend's variable, every call of
    the adapter throws before any request is sent, and the retry loop
    treats this error like any other: with [maxRetries] a positive integer
    [n] it makes [n] calls, waits between them, and throws the error of
    the last. *)
Theorem missing_credential_is_retried
    (environment : gmap string string) (raw : LLMProviderConfig)
    (path specification image : string) (options : option EvaluateOptions)
    (w : World) (n : nat) :
  let config := validateConfig b environment raw in
  nonempty (apiKey raw) = None →
  (∀ variable, nonempty (apiKeyEnvVar raw) = Some variable →
               nonempty (environment !! variable) = None) →
  nonempty (env w !! API_KEY b) = None →
  files w !! path = Some image → image ≠ "" →
  (1 ≤ n)%nat →
  read (maxRetries (mergedOptions config options))
  = Some (Num.of_Z (Z.of_nat n)) →
  provider_evaluateScreenshot b config path specification options w
  = Some {| outcome := Throw (no_key_error b); calls := n;
            delays := waits 1 (n - 1); final := w |}.
Proof.
  intros config Hraw Hvariable Henv Hfile Himage Hn Hretries.
  pose proof (validateConfig_no_key b environment raw Hraw Hvariable) as Hkey.
  fold config in Hkey.
  assert (Hcall : ∀ o,
    evaluateScreenshotInternal b config path specification o w
    = (Throw (no_key_error b), w))
    by (intros o; now apply evaluateScreenshotInternal_no_key with image).
  assert (Hexists : pathExists path w = true).
  { unfold pathExists. rewrite Hfile. reflexivity. }
  destruct n as [|m]; [lia|]. replace (S m - 1)%nat with m by lia.
  unfold provider_evaluateScreenshot.
  rewrite (evaluateScreenshot_exhausted (name b) config
             (evaluateScreenshotInternal b config) path specification options
             w m (no_key_error b) Hexists Hretries).
  - now rewrite after_unchanged by now rewrite Hcall.
  - intros k _. exists (no_key_error b).
    rewrite after_unchanged by now rewrite Hcall. now rewrite Hcall.
  - rewrite after_unchanged by now rewrite Hcall. now rewrite Hcall.
Qed.

(** *** Normalization *)

(** A reply that [JSON.parse] rejects becomes a failing response that
    quotes the reply; nothing is thrown. *)
Lemma normalize_unparsable
    (options : EvaluateOptions) (data : json) (content : string) :
  JSON_parse (default content (jsonMatch content)) = None →
  normalize b options data content
  = Return (degraded ("Error parsing response: " +:+ content)
              (if default false (read (includeRawResponse options))
               then Some (rawOf b data content) else None)).
Proof.
  intros Hparse. unfold normalize, resultJson. rewrite Hparse. reflexivity.
Qed.

(** A parsed value without a [confidence] member, object or array, becomes
    a failing response. *)
Lemma toResponse_without_confidence (parsed : json) (raw : jsval) :
  has_key "confidence" parsed = Return false →
  toResponse parsed raw
  = Return (degraded ("Invalid response format: " +:+ JSON_stringify parsed) raw).
Proof. intros Hkey. unfold toResponse. now rewrite Hkey. Qed.

(** A parsed value that is no object and no array makes [in] throw. *)
Lemma toResponse_primitive (parsed : json) (raw : jsval) :
  match parsed with JObject _ | JArray _ => False | _ => True end →
  toResponse parsed raw = Throw (TypeError_in "confidence" parsed).
Proof. intros Hprimitive. unfold toResponse. destruct parsed; easy. Qed.

(** The fields of the response built from an object with a [confidence]
    member. *)
Lemma toResponse_object (ms : list (string * json)) (raw : jsval) (c : json) :
  Js.assoc "confidence" ms = Some c →
  toResponse (JObject ms) raw
  = Return
      {| Runtime.confidence := Some c;
         Runtime.reasoning :=
           Js.or_else (Js.assoc "reasoning" ms) (JString "No reasoning provided");
         Runtime.verdict := Js.or_else (Js.assoc "verdict" ms) (JString "no");
         Runtime.failReason := Js.assoc "failReason" ms;
         Runtime.suggestions := Js.assoc "suggestions" ms;
         Runtime.rawResponse := raw |}.
Proof.
  intros Hc. unfold toResponse, has_key, Js.get. rewrite Hc. reflexivity.
Qed.

(** What the adapters do with the [confidence] of a parsed reply: without
    the member the response is a failing one with confidence 0; a member
    that is present is returned as it is, whatever its value and its type.
    The adapters check neither the range from 0.0 to 1.0 that
    [LLMResponse] documents nor that the value is a number. *)
Theorem confidence_is_passed_through (ms : list (string * json)) (raw : jsval) :
  (Js.assoc "confidence" ms = None →
   toResponse (JObject ms) raw
   = Return (degraded ("Invalid response format: "
                       +:+ JSON_stringify (JObject ms)) raw))
  ∧ (∀ c, Js.assoc "confidence" ms = Some c →
          ∃ r, toResponse (JObject ms) raw = Return r
               ∧ Runtime.confidence r = Some c).
Proof.
  split.
  - intros Hnone. apply toResponse_without_confidence.
    unfold has_key. now rewrite Hnone.
  - intros c Hc. eexists. split; [exact (toResponse_object ms raw c Hc)|reflexivity].
Qed.

(** The verdict of the response: "yes" stays, a missing or falsy verdict
    becomes "no", any other value stays as it is. *)
Lemma toResponse_verdict (ms : list (string * json)) (raw : jsval) (c : json) :
  Js.assoc "confidence" ms = Some c →
  ∃ r, toResponse (JObject ms) raw = Return r
       ∧ Runtime.verdict r
         = if Js.truthy (Js.assoc "verdict" ms)
           then Js.assoc "verdict" ms else Some (JString "no").
Proof.
  intros Hc. eexists. split; [exact (toResponse_object ms raw c Hc)|reflexivity].
Qed.

End AdapterProperties.

(** ** Replies that cannot be used *)

Section UnusableReplies.
Context `{Platform}.
Variable b : Backend.

(** With a screenshot and a key, a success response is normalized; one
    request has been sent. *)
Lemma evaluateScreenshotInternal_reply
    (config : LLMProviderConfig) (path specification image key : string)
    (options : EvaluateOptions) (w : World) (data : json) (content : string) :
  files w !! path = Some image → image ≠ "" →
  nonempty (apiKey config) = Some key →
  network w (requests w) = Reply data content →
  evaluateScreenshotInternal b config path specification options w
  = (normalize b options data content,
     {| files := files w; env := env w; network := network w;
        requests := S (requests w) |}).
Proof.
  intros Hfile Himage Hkey Hreply.
  unfold evaluateScreenshotInternal, bind, readFileAsBase64.
  rewrite Hfile. destruct image as [|c image]; [contradiction|].
  replace (String.eqb (String c image) "") with false by reflexivity.
  rewrite Hkey. unfold ret, fetch. cbn beta iota. rewrite Hreply. reflexivity.
Qed.

(** X19: a reply that [JSON.parse] rejects ends the evaluation at the
    first call: the failing response is returned, nothing is thrown, and
    there is no second call. *)
Lemma unparsable_reply_is_not_retried
    (config : LLMProviderConfig) (path specification image key : string)
    (options : option EvaluateOptions) (w : World) (n : nat)
    (data : json) (content : string) :
  files w !! path = Some image → image ≠ "" →
  nonempty (apiKey config) = Some key →
  network w (requests w) = Reply data content →
  JSON_parse (default content (jsonMatch content)) = None →
  (1 ≤ n)%nat →
  read (maxRetries (mergedOptions config options))
  = Some (Num.of_Z (Z.of_nat n)) →
  ∃ raw,
    provider_evaluateScreenshot b config path specification options w
    = Some {| outcome :=
                Return (degraded ("Error parsing response: " +:+ content) raw);
              calls := 1; delays := [];
              final := {| files := files w; env := env w;
                          network := network w;
                          requests := S (requests w) |} |}.
Proof.
  intros Hfile Himage Hkey Hreply Hparse Hn Hretries.
  assert (Hexists : pathExists path w = true).
  { unfold pathExists. rewrite Hfile. reflexivity. }
  pose proof (evaluateScreenshotInternal_reply config path specification image
                key (mergedOptions config options) w data content
                Hfile Himage Hkey Hreply) as Hcall.
  rewrite (normalize_unparsable b _ data content Hparse) in Hcall.
  eexists. unfold provider_evaluateScreenshot.
  erewrite evaluateScreenshot_returned with (n := n) (k := 0%nat);
    try eassumption.
  - simpl after. rewrite Hcall. reflexivity.
  - intros i Hi. lia.
  - simpl after. rewrite Hcall. reflexivity.
Qed.

(** A reply that [JSON.parse] reads as a number, a string, a boolean or
    [null] makes the adapter throw. *)
Lemma primitive_reply_throws
    (options : EvaluateOptions) (data : json) (content : string) (parsed : json) :
  JSON_parse (default content (jsonMatch content)) = Some parsed →
  match parsed with JObject _ | JArray _ => False | _ => True end →
  normalize b options data content
  = Throw (TypeError_in "confidence" parsed).
Proof.
  intros Hparse Hprimitive. unfold normalize, resultJson. rewrite Hparse.
  now apply toResponse_primitive.
Qed.

End UnusableReplies.

(** ** The model on sample inputs *)

(** Three attempts against a network that never answers; and a third
    attempt that succeeds after two failures. *)
Lemma evaluateScreenshot_attempts_witness :
  let config := validateConfig OpenAI ∅ (Sample.config "sk-test") in
  let options := Some (Sample.options 3) in
  let call :=
    evaluateScreenshotInternal (H := Reference.platform) OpenAI config
      "shots/login.png" "A login form" (mergedOptions config options) in
  let down := Sample.world (NetworkError "ECONNREFUSED") in
  let flaky := Sample.flaky (Replies.reply "0.95" "yes") in
  pathExists "shots/login.png" down = true
  ∧ read (maxRetries (mergedOptions config options)) = Some (Num.of_Z 3)
  ∧ (∀ k, (k < 3)%nat → throws_at call k down)
  ∧ Sample.summary
      (provider_evaluateScreenshot (H := Reference.platform) OpenAI config
         "shots/login.png" "A login form" options down)
    = Some (Throw (Rejected "ECONNREFUSED"), 3%nat, [1000; 2000]%Z, 3%nat)
  ∧ ∃ result,
      Sample.summary
        (provider_evaluateScreenshot (H := Reference.platform) OpenAI config
           "shots/login.png" "A login form" options flaky)
      = Some (Return result, 3%nat, [1000; 2000]%Z, 3%nat)
      ∧ Runtime.verdict result = Some (JString "yes").
Proof.
  intros config options call down flaky.
  assert (Hdown : ∀ k, (k < 3)%nat → throws_at call k down).
  { intros k Hk. unfold throws_at.
    destruct k as [|[|[|k]]]; [..|lia];
      exists (Rejected "ECONNREFUSED"); vm_compute; reflexivity. }
  assert (Hflaky : ∀ k, (k < 2)%nat → throws_at call k flaky).
  { intros k Hk. unfold throws_at.
    destruct k as [|[|k]]; [..|lia];
      exists (Rejected "ECONNRESET"); vm_compute; reflexivity. }
  split; [vm_compute; reflexivity|]. split; [reflexivity|].
  split; [exact Hdown|].
  split.
  - destruct (evaluateScreenshot_attempts "OpenAI" config
                (evaluateScreenshotInternal (H := Reference.platform) OpenAI config)
                "shots/login.png" "A login form" options down 3)
      as [Hfail _]; [reflexivity|lia|reflexivity|].
    destruct (Hfail Hdown) as (e & He & Hrun).
    unfold provider_evaluateScreenshot. simpl name. rewrite Hrun.
    vm_compute in He. injection He as <-. vm_compute. reflexivity.
  - destruct (evaluateScreenshot_attempts "OpenAI" config
                (evaluateScreenshotInternal (H := Reference.platform) OpenAI config)
                "shots/login.png" "A login form" options flaky 3)
      as [_ Hreturn]; [reflexivity|lia|reflexivity|].
    pose (result := normalize (H := Reference.platform) OpenAI
                      (mergedOptions config options) JNull
                      (Replies.reply "0.95" "yes")).
    vm_compute in result.
    match eval unfold result in result with
    | Return ?r =>
        exists r; unfold provider_evaluateScreenshot; simpl name;
        rewrite (Hreturn 2%nat r ltac:(lia) Hflaky
                   ltac:(vm_compute; reflexivity))
    end.
    split; vm_compute; reflexivity.
Defined.

(** C4, as stated, fails: with no key anywhere and [maxRetries] 3, the
    adapter is called three times, with waits of one and two seconds, and
    no request is sent. *)
Lemma missing_credential_three_attempts :
  Sample.summary
    (provider_evaluateScreenshot (H := Reference.platform) OpenAI
       (validateConfig OpenAI ∅ Sample.keyless)
       "shots/login.png" "A login form" (Some (Sample.options 3))
       (Sample.world (NetworkError "ECONNREFUSED")))
  = Some (Throw (no_key_error OpenAI), 3%nat, [1000; 2000]%Z, 0%nat).
Proof. vm_compute. reflexivity. Qed.

(** The same for the other backend, with the default of three attempts
    that validation sets. *)
Lemma missing_credential_is_retried_witness :
  let w := Sample.world (NetworkError "ECONNREFUSED") in
  let config := validateConfig Anthropic ∅ Sample.keyless in
  nonempty (apiKey Sample.keyless) = None
  ∧ nonempty (env w !! API_KEY Anthropic) = None
  ∧ files w !! "shots/login.png" = Some "iVBORw0KGgo="
  ∧ read (maxRetries (mergedOptions config None)) = Some (Num.of_Z 3)
  ∧ provider_evaluateScreenshot (H := Reference.platform) Anthropic config
      "shots/login.png" "A login form" None w
    = Some {| outcome := Throw (no_key_error Anthropic); calls := 3;
              delays := waits 1 2; final := w |}.
Proof.
  intros w config.
  split; [reflexivity|]. split; [reflexivity|]. split; [reflexivity|].
  split; [reflexivity|].
  apply (missing_credential_is_retried (H := Reference.platform) Anthropic ∅
           Sample.keyless "shots/login.png" "A login form" "iVBORw0KGgo="
           None w 3).
  - reflexivity.
  - intros variable _. rewrite lookup_empty. reflexivity.
  - reflexivity.
  - reflexivity.
  - discriminate.
  - lia.
  - reflexivity.
Defined.

(** C5 at the reply text [42]: [JSON.parse] returns the number 42, the
    test ["confidence" in resultJson] throws a [TypeError], and the retry
    loop calls the adapter three times, sending three requests. *)
Theorem bare_number_reply_throws_and_is_retried :
  normalize (H := Reference.platform) OpenAI (Sample.options 3) JNull
    Replies.bare_number
  = Throw (TypeError_in "confidence" (JNumber (Fin 42)))
  ∧ Sample.summary
      (provider_evaluateScreenshot (H := Reference.platform) OpenAI
         (validateConfig OpenAI ∅ (Sample.config "sk-test"))
         "shots/login.png" "A login form" (Some (Sample.options 3))
         (Sample.world (Reply JNull Replies.bare_number)))
    = Some (Throw (TypeError_in "confidence" (JNumber (Fin 42))),
            3%nat, [1000; 2000]%Z, 3%nat).
Proof. split; vm_compute; reflexivity. Qed.

(** A reply that is not JSON, for comparison: one call, a failing response
    that quotes the reply, no retry. *)
Example prose_reply_is_not_retried :
  Sample.summary
    (provider_evaluateScreenshot (H := Reference.platform) Anthropic
       (validateConfig Anthropic ∅ (Sample.config "sk-ant-test"))
       "shots/login.png" "A login form" (Some (Sample.options 3))
       (Sample.world (Reply JNull Replies.prose)))
  = Some (Return (degraded "Error parsing response: I cannot judge this image."
                           None),
          1%nat, [], 1%nat).
Proof. vm_compute. reflexivity. Qed.

(** C2 at a reply whose verdict is "maybe": the response carries "maybe",
    and with confidence 0.9 against the threshold 0.8 the check passes. *)
Theorem undecided_verdict_passes_the_check :
  ∃ r t,
    normalize (H := Reference.platform) OpenAI (Sample.options 3) JNull
      Replies.undecided = Return r
    ∧ Runtime.verdict r = Some (JString "maybe")
    ∧ typed r = Some t
    ∧ vibeCheck_assert (H := Reference.platform) "A login form" t
        (Some (Fin (4 # 5))) "shots/login.png"
      = Return {| response := t; screenshotPath := "shots/login.png" |}.
Proof.
  do 2 eexists. split; [vm_compute; reflexivity|].
  split; [reflexivity|]. split; [vm_compute; reflexivity|].
  vm_compute. reflexivity.
Qed.

(** C6: the adapters do not validate the confidence.  A reply with
    confidence 1.5 is returned with confidence 1.5 and verdict "yes",
    outside the range from 0.0 to 1.0 that [LLMResponse] declares, and
    not as the failing response a reply without a confidence becomes. *)
Lemma overconfident_reply_is_returned :
  normalize (H := Reference.platform) OpenAI (Sample.options 3) JNull
    Replies.overconfident
  = Return {| Runtime.verdict := Some (JString "yes");
              Runtime.confidence := Some (JNumber (Fin (3 # 2)));
              Runtime.failReason := None;
              Runtime.reasoning := Some (JString "No reasoning provided");
              Runtime.suggestions := None;
              Runtime.rawResponse := None |}.
Proof. vm_compute. reflexivity. Qed.

(** A reply without a confidence, and a reply with the confidence -1. *)
Lemma confidence_is_passed_through_witness :
  let without := [("verdict", JString "yes")] in
  let negative := [("confidence", JNumber (Fin (-1))); ("verdict", JString "yes")] in
  Js.assoc "confidence" without = None
  ∧ Js.assoc "confidence" negative = Some (JNumber (Fin (-1)))
  ∧ toResponse (H := Reference.platform) (JObject without) None
    = Return (degraded ("Invalid response format: {" +:+ Replies.quoted "verdict"
                        +:+ ":" +:+ Replies.quoted "yes" +:+ "}") None)
  ∧ ∃ r, toResponse (H := Reference.platform) (JObject negative) None = Return r
         ∧ Runtime.confidence r = Some (JNumber (Fin (-1))).
Proof.
  intros without negative.
  split; [reflexivity|]. split; [reflexivity|].
  split.
  - apply (proj1 (confidence_is_passed_through (H := Reference.platform)
                    without None)).
    reflexivity.
  - apply (proj2 (confidence_is_passed_through (H := Reference.platform)
                    negative None)).
    reflexivity.
Defined.

(** ** Merging options (fixtures.ts, base-provider.ts) *)

Lemma spread_over_holding {A} (base : prop A) (v : option A) :
  spread_over base (holding v) = holding v.
Proof. now destruct v. Qed.

(** A fresh address holds nothing, and an object stored there leaves
    every object of the store where and as it was. *)
Lemma fresh_lookup (h : store) : h !! fresh (dom h) = None.
Proof. apply not_elem_of_dom, is_fresh. Qed.

Lemma insert_fresh_keep (h : store) (o x : object) (l : loc) :
  h !! l = Some x → <[fresh (dom h) := o]> h !! l = Some x.
Proof.
  intros Hl. rewrite lookup_insert_ne; [assumption|].
  intros Heq. rewrite <- Heq, fresh_lookup in Hl. discriminate.
Qed.

(** C8: in the options a check evaluates with, a value of the call wins
    over the value of the session, and the value of the session wins over
    the default of the provider, for [confidenceThreshold], [maxRetries]
    and [includeRawResponse], and key by key for [modelParameters]; the
    merged options are new objects, and every object that was in the
    store, the three sources among them, is unchanged. *)
Theorem check_mergedOptions_precedence
    (h : store) (options : option loc) (evaluation config : loc)
    (o : option VibeCheckOptions.t) (e : Evaluation.t) (c : LLMProviderConfig)
    (call session : gmap string jsval) :
  checkOptions_at options h = Some o →
  h !! evaluation = Some (SessionEvaluation e) →
  h !! config = Some (ProviderConfig c) →
  spread_parameters (o ≫= VibeCheckOptions.modelParameters) h = Some call →
  spread_parameters (Evaluation.modelParameters e) h = Some session →
  ∃ merged parameters h',
    check_mergedOptions options evaluation config h = Some (merged, h')
    ∧ h' !! merged
      = Some (Options
                {| confidenceThreshold :=
                     holding (nullish (o ≫= VibeCheckOptions.confidenceThreshold)
                                      (Evaluation.confidenceThreshold e));
                   modelParameters := Value parameters;
                   includeRawResponse :=
                     holding (nullish (o ≫= VibeCheckOptions.includeRawResponse)
                                      (Evaluation.includeRawResponse e));
                   maxRetries :=
                     holding (nullish (o ≫= VibeCheckOptions.maxRetries)
                                      (Evaluation.maxRetries e)) |})
    ∧ (∃ entries,
         h' !! parameters = Some (Parameters entries)
         ∧ (∀ k v, call !! k = Some v → entries !! k = Some v)
         ∧ (∀ k, call !! k = None → entries !! k = session !! k))
    ∧ h !! merged = None
    ∧ h !! parameters = None
    ∧ (∀ l x, h !! l = Some x → h' !! l = Some x).
Proof.
  intros Ho He Hc Hcall Hsession.
  unfold check_mergedOptions, vibeCheck_evaluationOptions, allocate.
  rewrite Ho, He. simpl. rewrite Hsession. simpl. rewrite Hcall. simpl.
  set (l1 := fresh (dom h)).
  set (h1 := <[l1 := Parameters (call ∪ session)]> h).
  set (l2 := fresh (dom h1)).
  match goal with
  | |- context [<[l2 := Options ?x]> h1] => set (evaluationOptions := x)
  end.
  set (h2 := <[l2 := Options evaluationOptions]> h1).
  assert (Hkeep : ∀ l x, h !! l = Some x → h2 !! l = Some x).
  { intros l x Hl. now apply insert_fresh_keep, insert_fresh_keep. }
  unfold evaluateScreenshot_mergedOptions, allocate.
  rewrite (Hkeep _ _ Hc). simpl.
  replace (h2 !! l2) with (Some (Options evaluationOptions))
    by (symmetry; apply lookup_insert_eq).
  simpl.
  set (l3 := fresh (dom h2)).
  match goal with
  | |- context [<[l3 := ?x]> h2] => set (h3 := <[l3 := x]> h2)
  end.
  exists l3, l1, h3. split; [reflexivity|].
  split; [|split; [|split; [|split]]].
  - unfold h3. rewrite lookup_insert_eq. unfold mergedOptions. simpl.
    now rewrite !spread_over_holding.
  - exists (call ∪ session). split; [|split].
    + apply insert_fresh_keep, insert_fresh_keep, lookup_insert_eq.
    + intros k v Hk. now apply lookup_union_Some_l.
    + intros k Hk. now apply lookup_union_r.
  - destruct (h !! l3) as [x|] eqn:Hl3; [|reflexivity].
    pose proof (Hkeep l3 x Hl3) as Hin.
    unfold l3 in Hin. rewrite fresh_lookup in Hin. discriminate.
  - apply fresh_lookup.
  - intros l x Hl. now apply insert_fresh_keep, Hkeep.
Qed.

(** A check with a threshold and a temperature of its own, on a session
    with defaults for everything, against a provider whose defaults
    differ. *)
Lemma check_mergedOptions_precedence_witness :
  ∃ merged parameters h' entries,
    check_mergedOptions (Some 4%positive) 2%positive 5%positive
      SampleStore.objects = Some (merged, h')
    ∧ h' !! merged
      = Some (Options
                {| confidenceThreshold := Value (Fin (1 # 2));
                   modelParameters := Value parameters;
                   includeRawResponse := Value false;
                   maxRetries := Value (Fin 2) |})
    ∧ h' !! parameters = Some (Parameters entries)
    ∧ entries !! "temperature" = Some (Some (JNumber (Fin 0)))
    ∧ entries !! "seed" = Some (Some (JNumber (Fin 7)))
    ∧ h' !! 2%positive = Some SampleStore.session
    ∧ h' !! 4%positive = Some SampleStore.call
    ∧ h' !! 5%positive = Some SampleStore.backend.
Proof.
  destruct (check_mergedOptions_precedence SampleStore.objects
              (Some 4%positive) 2%positive 5%positive
              (Some {| VibeCheckOptions.name := Some "btn";
                       VibeCheckOptions.provider := None;
                       VibeCheckOptions.confidenceThreshold := Some (Fin (1 # 2));
                       VibeCheckOptions.includeRawResponse := None;
                       VibeCheckOptions.maxRetries := None;
                       VibeCheckOptions.modelParameters := Some 3%positive |})
              {| Evaluation.confidenceThreshold := Some (Fin (4 # 5));
                 Evaluation.includeRawResponse := Some false;
                 Evaluation.maxRetries := Some (Fin 2);
                 Evaluation.modelParameters := Some 1%positive |}
              (validateConfig OpenAI ∅ (Sample.config "sk-test"))
              {[ "temperature" := Some (JNumber (Fin 0)) ]}
              {[ "temperature" := Some (JNumber (Fin (1 # 10)));
                 "seed" := Some (JNumber (Fin 7)) ]})
    as (merged & parameters & h' & Hrun & Hmerged & Hparameters & _ & _ & Hkeep);
    try (vm_compute; reflexivity).
  destruct Hparameters as (entries & Hentries & Hcall & Hsession).
  exists merged, parameters, h', entries.
  split; [exact Hrun|]. split; [exact Hmerged|]. split; [exact Hentries|].
  split; [apply Hcall; vm_compute; reflexivity|].
  split; [rewrite Hsession; vm_compute; reflexivity|].
  split; [|split]; apply Hkeep; vm_compute; reflexivity.
Defined.

(** * Further properties of the code *)

(** ** Artifact names, for every title (fs-utils.ts) *)

Lemma length_app_string (s t : string) :
  String.length (s +:+ t) = (String.length s + String.length t)%nat.
Proof.
  induction s as [|c s IH]; [reflexivity|].
  rewrite app_cons. simpl. now rewrite IH.
Qed.

Lemma length_take (n : nat) (s : string) : (String.length (Str.take n s) ≤ n)%nat.
Proof.
  revert s. induction n as [|n IH]; intros [|c s]; simpl; try lia.
  specialize (IH s). lia.
Qed.

Lemma take_all (n : nat) (s : string) :
  (String.length s ≤ n)%nat → Str.take n s = s.
Proof.
  revert s. induction n as [|n IH]; intros [|c s] Hlen; simpl in *;
    try reflexivity; try lia.
  f_equal. apply IH. lia.
Qed.

Lemma length_replace_non_alnum (s : string) :
  String.length (replace_non_alnum s) = String.length s.
Proof. induction s as [|c s IH]; simpl; [reflexivity|]. now rewrite IH. Qed.

Lemma length_collapse_hyphens (s : string) :
  (String.length (collapse_hyphens s) ≤ String.length s)%nat.
Proof.
  induction s as [|c s IH]; [reflexivity|].
  rewrite collapse_hyphens_cons.
  destruct (Ascii.eqb c "-"); [destruct s as [|d s]|]; simpl in *; try lia.
  destruct (Ascii.eqb d "-"); simpl in *; lia.
Qed.

Lemma replace_non_alnum_clean (s : string) :
  Str.all Str.is_alnum s = true → replace_non_alnum s = s.
Proof.
  induction s as [|c s IH]; [reflexivity|].
  simpl. intros [Hc Hs]%andb_true_iff. now rewrite Hc, IH.
Qed.

Lemma alnum_not_hyphen (c : ascii) :
  Str.is_alnum c = true → Ascii.eqb c "-" = false.
Proof.
  intros Hc. destruct (Ascii.eqb c "-") eqn:Heq; [|reflexivity].
  apply Ascii.eqb_eq in Heq. subst c. discriminate.
Qed.

Lemma collapse_hyphens_clean (s : string) :
  Str.all Str.is_alnum s = true → collapse_hyphens s = s.
Proof.
  induction s as [|c s IH]; [reflexivity|].
  intros Hall. change (Str.is_alnum c && Str.all Str.is_alnum s = true) in Hall.
  apply andb_true_iff in Hall as [Hc Hs].
  rewrite collapse_hyphens_cons, (alnum_not_hyphen c Hc). now rewrite IH.
Qed.

(** X2: two names generated for the same title and custom name at
    different timestamps differ. *)
Theorem generateScreenshotName_distinct_timestamps
    (t1 t2 : N) (testTitle : string) (customName : option string) :
  t1 ≠ t2 →
  generateScreenshotName t1 testTitle customName
  ≠ generateScreenshotName t2 testTitle customName.
Proof.
  intros Hne Heq. apply Hne. unfold generateScreenshotName in Heq.
  destruct customName as [[|c name]|];
    repeat apply (inj (String.app _)) in Heq;
    exact (inj pretty _ _ Heq).
Qed.

Lemma generateScreenshotName_distinct_timestamps_witness :
  (1700000000000 ≠ 1700000000001)%N
  ∧ generateScreenshotName 1700000000000 "my test" (Some "btn")
    ≠ generateScreenshotName 1700000000001 "my test" (Some "btn").
Proof.
  split; [discriminate|].
  apply generateScreenshotName_distinct_timestamps. discriminate.
Defined.

(** X3: a title of at most 50 letters and digits is kept as it is: the
    name is the title, a hyphen and the timestamp. *)
Theorem generateScreenshotName_keeps_clean_title
    (timestamp : N) (testTitle : string) :
  Str.all Str.is_alnum testTitle = true →
  (String.length testTitle ≤ 50)%nat →
  generateScreenshotName timestamp testTitle None
  = testTitle +:+ "-" +:+ pretty timestamp.
Proof.
  intros Hclean Hlen. unfold generateScreenshotName.
  rewrite (replace_non_alnum_clean _ Hclean), (collapse_hyphens_clean _ Hclean).
  now rewrite take_all.
Qed.

Lemma generateScreenshotName_keeps_clean_title_witness :
  Str.all Str.is_alnum "LoginForm2" = true
  ∧ (String.length "LoginForm2" ≤ 50)%nat
  ∧ generateScreenshotName 42 "LoginForm2" None = "LoginForm2-42".
Proof.
  split; [reflexivity|]. split; [simpl; lia|].
  apply (generateScreenshotName_keeps_clean_title 42 "LoginForm2");
    [reflexivity | simpl; lia].
Defined.

(** X4: the title contributes at most 50 characters to the name, and the
    custom name at most its own length: the name is never longer than
    that, the joining hyphens and the digits of the timestamp. *)
Theorem generateScreenshotName_length
    (timestamp : N) (testTitle : string) (customName : option string) :
  (String.length (generateScreenshotName timestamp testTitle customName)
   ≤ 50 + String.length (default "" customName) + 2
     + String.length (pretty timestamp))%nat.
Proof.
  unfold generateScreenshotName.
  pose proof (length_take 50 (collapse_hyphens (replace_non_alnum testTitle)))
    as Htitle.
  set (title := Str.take 50 _) in *. set (digits := pretty timestamp).
  destruct customName as [[|c name]|]; cbn [default from_option id].
  - rewrite !length_app_string. cbn [String.length]. lia.
  - rewrite !length_app_string.
    pose proof (length_collapse_hyphens (replace_non_alnum (String c name)))
      as Hcustom.
    rewrite length_replace_non_alnum in Hcustom.
    set (custom := collapse_hyphens (replace_non_alnum (String c name))) in *.
    change (String.length "-") with 1%nat. lia.
  - rewrite !length_app_string. cbn [String.length]. lia.
Qed.


(** ** The decision, for every verdict and threshold (fixtures.ts) *)

Section DecisionOutcomes.
Context `{Platform}.

Lemma num_lt_nan_l (b : number) : Num.lt NaN b = false.
Proof. reflexivity. Qed.

Lemma num_lt_nan_r (a : number) : Num.lt a NaN = false.
Proof. now destruct a. Qed.

(** X5: what the check returns is the judge's response with the path of
    the screenshot, and it returns only for a verdict other than "no" and
    a confidence that is not below the threshold in force (0.8 when none
    is given). *)
Theorem vibeCheck_assert_returned
    (specification path : string) (v : LLMResponse)
    (confidenceThreshold : option number) (r : VibeCheckResult) :
  vibeCheck_assert specification v confidenceThreshold path = Return r →
  r = {| response := v; screenshotPath := path |}
  ∧ verdict v ≠ "no"
  ∧ ∀ c t,
      confidence v = Fin c →
      default (Fin (4 # 5)) confidenceThreshold = Fin t →
      (t <= c)%Q.
Proof.
  unfold vibeCheck_assert.
  destruct (String.eqb (verdict v) "no") eqn:Hverdict; [discriminate|].
  destruct (Num.lt _ _) eqn:Hlt; [discriminate|]. cbn [orb].
  intros [= <-]. split; [reflexivity|]. split.
  - now apply String.eqb_neq.
  - intros c t Hc Ht. rewrite Hc, Ht in Hlt. now apply num_lt_fin.
Qed.

(** X6: lowering the threshold never turns a passing check into a
    failing one. *)
Theorem vibeCheck_assert_lower_threshold
    (specification path : string) (v : LLMResponse) (t t' : Q)
    (r : VibeCheckResult) :
  (t' <= t)%Q →
  vibeCheck_assert specification v (Some (Fin t)) path = Return r →
  vibeCheck_assert specification v (Some (Fin t')) path = Return r.
Proof.
  unfold vibeCheck_assert. cbn [default from_option id].
  intros Hle.
  destruct (String.eqb (verdict v) "no"); [discriminate|]. cbn [orb].
  destruct (confidence v) as [|c]; [now rewrite !num_lt_nan_l|].
  destruct (Num.lt (Fin c) (Fin t)) eqn:Hlt; [discriminate|].
  apply num_lt_fin in Hlt.
  assert (Num.lt (Fin c) (Fin t') = false) as ->
    by (apply num_lt_fin; now apply Qle_trans with t).
  trivial.
Qed.

(** X7: a confidence or a threshold that is not a number never fails the
    confidence test: with a verdict other than "no" the check passes. *)
Theorem vibeCheck_assert_nan
    (specification path : string) (v : LLMResponse)
    (confidenceThreshold : option number) :
  verdict v ≠ "no" →
  confidence v = NaN ∨ confidenceThreshold = Some NaN →
  vibeCheck_assert specification v confidenceThreshold path
  = Return {| response := v; screenshotPath := path |}.
Proof.
  intros Hverdict Hnan. unfold vibeCheck_assert.
  apply String.eqb_neq in Hverdict. rewrite Hverdict. cbn [orb].
  destruct Hnan as [-> | ->]; cbn [default from_option id];
    now rewrite ?num_lt_nan_l, ?num_lt_nan_r.
Qed.

(** X8: the failure message has a line for the reasoning and one for the
    reason of the failure when they are given and not empty, and one
    bullet line for each suggestion. *)
Theorem buildFailureMessage_optional_parts
    (specification : string) (result : LLMResponse) (threshold : number)
    (path : string) :
  let message := buildFailureMessage specification result threshold path in
  (∀ why, nonempty (reasoning result) = Some why →
     Str.contains message ("Reasoning: " +:+ why))
  ∧ (∀ why, nonempty (failReason result) = Some why →
     Str.contains message ("Fail Reason: " +:+ why))
  ∧ (∀ l s, suggestions result = Some l → In s l →
     Str.contains message ("Suggestions:")
     ∧ Str.contains message ("  - " +:+ s)).
Proof.
  cbn zeta. unfold buildFailureMessage. split; [|split].
  - intros why ->. apply join_contains. apply in_or_app. left.
    destruct (nonempty (failReason result));
      destruct (suggestions result) as [[|? ?]|];
      repeat (apply in_or_app; (left + (right; simpl; tauto))); simpl; tauto.
  - intros why ->. apply join_contains. apply in_or_app. left.
    destruct (nonempty (reasoning result));
      destruct (suggestions result) as [[|? ?]|];
      repeat (apply in_or_app; (left + (right; simpl; tauto))); simpl; tauto.
  - intros l s Hl Hin. rewrite Hl. destruct l as [|x l]; [destruct Hin|].
    split; apply join_contains, in_or_app; left; apply in_or_app.
    + left. apply in_or_app. right. simpl. tauto.
    + right. apply in_map_iff. now exists s.
Qed.

End DecisionOutcomes.


Lemma vibeCheck_assert_returned_witness :
  let v := {| verdict := "yes"; confidence := Fin (19 # 20);
              failReason := None; reasoning := Some "Good match";
              suggestions := None; rawResponse := None |} in
  let r := {| response := v; screenshotPath := "shots/page.png" |} in
  vibeCheck_assert (H := Reference.platform) "A page" v None "shots/page.png"
  = Return r
  ∧ verdict v ≠ "no"
  ∧ (4 # 5 <= 19 # 20)%Q.
Proof.
  intros v r.
  destruct (vibeCheck_assert_returned (H := Reference.platform)
              "A page" "shots/page.png" v None r eq_refl)
    as (_ & Hverdict & Hle).
  split; [reflexivity|]. split; [exact Hverdict|].
  exact (Hle (19 # 20) (4 # 5) eq_refl eq_refl).
Defined.

Lemma vibeCheck_assert_lower_threshold_witness :
  let v := {| verdict := "yes"; confidence := Fin (7 # 10);
              failReason := None; reasoning := None;
              suggestions := None; rawResponse := None |} in
  let r := {| response := v; screenshotPath := "shots/page.png" |} in
  (1 # 2 <= 3 # 5)%Q
  ∧ vibeCheck_assert (H := Reference.platform) "A page" v
      (Some (Fin (3 # 5))) "shots/page.png" = Return r
  ∧ vibeCheck_assert (H := Reference.platform) "A page" v
      (Some (Fin (1 # 2))) "shots/page.png" = Return r.
Proof.
  intros v r.
  assert (Hle : (1 # 2 <= 3 # 5)%Q) by (unfold Qle; simpl; lia).
  split; [exact Hle|]. split; [reflexivity|].
  exact (vibeCheck_assert_lower_threshold (H := Reference.platform)
           "A page" "shots/page.png" v (3 # 5) (1 # 2) r Hle eq_refl).
Defined.

Lemma vibeCheck_assert_nan_witness :
  let v := {| verdict := "yes"; confidence := Fin (1 # 10);
              failReason := None; reasoning := None;
              suggestions := None; rawResponse := None |} in
  verdict v ≠ "no"
  ∧ vibeCheck_assert (H := Reference.platform) "A page" v (Some NaN)
      "shots/page.png"
    = Return {| response := v; screenshotPath := "shots/page.png" |}.
Proof.
  intros v.
  assert (Hverdict : verdict v ≠ "no") by discriminate.
  split; [exact Hverdict|].
  exact (vibeCheck_assert_nan (H := Reference.platform)
           "A page" "shots/page.png" v (Some NaN) Hverdict
           (or_intror eq_refl)).
Defined.


(** ** Provider configuration and retries, in general (base-provider.ts) *)

Lemma or_else_idempotent (x : option number) (d : number) :
  Num.or_else (Some (Num.or_else x d)) d = Num.or_else x d.
Proof.
  unfold Num.or_else. destruct x as [n|]; [|now destruct (Num.truthy d)].
  destruct (Num.truthy n) eqn:Hn; [now rewrite Hn | now destruct (Num.truthy d)].
Qed.

(** X9: validating a validated configuration changes nothing: the key
    taken from the environment, the defaults and the model stay. *)
Theorem validateConfig_idempotent
    (b : Backend) (environment : gmap string string)
    (config : LLMProviderConfig) :
  validateConfig b environment (validateConfig b environment config)
  = validateConfig b environment config.
Proof.
  unfold validateConfig, validateConfig_base. cbn [apiKey apiKeyEnvVar
    defaultConfidenceThreshold defaultMaxRetries model maxTokens temperature].
  rewrite !or_else_idempotent. f_equal.
  - destruct (nonempty (apiKey config)) as [k|] eqn:Hkey;
      [now rewrite Hkey|].
    destruct (nonempty (apiKeyEnvVar config)) as [variable|] eqn:Hvar;
      [|now rewrite Hkey].
    now destruct (nonempty (Some _)).
  - f_equal. destruct (model config) as [[|c m]|]; cbn [nonempty default
      from_option id]; try reflexivity.
    now destruct (DEFAULT_MODEL b).
    now destruct (DEFAULT_MODEL b).
Qed.

Lemma attemptLimit_truthy
    (config : LLMProviderConfig) (options : option EvaluateOptions) :
  ∃ q, attemptLimit (mergedOptions config options) = Fin q ∧ ¬ (q == 0)%Q.
Proof.
  pose proof (or_else_truthy
                (read (maxRetries (mergedOptions config options))) (Fin 1)
                eq_refl) as Htruthy.
  fold (attemptLimit (mergedOptions config options)) in Htruthy.
  destruct (attemptLimit _) as [|q]; [discriminate|].
  exists q. split; [reflexivity|].
  intros Hzero. apply Qeq_bool_iff in Hzero.
  simpl in Htruthy. now rewrite Hzero in Htruthy.
Qed.

Lemma num_le_floor (attempt : Z) (q : Q) :
  Num.le (Num.of_Z attempt) (Fin q) = true ↔ (attempt <= Qfloor q)%Z.
Proof.
  unfold Num.le, Num.of_Z. rewrite Qle_bool_iff. split.
  - intros Hle. apply Qfloor_resp_le in Hle. now rewrite Qfloor_Z in Hle.
  - intros Hle. apply Qle_trans with (inject_Z (Qfloor q));
      [now rewrite <- Zle_Qle | apply Qfloor_le].
Qed.

Lemma waits_snoc (first : Z) (count : nat) (waited : list Z) :
  (waited ++ [backoff first]) ++ waits (first + 1) count
  = waited ++ waits first (S count).
Proof. now rewrite waits_cons, <- app_assoc. Qed.

Lemma length_waits (first : Z) (count : nat) :
  length (waits first count) = count.
Proof. unfold waits. rewrite length_fmap, length_seqZ. lia. Qed.

Lemma sum_waits (count : nat) (first : Z) :
  (1 <= first)%Z →
  foldr Z.add 0%Z (waits first count)
  = (1000 * 2 ^ (first - 1) * (2 ^ Z.of_nat count - 1))%Z.
Proof.
  revert first. induction count as [|count IH]; intros first Hfirst.
  - rewrite waits_nil. simpl. lia.
  - rewrite waits_cons. cbn [foldr]. rewrite IH by lia. unfold backoff.
    replace (first + 1 - 1)%Z with (Z.succ (first - 1)) by lia.
    rewrite Nat2Z.inj_succ, !Z.pow_succ_r by lia. lia.
Qed.

Section RetryBounds.
Variable providerName : string.
Variable internal : M Runtime.LLMResponse.

(** What the loop entered at [attempt] does: [made + j] calls in all, one
    wait after each failed call that is not the last allowed one. *)
Lemma attempts_bound (q : Q) :
  ∀ (fuel : nat) (attempt : Z) (lastError : option Error) (made : nat)
    (waited : list Z) (w : World) (run : Run),
  attempts providerName fuel internal (Fin q) attempt lastError made waited w
  = Some run →
  ∃ j d : nat,
    calls run = (made + j)%nat
    ∧ delays run = waited ++ waits attempt d
    ∧ (d ≤ j)%nat
    ∧ (j = 0%nat ∨ (attempt + Z.of_nat j - 1 <= Qfloor q)%Z)
    ∧ final run = after internal j w.
Proof.
  induction fuel as [|fuel IH];
    intros attempt lastError made waited w run Hrun; [discriminate|].
  cbn [attempts] in Hrun.
  destruct (Num.le (Num.of_Z attempt) (Fin q)) eqn:Hguard.
  - apply num_le_floor in Hguard.
    destruct (internal w) as [[result|error] w'] eqn:Hcall.
    + injection Hrun as <-. exists 1%nat, 0%nat. cbn [calls delays final after].
      rewrite Hcall, waits_nil, app_nil_r.
      repeat split; [lia | lia | right; lia].
    + destruct (Num.ge (Num.of_Z attempt) (Fin q)).
      * injection Hrun as <-. exists 1%nat, 0%nat.
        cbn [calls delays final after].
        rewrite Hcall, waits_nil, app_nil_r.
        repeat split; [lia | lia | right; lia].
      * apply IH in Hrun as (j & d & Hcalls & Hdelays & Hd & Hj & Hfinal).
        exists (S j), (S d). cbn [after]. rewrite Hcall. cbn [snd].
        rewrite waits_snoc in Hdelays.
        repeat split; [lia | assumption | lia | right; lia | assumption].
  - injection Hrun as <-. exists 0%nat, 0%nat. cbn [calls delays final after].
    rewrite waits_nil, app_nil_r. repeat split; [lia | lia | now left].
Qed.

End RetryBounds.


Section RetryEdges.
Variable providerName : string.
Variable config : LLMProviderConfig.
Variable internal : string → string → EvaluateOptions → M Runtime.LLMResponse.

(** X10: with a [maxRetries] that is a finite number, NaN or undefined,
    every evaluation ends, after at most ⌊limit⌋ calls of the adapter,
    where the limit is [maxRetries], or 1 when that is 0, NaN or
    undefined; it waits at most once per call, the k-th wait being
    1000·2^(k−1) ms; and the world it leaves is the one its calls left. *)
Theorem evaluateScreenshot_bounds
    (path specification : string) (options : option EvaluateOptions)
    (w : World) :
  let merged := mergedOptions config options in
  let call := internal path specification merged in
  ∃ run q,
    evaluateScreenshot providerName config internal path specification
                       options w = Some run
    ∧ attemptLimit merged = Fin q
    ∧ (Z.of_nat (calls run) <= Z.max 0 (Qfloor q))%Z
    ∧ (length (delays run) ≤ calls run)%nat
    ∧ delays run = waits 1 (length (delays run))
    ∧ final run = after call (calls run) w.
Proof.
  intros merged call.
  destruct (evaluateScreenshot_total providerName config internal path
              specification options w) as [run Hrun].
  destruct (attemptLimit_truthy config options) as (q & Hlimit & _).
  exists run, q. split; [exact Hrun|]. split; [exact Hlimit|].
  unfold evaluateScreenshot in Hrun.
  destruct (pathExists path w).
  - cbn [negb] in Hrun. cbv zeta in Hrun. fold merged in Hlimit.
    fold merged call in Hrun. rewrite Hlimit in Hrun.
    apply attempts_bound in Hrun as (j & d & Hcalls & Hdelays & Hd & Hj & Hfinal).
    cbn [app] in Hdelays. rewrite Hdelays, length_waits, Hcalls.
    repeat split; [lia | lia | assumption].
  - injection Hrun as <-. cbn [calls delays final length after].
    repeat split; lia.
Qed.

(** X11: a [maxRetries] that is 0, NaN or undefined after the merge means
    one attempt: the adapter is called once, nothing is waited for, and
    its result or its error is the result of the evaluation. *)
Theorem evaluateScreenshot_single_attempt
    (path specification : string) (options : option EvaluateOptions)
    (w : World) :
  let call := internal path specification (mergedOptions config options) in
  pathExists path w = true →
  falsy (read (maxRetries (mergedOptions config options))) = true →
  evaluateScreenshot providerName config internal path specification options w
  = Some {| outcome := fst (call w); calls := 1; delays := [];
            final := snd (call w) |}.
Proof.
  intros call Hexists Hfalsy. unfold evaluateScreenshot.
  rewrite Hexists. cbn [negb]. cbv zeta.
  unfold attemptLimit. rewrite (or_else_falsy _ _ Hfalsy). fold call.
  change (budget (Fin 1)) with 2%nat. cbn [attempts].
  change (Num.le (Num.of_Z 1) (Fin 1)) with true.
  change (Num.ge (Num.of_Z 1) (Fin 1)) with true. cbv iota.
  now destruct (call w) as [[result|error] w'].
Qed.

(** X12: a [maxRetries] below 1 that is not 0 (a negative number, a
    fraction) means no attempt at all: the adapter is never called and the
    evaluation throws "Unknown error evaluating screenshot with
    <provider>". *)
Theorem evaluateScreenshot_no_attempt
    (path specification : string) (options : option EvaluateOptions)
    (w : World) (q : Q) :
  pathExists path w = true →
  read (maxRetries (mergedOptions config options)) = Some (Fin q) →
  ¬ (q == 0)%Q →
  (q < 1)%Q →
  evaluateScreenshot providerName config internal path specification options w
  = Some {| outcome :=
              Throw (Err ("Unknown error evaluating screenshot with "
                          +:+ providerName));
            calls := 0; delays := []; final := w |}.
Proof.
  intros Hexists Hread Hnonzero Hbelow. unfold evaluateScreenshot.
  rewrite Hexists. cbn [negb]. cbv zeta.
  unfold attemptLimit. rewrite Hread. unfold Num.or_else, Num.truthy.
  replace (Qeq_bool q 0) with false
    by (symmetry; apply not_true_iff_false; now rewrite Qeq_bool_iff).
  cbn [negb]. unfold budget. cbn [attempts].
  assert (Num.le (Num.of_Z 1) (Fin q) = false) as ->; [|reflexivity].
  apply not_true_iff_false. rewrite num_le_floor. intros Hfloor.
  pose proof (Qfloor_le q) as Hq.
  assert (1 <= q)%Q as Hone.
  { apply Qle_trans with (inject_Z (Qfloor q)); [|exact Hq].
    change 1%Q with (inject_Z 1). now rewrite <- Zle_Qle. }
  exact (Qlt_not_le _ _ Hbelow Hone).
Qed.

(** X13: when all [n] allowed attempts fail, the evaluation has waited
    1000·(2^(n−1) − 1) ms in all before it throws: 1 s for two attempts,
    3 s for three. *)
Theorem evaluateScreenshot_total_wait
    (path specification : string) (options : option EvaluateOptions)
    (w : World) (m : nat) :
  let call := internal path specification (mergedOptions config options) in
  pathExists path w = true →
  read (maxRetries (mergedOptions config options))
  = Some (Num.of_Z (Z.of_nat (S m))) →
  (∀ k, (k < S m)%nat → throws_at call k w) →
  ∃ run e,
    evaluateScreenshot providerName config internal path specification
                       options w = Some run
    ∧ outcome run = Throw e
    ∧ calls run = S m
    ∧ foldr Z.add 0%Z (delays run) = (1000 * (2 ^ Z.of_nat m - 1))%Z.
Proof.
  intros call Hexists Hretries Hfail.
  destruct (Hfail m ltac:(lia)) as [e He].
  eexists _, e. split.
  - apply evaluateScreenshot_exhausted with (m := m) (e := e);
      [assumption | assumption | | assumption].
    intros k Hk. apply Hfail. lia.
  - cbn [outcome calls delays]. repeat split.
    rewrite sum_waits by lia. change (2 ^ (1 - 1))%Z with 1%Z. lia.
Qed.

End RetryEdges.


(** [maxRetries: 0] against a network that is down: one call, no wait. *)
Lemma evaluateScreenshot_single_attempt_witness :
  let config := validateConfig OpenAI ∅ (Sample.config "sk-test") in
  let options := Some (Sample.options 0) in
  let down := Sample.world (NetworkError "ECONNREFUSED") in
  pathExists "shots/login.png" down = true
  ∧ falsy (read (maxRetries (mergedOptions config options))) = true
  ∧ Sample.summary
      (provider_evaluateScreenshot (H := Reference.platform) OpenAI config
         "shots/login.png" "A login form" options down)
    = Some (Throw (Rejected "ECONNREFUSED"), 1%nat, [], 1%nat).
Proof.
  intros config options down.
  split; [vm_compute; reflexivity|]. split; [reflexivity|].
  unfold provider_evaluateScreenshot. simpl name.
  rewrite (evaluateScreenshot_single_attempt "OpenAI" config
             (evaluateScreenshotInternal (H := Reference.platform) OpenAI config)
             "shots/login.png" "A login form" options down
             ltac:(vm_compute; reflexivity) eq_refl).
  vm_compute. reflexivity.
Defined.

(** [maxRetries: -1]: no call, no request. *)
Lemma evaluateScreenshot_no_attempt_witness :
  let config := validateConfig OpenAI ∅ (Sample.config "sk-test") in
  let options := Some (Sample.options (-1)) in
  let world := Sample.world (Reply JNull (Replies.reply "0.95" "yes")) in
  pathExists "shots/login.png" world = true
  ∧ read (maxRetries (mergedOptions config options)) = Some (Fin (-1))
  ∧ ¬ (-1 == 0)%Q
  ∧ (-1 < 1)%Q
  ∧ Sample.summary
      (provider_evaluateScreenshot (H := Reference.platform) OpenAI config
         "shots/login.png" "A login form" options world)
    = Some (Throw (Err "Unknown error evaluating screenshot with OpenAI"),
            0%nat, [], 0%nat).
Proof.
  intros config options world.
  assert (Hnonzero : ¬ (-1 == 0)%Q) by (intros Heq; discriminate Heq).
  assert (Hbelow : (-1 < 1)%Q) by reflexivity.
  split; [vm_compute; reflexivity|]. split; [reflexivity|].
  split; [exact Hnonzero|]. split; [exact Hbelow|].
  unfold provider_evaluateScreenshot. simpl name.
  rewrite (evaluateScreenshot_no_attempt "OpenAI" config
             (evaluateScreenshotInternal (H := Reference.platform) OpenAI config)
             "shots/login.png" "A login form" options world (-1)
             ltac:(vm_compute; reflexivity) eq_refl Hnonzero Hbelow).
  reflexivity.
Defined.

(** Three attempts against a network that is down: three seconds of
    waiting. *)
Lemma evaluateScreenshot_total_wait_witness :
  let config := validateConfig OpenAI ∅ (Sample.config "sk-test") in
  let options := Some (Sample.options 3) in
  let call :=
    evaluateScreenshotInternal (H := Reference.platform) OpenAI config
      "shots/login.png" "A login form" (mergedOptions config options) in
  let down := Sample.world (NetworkError "ECONNREFUSED") in
  pathExists "shots/login.png" down = true
  ∧ read (maxRetries (mergedOptions config options)) = Some (Num.of_Z 3)
  ∧ (∀ k, (k < 3)%nat → throws_at call k down)
  ∧ ∃ run,
      provider_evaluateScreenshot (H := Reference.platform) OpenAI config
        "shots/login.png" "A login form" options down = Some run
      ∧ calls run = 3%nat
      ∧ foldr Z.add 0%Z (delays run) = 3000%Z.
Proof.
  intros config options call down.
  assert (Hdown : ∀ k, (k < 3)%nat → throws_at call k down).
  { intros k Hk. unfold throws_at.
    destruct k as [|[|[|k]]]; [..|lia];
      exists (Rejected "ECONNREFUSED"); vm_compute; reflexivity. }
  split; [vm_compute; reflexivity|]. split; [reflexivity|].
  split; [exact Hdown|].
  destruct (evaluateScreenshot_total_wait "OpenAI" config
              (evaluateScreenshotInternal (H := Reference.platform) OpenAI config)
              "shots/login.png" "A login form" options down 2
              ltac:(vm_compute; reflexivity) eq_refl Hdown)
    as (run & e & Hrun & _ & Hcalls & Hwait).
  exists run. split; [exact Hrun|]. split; [exact Hcalls | exact Hwait].
Defined.


(** ** The adapters, call by call *)

Section AdapterCalls.
Context `{Platform}.
Variable b : Backend.

Lemma evaluateScreenshotInternal_world
    (config : LLMProviderConfig) (path specification : string)
    (options : EvaluateOptions) (w : World) :
  snd (evaluateScreenshotInternal b config path specification options w)
  = if usable b config path w then requested w else w.
Proof.
  unfold evaluateScreenshotInternal, usable, bind, readFileAsBase64.
  destruct (files w !! path) as [[|c image]|]; [reflexivity| |reflexivity].
  replace (String.eqb (String c image) "") with false by reflexivity.
  destruct (nonempty (apiKey config)) as [k|].
  - unfold ret, fetch. cbn.
    now destruct (network w (requests w)).
  - unfold getApiKey, getEnv. cbn beta iota.
    destruct (nonempty (env w !! API_KEY b)) as [k|]; [|reflexivity].
    unfold fetch. cbn.
    now destruct (network w (requests w)).
Qed.

Lemma usable_requested
    (config : LLMProviderConfig) (path : string) (w : World) :
  usable b config path (requested w) = usable b config path w.
Proof. reflexivity. Qed.

Lemma after_requests
    (config : LLMProviderConfig) (path specification : string)
    (options : EvaluateOptions) (k : nat) (w : World) :
  let w' := after (evaluateScreenshotInternal b config path specification
                     options) k w in
  files w' = files w ∧ env w' = env w ∧ network w' = network w
  ∧ requests w'
    = (requests w + if usable b config path w then k else 0)%nat.
Proof.
  revert w. induction k as [|k IH]; intros w; cbn [after].
  - repeat split. destruct (usable b config path w); lia.
  - rewrite evaluateScreenshotInternal_world.
    destruct (usable b config path w) eqn:Husable.
    + destruct (IH (requested w)) as (Hfiles & Henv & Hnetwork & Hrequests).
      rewrite usable_requested, Husable in Hrequests.
      cbn zeta. rewrite Hfiles, Henv, Hnetwork, Hrequests.
      repeat split. cbn [requested requests]. lia.
    + destruct (IH w) as (Hfiles & Henv & Hnetwork & Hrequests).
      rewrite Husable in Hrequests. now repeat split.
Qed.

(** X14: one call of an adapter sends one request when the screenshot
    file has content and a key is found in the configuration or in the
    backend's environment variable, and none otherwise; it changes nothing
    else of the world. *)
Theorem evaluateScreenshotInternal_sends
    (config : LLMProviderConfig) (path specification : string)
    (options : EvaluateOptions) (w : World) :
  let w' :=
    snd (evaluateScreenshotInternal b config path specification options w) in
  files w' = files w ∧ env w' = env w ∧ network w' = network w
  ∧ requests w'
    = (requests w + if usable b config path w then 1 else 0)%nat.
Proof.
  exact (after_requests config path specification options 1 w).
Qed.

(** X15: an evaluation sends one request for each call of the adapter
    when file and key are there, and none at all otherwise, whatever the
    number of attempts; files and environment are as before. *)
Theorem provider_evaluateScreenshot_requests
    (config : LLMProviderConfig) (path specification : string)
    (options : option EvaluateOptions) (w : World) :
  ∃ run,
    provider_evaluateScreenshot b config path specification options w
    = Some run
    ∧ files (final run) = files w
    ∧ env (final run) = env w
    ∧ requests (final run)
      = (requests w + if usable b config path w then calls run else 0)%nat.
Proof.
  destruct (evaluateScreenshot_total (name b) config
              (evaluateScreenshotInternal b config) path specification
              options w) as [run Hrun].
  exists run. split; [exact Hrun|].
  unfold evaluateScreenshot in Hrun.
  destruct (pathExists path w).
  - cbn [negb] in Hrun. cbv zeta in Hrun.
    destruct (attemptLimit_truthy config options) as (q & Hlimit & _).
    rewrite Hlimit in Hrun.
    apply attempts_bound in Hrun as (j & d & Hcalls & _ & _ & _ & Hfinal).
    cbn [plus] in Hcalls. rewrite Hfinal, Hcalls.
    destruct (after_requests config path specification
                (mergedOptions config options) j w) as (? & ? & _ & ?).
    now repeat split.
  - injection Hrun as <-. cbn [final calls].
    repeat split. destruct (usable b config path w); lia.
Qed.

(** *** From the reply text to the response *)

Lemma truthy_or_else (v : jsval) (d : json) :
  Js.truthy (Some d) = true → Js.truthy (Js.or_else v d) = true.
Proof.
  intros Hd. unfold Js.or_else. now destruct (Js.truthy v) eqn:Hv.
Qed.

(** X16: normalization throws exactly when the text parses to a value
    that is no object and no array, and what it throws is the TypeError of
    the [in] operator; a text that does not parse, and an object or array
    of any shape, give a response. *)
Theorem normalize_throws
    (options : EvaluateOptions) (data : json) (content : string) (e : Error) :
  normalize b options data content = Throw e
  ↔ ∃ parsed,
      JSON_parse (default content (jsonMatch content)) = Some parsed
      ∧ primitive parsed
      ∧ e = TypeError_in "confidence" parsed.
Proof.
  unfold normalize, resultJson. split.
  - destruct (JSON_parse _) as [parsed|]; [|discriminate].
    intros Hthrow. exists parsed. split; [reflexivity|].
    unfold toResponse, has_key in Hthrow.
    destruct parsed as [| | | |items|ms]; cbn in *;
      try (injection Hthrow as <-; now split).
    + discriminate.
    + now destruct (bool_decide _).
  - intros (parsed & -> & Hprimitive & ->).
    now apply toResponse_primitive.
Qed.

(** X17: a response that normalization returns always has a confidence
    (a value of some type, never undefined) and a verdict and a reasoning
    that are truthy: a missing, empty or null verdict has become "no". *)
Theorem normalize_returns
    (options : EvaluateOptions) (data : json) (content : string)
    (r : Runtime.LLMResponse) :
  normalize b options data content = Return r →
  is_Some (Runtime.confidence r)
  ∧ Js.truthy (Runtime.verdict r) = true
  ∧ Js.truthy (Runtime.reasoning r) = true.
Proof.
  unfold normalize. generalize (resultJson content) as parsed.
  intros parsed. unfold toResponse, has_key.
  destruct parsed as [| | | |items|ms]; try discriminate.
  - intros [= <-]. cbn. repeat split; eauto.
  - destruct (Js.assoc "confidence" ms) as [c|] eqn:Hc.
    + rewrite bool_decide_eq_true_2 by eauto. intros [= <-].
      cbn [Runtime.confidence Runtime.verdict Runtime.reasoning Js.get].
      rewrite Hc. repeat split; [eauto|..]; now apply truthy_or_else.
    + rewrite bool_decide_eq_false_2 by (intros [? ?]; discriminate).
      intros [= <-]. cbn. repeat split; eauto.
Qed.

End AdapterCalls.

(** *** The text that is parsed *)

Lemma from_first_brace_app (pre rest : string) :
  free_of "{" pre = true →
  from_first_brace (pre +:+ "{" +:+ rest) = Some ("{" +:+ rest).
Proof.
  induction pre as [|c pre IH]; [reflexivity|].
  intros Hfree. unfold free_of in Hfree. cbn [Str.all] in Hfree.
  apply andb_true_iff in Hfree as [Hc Hpre].
  rewrite app_cons. cbn [from_first_brace].
  apply negb_true_iff in Hc. rewrite Hc. now apply IH.
Qed.

Lemma upto_last_brace_free (post : string) :
  free_of "}" post = true → upto_last_brace post = None.
Proof.
  induction post as [|c post IH]; [reflexivity|].
  intros Hfree. unfold free_of in Hfree. cbn [Str.all] in Hfree.
  apply andb_true_iff in Hfree as [Hc Hpost].
  cbn [upto_last_brace]. rewrite (IH Hpost).
  apply negb_true_iff in Hc. now rewrite Hc.
Qed.

Lemma upto_last_brace_app (s post : string) :
  free_of "}" post = true →
  upto_last_brace (s +:+ "}" +:+ post) = Some (s +:+ "}").
Proof.
  intros Hfree. induction s as [|c s IH].
  - change ("" +:+ "}" +:+ post) with (String "}" post).
    cbn [upto_last_brace]. now rewrite (upto_last_brace_free post Hfree).
  - change (String c s +:+ "}" +:+ post) with (String c (s +:+ "}" +:+ post)).
    change (String c s +:+ "}") with (String c (s +:+ "}")).
    cbn [upto_last_brace]. now rewrite IH.
Qed.

(** X18: prose around a JSON object is dropped: with no opening brace
    before it and no closing brace after it, the text from the first
    opening brace to the last closing brace is what is parsed, whatever
    lies between them; a text without braces is parsed as it is. *)
Theorem jsonMatch_strips_prose (pre body post : string) :
  free_of "{" pre = true →
  free_of "}" post = true →
  jsonMatch (pre +:+ "{" +:+ body +:+ "}" +:+ post)
  = Some ("{" +:+ body +:+ "}")
  ∧ ∀ text, free_of "{" text = true → jsonMatch text = None.
Proof.
  intros Hpre Hpost. split.
  - unfold jsonMatch. rewrite (from_first_brace_app pre _ Hpre).
    cbn [mbind option_bind].
    change ("{" +:+ body +:+ "}" +:+ post)
      with (String "{" (body +:+ "}" +:+ post)).
    change ("{" +:+ body +:+ "}") with (String "{" (body +:+ "}")).
    cbn [upto_last_brace]. now rewrite (upto_last_brace_app body post Hpost).
  - intros text Hnone. unfold jsonMatch.
    assert (from_first_brace text = None) as ->; [|reflexivity].
    induction text as [|c text IH]; [reflexivity|].
    unfold free_of in Hnone. cbn [Str.all] in Hnone.
    apply andb_true_iff in Hnone as [Hc Hrest].
    cbn [from_first_brace]. apply negb_true_iff in Hc. rewrite Hc.
    now apply IH.
Qed.

Lemma jsonMatch_strips_prose_witness :
  free_of "{" "Here is my assessment: " = true
  ∧ free_of "}" " Hope this helps." = true
  ∧ jsonMatch ("Here is my assessment: " +:+ "{" +:+ "{}, {}" +:+ "}"
               +:+ " Hope this helps.")
    = Some "{{}, {}}".
Proof.
  split; [reflexivity|]. split; [reflexivity|].
  exact (proj1 (jsonMatch_strips_prose "Here is my assessment: " "{}, {}"
                  " Hope this helps." eq_refl eq_refl)).
Defined.


(** ** From the reply to the decision *)

Lemma typed_fields (r : Runtime.LLMResponse) (t : LLMResponse) :
  typed r = Some t →
  Runtime.verdict r = Some (JString (verdict t))
  ∧ Runtime.confidence r = Some (JNumber (confidence t)).
Proof.
  unfold typed.
  destruct (Runtime.verdict r) as [[| | |v| |]|]; try discriminate.
  destruct (Runtime.confidence r) as [[| |c| | |]|]; try discriminate.
  destruct (optional_string (Runtime.failReason r)) as [why|];
    [|discriminate].
  destruct (optional_string (Runtime.reasoning r)) as [how|];
    [|discriminate].
  destruct (optional_strings (Runtime.suggestions r)) as [tips|];
    [|discriminate].
  cbn. now intros [= <-].
Qed.

Section ReplyToDecision.
Context `{Platform} `{Coercion}.
Variable b : Backend.

(** On a response whose fields have the declared types, the test of the
    check is the test of [vibeCheck_assert]. *)
Lemma vibeCheck_test_typed
    (r : Runtime.LLMResponse) (t : LLMResponse) (threshold : number) :
  typed r = Some t →
  vibeCheck_test r threshold
  = Return (String.eqb (verdict t) "no" || Num.lt (confidence t) threshold).
Proof.
  intros [Hverdict Hconfidence]%typed_fields.
  unfold vibeCheck_test. rewrite Hverdict, Hconfidence. cbn [is_no less_than].
  now destruct (String.eqb (verdict t) "no").
Qed.

Lemma degraded_fails (reason : string) (raw : jsval) (threshold : number) :
  vibeCheck_test (degraded reason raw) threshold = Return true.
Proof. reflexivity. Qed.

(** X20: the check passes only on a reply that parses to an object with
    a [confidence] member for which [confidence < threshold] is false,
    and with a [verdict] member that is truthy and not the string "no";
    a reply that is not JSON, an array, or an object without these
    members never passes.  The confidence need not be a number: when it
    is one, it is not below the threshold. *)
Theorem passing_check_reads_the_reply
    (options : EvaluateOptions) (data : json) (content : string)
    (r : Runtime.LLMResponse) (threshold : number) :
  normalize b options data content = Return r →
  vibeCheck_test r threshold = Return false →
  ∃ ms c,
    JSON_parse (default content (jsonMatch content)) = Some (JObject ms)
    ∧ Js.assoc "confidence" ms = Some c
    ∧ Runtime.confidence r = Some c
    ∧ less_than (Some c) threshold = Return false
    ∧ (∀ n, c = JNumber n → Num.lt n threshold = false)
    ∧ Runtime.verdict r = Js.assoc "verdict" ms
    ∧ Js.truthy (Js.assoc "verdict" ms) = true
    ∧ Js.assoc "verdict" ms ≠ Some (JString "no").
Proof.
  intros Hnormalize Hpass. pose proof Hnormalize as Hraw.
  unfold normalize, resultJson in Hnormalize.
  destruct (JSON_parse _) as [parsed|] eqn:Hparse.
  - destruct parsed as [| | | |items|ms];
      try (rewrite toResponse_primitive in Hnormalize by exact I; discriminate).
    + rewrite toResponse_without_confidence in Hnormalize by reflexivity.
      injection Hnormalize as <-. rewrite degraded_fails in Hpass.
      discriminate.
    + destruct (Js.assoc "confidence" ms) as [c|] eqn:Hc.
      * rewrite (toResponse_object ms _ c Hc) in Hnormalize.
        injection Hnormalize as <-.
        unfold vibeCheck_test in Hpass.
        cbn [Runtime.verdict Runtime.confidence] in Hpass |- *.
        destruct (is_no _) eqn:Hno; [discriminate|].
        unfold Js.or_else in Hno |- *.
        destruct (Js.truthy (Js.assoc "verdict" ms)) eqn:Htruthy;
          [|discriminate Hno].
        exists ms, c. split; [reflexivity|]. split; [exact Hc|].
        split; [reflexivity|]. split; [exact Hpass|]. split.
        { intros n ->. cbn [less_than] in Hpass. now injection Hpass. }
        split; [reflexivity|]. split; [exact Htruthy|].
        intros Hverdict. rewrite Hverdict in Hno. discriminate Hno.
      * rewrite toResponse_without_confidence in Hnormalize
          by (unfold has_key; now rewrite Hc).
        injection Hnormalize as <-. rewrite degraded_fails in Hpass.
        discriminate.
  - rewrite (normalize_unparsable b options data content Hparse) in Hraw.
    injection Hraw as <-. rewrite degraded_fails in Hpass. discriminate.
Qed.

End ReplyToDecision.

(** A reply whose confidence is the string "high": it is no number, the
    comparison with the threshold 0.8 is false, and the check passes. *)
Lemma passing_check_reads_the_reply_witness :
  let content :=
    "{" +:+ Replies.quoted "confidence" +:+ ": " +:+ Replies.quoted "high"
        +:+ ", " +:+ Replies.quoted "verdict" +:+ ": " +:+ Replies.quoted "yes"
        +:+ "}" in
  ∃ r,
    normalize (H := Reference.platform) OpenAI (Sample.options 3) JNull content
    = Return r
    ∧ vibeCheck_test (H := ReferenceCoercion.coercion) r (Fin (4 # 5))
      = Return false
    ∧ Runtime.confidence r = Some (JString "high")
    ∧ Runtime.verdict r = Some (JString "yes")
    ∧ typed r = None.
Proof.
  intros content.
  pose (r := normalize (H := Reference.platform) OpenAI (Sample.options 3)
               JNull content).
  vm_compute in r.
  match eval unfold r in r with
  | Return ?x =>
      exists x;
      assert (Hnormalize :
        normalize (H := Reference.platform) OpenAI (Sample.options 3)
          JNull content = Return x) by (vm_compute; reflexivity);
      assert (Hpass :
        vibeCheck_test (H := ReferenceCoercion.coercion) x (Fin (4 # 5))
        = Return false) by (vm_compute; reflexivity);
      destruct (passing_check_reads_the_reply (H := Reference.platform)
                  (H0 := ReferenceCoercion.coercion) OpenAI (Sample.options 3)
                  JNull content x (Fin (4 # 5)) Hnormalize Hpass)
        as (ms & c & _);
      split; [exact Hnormalize|]; split; [exact Hpass|];
      split; [reflexivity|]; split; [reflexivity|]; vm_compute; reflexivity
  end.
Defined.

(** A reply without a verdict: the response says "no". *)
Lemma normalize_returns_witness :
  let content := "{" +:+ Replies.quoted "confidence" +:+ ": 0.9}" in
  ∃ r,
    normalize (H := Reference.platform) OpenAI (Sample.options 3) JNull content
    = Return r
    ∧ Runtime.verdict r = Some (JString "no")
    ∧ is_Some (Runtime.confidence r)
    ∧ Js.truthy (Runtime.reasoning r) = true.
Proof.
  intros content.
  pose (r := normalize (H := Reference.platform) OpenAI (Sample.options 3)
               JNull content).
  vm_compute in r.
  match eval unfold r in r with
  | Return ?x =>
      exists x;
      assert (Hnormalize :
        normalize (H := Reference.platform) OpenAI (Sample.options 3)
          JNull content = Return x) by (vm_compute; reflexivity);
      destruct (normalize_returns (H := Reference.platform) OpenAI
                  (Sample.options 3) JNull content x Hnormalize)
        as (Hconfidence & _ & Hreasoning);
      split; [exact Hnormalize|]; split; [reflexivity|];
      split; [exact Hconfidence | exact Hreasoning]
  end.
Defined.

(** A reply in prose, with three attempts allowed: one call. *)
Lemma unparsable_reply_is_not_retried_witness :
  let w := Sample.world (Reply JNull Replies.prose) in
  let config := validateConfig Anthropic ∅ (Sample.config "sk-ant-test") in
  let options := Some (Sample.options 3) in
  files w !! "shots/login.png" = Some "iVBORw0KGgo="
  ∧ nonempty (apiKey config) = Some "sk-ant-test"
  ∧ Reference.parse (default Replies.prose (jsonMatch Replies.prose)) = None
  ∧ read (maxRetries (mergedOptions config options)) = Some (Num.of_Z 3)
  ∧ ∃ raw,
      provider_evaluateScreenshot (H := Reference.platform) Anthropic config
        "shots/login.png" "A login form" options w
      = Some {| outcome :=
                  Return (degraded ("Error parsing response: "
                                    +:+ Replies.prose) raw);
                calls := 1; delays := []; final := requested w |}.
Proof.
  intros w config options.
  assert (Hparse :
    Reference.parse (default Replies.prose (jsonMatch Replies.prose)) = None)
    by (vm_compute; reflexivity).
  split; [reflexivity|]. split; [reflexivity|]. split; [exact Hparse|].
  split; [reflexivity|].
  apply (unparsable_reply_is_not_retried (H := Reference.platform) Anthropic
           config "shots/login.png" "A login form" "iVBORw0KGgo="
           "sk-ant-test" options w 3 JNull Replies.prose).
  - reflexivity.
  - discriminate.
  - reflexivity.
  - reflexivity.
  - exact Hparse.
  - lia.
  - reflexivity.
Defined.

(** ** The registry, as a program can build it (providers/index.ts) *)

(** X21: on every service built with [registerProvider] and
    [setDefaultProvider] that has a provider and none under the empty
    name, a lookup without a name succeeds and returns the provider
    registered under the default name. *)
Theorem getProvider_default_resolves
    {Provider : Type} (s : LLMService.t Provider) :
  LLMService.reachable s →
  LLMService.providers s ≠ ∅ →
  LLMService.providers s !! "" = None →
  ∃ d provider,
    LLMService.defaultProviderName s = Some d
    ∧ LLMService.providers s !! d = Some provider
    ∧ LLMService.getProvider None s = Return provider
    ∧ LLMService.getProvider (Some "") s = Return provider.
Proof.
  intros Hreachable Hproviders Hempty.
  destruct (RegistryProperties.reachable_default s Hreachable)
    as [[Hnone _] | (d & Hd & [provider Hprovider])]; [contradiction|].
  exists d, provider. split; [exact Hd|]. split; [exact Hprovider|].
  assert (d ≠ "") as Hname by (intros ->; congruence).
  unfold LLMService.getProvider. cbn [nonempty]. rewrite Hd.
  destruct d as [|c d]; [contradiction|]. cbn [nonempty].
  now rewrite Hprovider.
Qed.

Lemma getProvider_default_resolves_witness :
  let s1 := LLMService.registerProvider "openai" 1%nat false LLMService.new in
  let s2 := LLMService.registerProvider "anthropic" 2%nat true s1 in
  LLMService.providers s2 !! "" = None
  ∧ LLMService.getProvider None s2 = Return 2%nat.
Proof.
  intros s1 s2.
  assert (Hempty : LLMService.providers s2 !! "" = None)
    by (vm_compute; reflexivity).
  assert (Hproviders : LLMService.providers s2 ≠ ∅).
  { intros Heq. apply (f_equal (λ m, m !! "anthropic")) in Heq.
    vm_compute in Heq. discriminate. }
  destruct (getProvider_default_resolves s2
              (LLMService.reachable_register _ _ _ _
                 (LLMService.reachable_register _ _ _ _
                    LLMService.reachable_new))
              Hproviders Hempty)
    as (d & provider & Hd & Hprovider & Hget & _).
  split; [exact Hempty|]. rewrite Hget. f_equal.
  vm_compute in Hd. injection Hd as <-.
  vm_compute in Hprovider. now injection Hprovider as <-.
Defined.


(** ** Objects with string keys *)

Module ObjProperties.

Section Entries.
Context {A : Type}.
Implicit Types (o : list (string * A)) (k : string) (v : A).

Lemma eqb_decide (k k' : string) : String.eqb k k' = bool_decide (k = k').
Proof.
  destruct (String.eqb_spec k k') as [->|Hne].
  - now rewrite bool_decide_eq_true_2.
  - now rewrite bool_decide_eq_false_2.
Qed.

Lemma get_None o k : Obj.get k o = None ↔ k ∉ o.*1.
Proof.
  induction o as [|[k' v'] o IH]; cbn.
  - split; [intros _; apply not_elem_of_nil | reflexivity].
  - rewrite eqb_decide, not_elem_of_cons. case_bool_decide; [|rewrite IH]; intuition congruence.
Qed.

Lemma get_Some o k v : NoDup o.*1 → Obj.get k o = Some v ↔ (k, v) ∈ o.
Proof.
  induction o as [|[k' v'] o IH]; cbn; intros Hnodup.
  - split; [discriminate | intros Hin; inversion Hin].
  - apply NoDup_cons in Hnodup as [Hfresh Hnodup].
    rewrite eqb_decide, elem_of_cons. case_bool_decide as Hk.
    + subst k'. split; [intros [= ->]; now left|].
      intros [[= ->] | Hin]; [reflexivity|].
      exfalso. apply Hfresh. apply list_elem_of_fmap. now exists (k, v).
    + rewrite (IH Hnodup). split; [now right|].
      intros [[= ? ?] | Hin]; [contradiction | assumption].
Qed.

Lemma keys_set o k v :
  (Obj.set k v o).*1 = if decide (k ∈ o.*1) then o.*1 else o.*1 ++ [k].
Proof.
  induction o as [|[k' v'] o IH]; cbn.
  - rewrite decide_False by apply not_elem_of_nil. reflexivity.
  - rewrite eqb_decide. case_bool_decide as Hk.
    + subst k'. rewrite decide_True by left. reflexivity.
    + cbn. rewrite IH. destruct (decide (k ∈ o.*1)) as [Hin|Hout].
      * rewrite decide_True by now right. reflexivity.
      * rewrite decide_False; [reflexivity|].
        rewrite not_elem_of_cons. now split.
Qed.

Lemma NoDup_set o k v : NoDup o.*1 → NoDup (Obj.set k v o).*1.
Proof.
  intros Hnodup. rewrite keys_set. destruct (decide (k ∈ o.*1)); [assumption|].
  apply NoDup_app. split; [assumption|]. split.
  - intros x Hx Hin. apply list_elem_of_singleton in Hin. now subst x.
  - apply NoDup_singleton.
Qed.

Lemma get_set o k k' v :
  Obj.get k' (Obj.set k v o) = if decide (k' = k) then Some v else Obj.get k' o.
Proof.
  induction o as [|[k0 v0] o IH]; cbn.
  - rewrite eqb_decide. case_bool_decide; now destruct (decide (k' = k)).
  - rewrite (eqb_decide k k0). case_bool_decide as Hk.
    + subst k0. cbn. rewrite eqb_decide.
      case_bool_decide; now destruct (decide (k' = k)).
    + cbn. rewrite eqb_decide, IH.
      case_bool_decide as Hk'; [|reflexivity].
      subst k0. now rewrite decide_False by congruence.
Qed.

Lemma insert_index_Permutation {B} (n : N) (e : B) (l : list (N * B)) :
  (Obj.insert_index n e l).*2 ≡ₚ e :: l.*2.
Proof.
  induction l as [|[m e'] l IH]; cbn; [reflexivity|].
  destruct (n <? m)%N; cbn; [reflexivity|].
  rewrite IH. apply Permutation_swap.
Qed.

(** [Object.entries] lists every entry once. *)
Lemma entries_Permutation o : Obj.entries o ≡ₚ o.
Proof.
  unfold Obj.entries. induction o as [|e o IH]; [reflexivity|].
  cbn [Obj.indexed]. rewrite filter_cons.
  destruct (Obj.array_index e.1) as [n|] eqn:Hindex.
  - rewrite decide_False by discriminate.
    rewrite insert_index_Permutation. cbn. now rewrite IH.
  - rewrite decide_True by reflexivity.
    rewrite <- Permutation_middle. now rewrite IH.
Qed.

Lemma NoDup_entries o : NoDup o.*1 → NoDup (Obj.entries o).*1.
Proof. intros Hnodup. now rewrite entries_Permutation. Qed.

Lemma get_entries o k : NoDup o.*1 → Obj.get k (Obj.entries o) = Obj.get k o.
Proof.
  intros Hnodup. apply option_eq. intros v.
  rewrite !get_Some by auto using NoDup_entries.
  now rewrite entries_Permutation.
Qed.

Lemma NoDup_fold (l : list (string * A)) o :
  NoDup o.*1 → NoDup (fold_left (λ acc e, Obj.set e.1 e.2 acc) l o).*1.
Proof.
  revert o. induction l as [|e l IH]; intros o Hnodup; cbn; [assumption|].
  apply IH. now apply NoDup_set.
Qed.

Lemma get_fold (l : list (string * A)) o k :
  NoDup l.*1 →
  Obj.get k (fold_left (λ acc e, Obj.set e.1 e.2 acc) l o)
  = match Obj.get k l with
    | Some v => Some v
    | None => Obj.get k o
    end.
Proof.
  revert o. induction l as [|[k' v'] l IH]; intros o Hnodup; cbn;
    [reflexivity|].
  apply NoDup_cons in Hnodup as [Hfresh Hnodup].
  rewrite (IH _ Hnodup), get_set, eqb_decide.
  case_bool_decide as Hk.
  - subst k'. rewrite decide_True by reflexivity.
    now rewrite (proj2 (get_None l k) Hfresh).
  - rewrite decide_False by assumption. reflexivity.
Qed.

(** A spread has the keys of both objects, each once, and the value of
    [over] where [over] has the key. *)
Lemma NoDup_spread (base over : list (string * A)) :
  NoDup base.*1 → NoDup (Obj.spread base over).*1.
Proof. apply NoDup_fold. Qed.

Lemma get_spread (base over : list (string * A)) k :
  NoDup over.*1 →
  Obj.get k (Obj.spread base over)
  = match Obj.get k over with
    | Some v => Some v
    | None => Obj.get k base
    end.
Proof.
  intros Hnodup. unfold Obj.spread.
  rewrite get_fold by now apply NoDup_entries.
  now rewrite get_entries.
Qed.

End Entries.
End ObjProperties.


(** ** The fixtures (fixtures.ts, config.ts, providers/index.ts) *)

Section RegisterEach.
Variable environment : gmap string string.
Variable defaultProvider : string.
Implicit Types (entries : list (string * ProviderEntry.t))
               (service : LLMService.t Instance).

Lemma createProvider_known (entry : ProviderEntry.t) :
  known entry ↔ is_Some (constructed environment entry).
Proof.
  unfold known, constructed, createProvider.
  destruct (String.eqb_spec (ProviderEntry.type entry) "openai") as [->|Ho].
  { split; [eauto | now left]. }
  destruct (String.eqb_spec (ProviderEntry.type entry) "anthropic") as [->|Ha].
  { split; [eauto | now right]. }
  split; [intros [?|?]; contradiction | intros [? ?]; discriminate].
Qed.

(** The registrations after the first. *)
Lemma registerEach_later entries :
  ∀ service service',
  registerEach environment defaultProvider entries service = Return service' →
  NoDup entries.*1 →
  LLMService.providers service ≠ ∅ →
  (∀ k, k ∈ entries.*1 → LLMService.providers service !! k = None) →
  (∀ n, LLMService.providers service' !! n
        = match Obj.get n entries with
          | Some entry => constructed environment entry
          | None => LLMService.providers service !! n
          end)
  ∧ LLMService.defaultProviderName service'
    = if decide (defaultProvider ∈ entries.*1) then Some defaultProvider
      else LLMService.defaultProviderName service.
Proof.
  induction entries as [|[name entry] entries IH];
    intros service service' Hrun Hnodup Hproviders Hfresh.
  - injection Hrun as <-. split; [reflexivity|].
    rewrite decide_False by apply not_elem_of_nil. reflexivity.
  - cbn [registerEach] in Hrun.
    destruct (createProvider _ _ _) as [provider|e] eqn:Hcreate;
      [|discriminate].
    cbn [fmap list_fmap fst] in Hnodup, Hfresh.
    apply NoDup_cons in Hnodup as [Hname Hnodup].
    assert (Hnone : LLMService.providers service !! name = None)
      by (apply Hfresh; left).
    apply IH in Hrun as [Hlookup Hdefault]; [|assumption|..].
    + split.
      * intros n. rewrite Hlookup. cbn [Obj.get].
        rewrite (ObjProperties.eqb_decide n name). case_bool_decide as Hn.
        -- subst n. rewrite (proj2 (ObjProperties.get_None entries name) Hname).
           cbn. rewrite lookup_insert_eq. unfold constructed.
           now rewrite Hcreate.
        -- destruct (Obj.get n entries); [reflexivity|].
           cbn. now rewrite lookup_insert_ne by congruence.
      * rewrite Hdefault. cbn [LLMService.registerProvider
          LLMService.defaultProviderName LLMService.providers].
        rewrite bool_decide_eq_false_2.
        2:{ rewrite map_size_insert_None by assumption.
            intros [= Hsize]. now apply map_size_empty_inv in Hsize. }
        rewrite orb_false_r, ObjProperties.eqb_decide.
        cbn [fmap list_fmap fst].
        destruct (decide (defaultProvider ∈ entries.*1)) as [Hin|Hout].
        -- rewrite decide_True by now right. reflexivity.
        -- case_bool_decide as Hd.
           ++ subst name. rewrite decide_True by left. reflexivity.
           ++ rewrite decide_False; [reflexivity|].
              rewrite not_elem_of_cons. split; [congruence | assumption].
    + cbn. intros Hempty.
      apply (f_equal (λ m, m !! name)) in Hempty.
      rewrite lookup_insert_eq, lookup_empty in Hempty. discriminate.
    + intros k Hk. cbn. rewrite lookup_insert_ne by (intros ->; contradiction).
      apply Hfresh. now right.
Qed.

(** The whole loop on a new service. *)
Lemma registerEach_new entries service :
  registerEach environment defaultProvider entries LLMService.new
  = Return service →
  NoDup entries.*1 →
  (∀ n, LLMService.providers service !! n
        = Obj.get n entries ≫= constructed environment)
  ∧ LLMService.defaultProviderName service
    = (λ first, if decide (defaultProvider ∈ entries.*1)
                then defaultProvider else first) <$> head entries.*1.
Proof.
  destruct entries as [|[name entry] entries]; intros Hrun Hnodup.
  { injection Hrun as <-. split; [|reflexivity]. intros n. apply lookup_empty. }
  cbn [registerEach] in Hrun.
  destruct (createProvider _ _ _) as [provider|e] eqn:Hcreate; [|discriminate].
  cbn [fmap list_fmap fst] in Hnodup.
  apply NoDup_cons in Hnodup as [Hname Hnodup].
  apply registerEach_later in Hrun as [Hlookup Hdefault]; [|assumption|..].
  - split.
    + intros n. rewrite Hlookup. cbn [Obj.get].
      rewrite (ObjProperties.eqb_decide n name). case_bool_decide as Hn.
      * subst n. rewrite (proj2 (ObjProperties.get_None entries name) Hname).
        cbn. rewrite lookup_insert_eq. unfold constructed.
        now rewrite Hcreate.
      * destruct (Obj.get n entries); [reflexivity|].
        cbn. rewrite lookup_insert_ne by congruence. apply lookup_empty.
    + rewrite Hdefault. cbn. rewrite insert_empty, map_size_singleton.
      rewrite bool_decide_eq_true_2 by reflexivity. rewrite orb_true_r.
      destruct (decide (defaultProvider ∈ entries.*1)) as [Hin|Hout].
      * rewrite decide_True by now right. reflexivity.
      * destruct (decide (defaultProvider = name)) as [->|Hd].
        -- rewrite decide_True by left. reflexivity.
        -- rewrite decide_False; [reflexivity|].
           rewrite not_elem_of_cons. split; assumption.
  - cbn. intros Hempty.
    apply (f_equal (λ m, m !! name)) in Hempty.
    rewrite lookup_insert_eq, lookup_empty in Hempty. discriminate.
  - intros k Hk. cbn. rewrite lookup_insert_ne by (intros ->; contradiction).
    apply lookup_empty.
Qed.

(** The loop returns when every type is known, and throws at the first
    entry of another type. *)
Lemma registerEach_known entries :
  ∀ service,
  Forall (λ e, known e.2) entries →
  ∃ service',
    registerEach environment defaultProvider entries service = Return service'.
Proof.
  induction entries as [|[name entry] entries IH]; intros service Hknown.
  - now exists service.
  - apply Forall_cons in Hknown as [Hentry Hknown]. cbn [registerEach].
    apply createProvider_known in Hentry as [provider Hprovider].
    unfold constructed in Hprovider.
    destruct (createProvider _ _ _) as [p|e]; [|discriminate].
    now apply IH.
Qed.

Lemma registerEach_unknown entries :
  ∀ service,
  ¬ Forall (λ e, known e.2) entries →
  ∃ n entry,
    (n, entry) ∈ entries ∧ ¬ known entry
    ∧ registerEach environment defaultProvider entries service
      = Throw (Err ("Unknown provider type: " +:+ ProviderEntry.type entry)).
Proof.
  induction entries as [|[name entry] entries IH]; intros service Hunknown.
  - exfalso. apply Hunknown. constructor.
  - cbn [registerEach].
    destruct (createProvider _ _ _) as [provider|e] eqn:Hcreate.
    + assert (Hentry : known entry).
      { apply createProvider_known. unfold constructed.
        rewrite Hcreate. eauto. }
      destruct (IH (LLMService.registerProvider name provider
                      (String.eqb name defaultProvider) service))
        as (n & other & Hin & Hother & Hthrow).
      { intros Hrest. apply Hunknown. now constructor. }
      exists n, other. split; [now right|]. now split.
    + exists name, entry. split; [left|].
      assert (Hentry : ¬ known entry).
      { intros Hknown. apply createProvider_known in Hknown as [p Hp].
        unfold constructed in Hp. rewrite Hcreate in Hp. discriminate. }
      split; [exact Hentry|].
      unfold createProvider in Hcreate.
      destruct (String.eqb _ "openai"); [discriminate|].
      destruct (String.eqb _ "anthropic"); [discriminate|].
      now injection Hcreate as <-.
Qed.

End RegisterEach.

Lemma NoDup_merged_providers
    (environment : gmap string string) (userConfig : PartialVibeConfig.t)
    (h : store) :
  NoDup (Obj.entries
           (VibeConfig.providers (mergeConfig environment userConfig h).1)).*1.
Proof.
  apply ObjProperties.NoDup_entries. cbn.
  apply ObjProperties.NoDup_spread. cbn.
  apply NoDup_cons. split; [|apply NoDup_singleton].
  rewrite list_elem_of_singleton. discriminate.
Qed.


Lemma elem_of_keys_fold {A} (l o : list (string * A)) (k : string) :
  k ∈ o.*1 → k ∈ (fold_left (λ acc e, Obj.set e.1 e.2 acc) l o).*1.
Proof.
  revert o. induction l as [|e l IH]; intros o Hin; cbn; [assumption|].
  apply IH. rewrite ObjProperties.keys_set.
  destruct (decide (e.1 ∈ o.*1)); [assumption|].
  apply elem_of_app. now left.
Qed.

Lemma merged_providers_builtin
    (environment : gmap string string) (userConfig : PartialVibeConfig.t)
    (h : store) (k : string) :
  k = "openai" ∨ k = "anthropic" →
  k ∈ (Obj.entries
         (VibeConfig.providers (mergeConfig environment userConfig h).1)).*1.
Proof.
  intros Hk. rewrite ObjProperties.entries_Permutation. cbn.
  apply elem_of_keys_fold. cbn.
  destruct Hk as [-> | ->]; [left | right; left].
Qed.

(** X22: when every configured provider has a type the factory knows,
    the worker's service holds exactly the configured names, each with
    the provider constructed from its entry, and its default is the
    configured [defaultProvider] when that is one of the names, and the
    first entry otherwise. *)
Theorem llmService_registers
    (environment : gmap string string)
    (userConfig : option PartialVibeConfig.t) (h : store) :
  let config := (vibeConfig environment userConfig h).1 in
  let entries := Obj.entries (VibeConfig.providers config) in
  Forall (λ e, known e.2) entries →
  ∃ service first,
    llmService environment userConfig h = Return service
    ∧ head entries.*1 = Some first
    ∧ (∀ n, LLMService.providers service !! n
            = Obj.get n entries ≫= constructed environment)
    ∧ LLMService.defaultProviderName service
      = Some (if decide (VibeConfig.defaultProvider config ∈ entries.*1)
              then VibeConfig.defaultProvider config else first).
Proof.
  intros config entries Hknown.
  destruct (registerEach_known environment (VibeConfig.defaultProvider config)
              entries LLMService.new Hknown) as [service Hservice].
  pose proof (registerEach_new environment _ entries service Hservice
                (NoDup_merged_providers environment _ h))
    as [Hlookup Hdefault].
  assert (Hfirst : ∃ first, head entries.*1 = Some first).
  { pose proof (merged_providers_builtin environment
                  (default PartialVibeConfig.empty userConfig) h "openai"
                  (or_introl eq_refl)) as Hin.
    fold (vibeConfig environment userConfig h) in Hin.
    fold config entries in Hin.
    destruct (entries.*1) as [|first rest]; [inversion Hin | eauto]. }
  destruct Hfirst as [first Hfirst].
  exists service, first. split; [exact Hservice|]. split; [exact Hfirst|].
  split; [exact Hlookup|].
  rewrite Hdefault, Hfirst. reflexivity.
Qed.

(** X23: an entry of any other type makes the fixture itself throw
    "Unknown provider type: <type>": no service is built, the built-in
    providers included. *)
Theorem llmService_unknown_type
    (environment : gmap string string)
    (userConfig : option PartialVibeConfig.t) (h : store) :
  let config := (vibeConfig environment userConfig h).1 in
  let entries := Obj.entries (VibeConfig.providers config) in
  ¬ Forall (λ e, known e.2) entries →
  ∃ n entry,
    (n, entry) ∈ entries ∧ ¬ known entry
    ∧ llmService environment userConfig h
      = Throw (Err ("Unknown provider type: " +:+ ProviderEntry.type entry)).
Proof.
  intros config entries Hunknown.
  exact (registerEach_unknown environment (VibeConfig.defaultProvider config)
           entries LLMService.new Hunknown).
Qed.

Section Checks.
Context `{Platform}.

(** X24: the service is built once, from the configuration given to
    [createVibeTest]: a check whose provider name is not one of its
    entries (a name from VIBE_DEFAULT_PROVIDER, or a provider added later
    with [configureVibes]) fails with "Provider ... not found" before any
    call of an adapter. *)
Theorem unregistered_provider_fails
    (environment : gmap string string)
    (userConfig : option PartialVibeConfig.t) (h : store)
    (service : LLMService.t Instance)
    (options : option VibeCheckOptions.t) (current : VibeConfig.t)
    (path specification : string) (evaluationOptions : option EvaluateOptions)
    (w : World) :
  let n := vibeCheck_providerName options current in
  llmService environment userConfig h = Return service →
  n ≠ "" →
  n ∉ (Obj.entries
         (VibeConfig.providers (vibeConfig environment userConfig h).1)).*1 →
  LLMService_evaluateScreenshot service path specification (Some n)
    evaluationOptions w
  = Some {| outcome :=
              Throw (Err ("Provider " +:+ dquote +:+ n +:+ dquote
                          +:+ " not found"));
            calls := 0; delays := []; final := w |}.
Proof.
  intros n Hservice Hname Hout.
  apply registerEach_new in Hservice as [Hlookup _];
    [|apply NoDup_merged_providers].
  unfold LLMService_evaluateScreenshot.
  rewrite RegistryProperties.getProvider_named by assumption.
  rewrite Hlookup. unfold vibeConfig in Hout.
  now rewrite (proj2 (ObjProperties.get_None _ n) Hout).
Qed.

(** X25: a check whose provider name is a configured entry is evaluated
    by the adapter of the entry's type, OpenAI or Anthropic, with the
    entry's configuration as it was validated when the service was
    built. *)
Theorem check_is_evaluated_by_adapter
    (environment : gmap string string)
    (userConfig : option PartialVibeConfig.t) (h : store)
    (service : LLMService.t Instance)
    (options : option VibeCheckOptions.t) (current : VibeConfig.t)
    (entry : ProviderEntry.t)
    (path specification : string) (evaluationOptions : option EvaluateOptions)
    (w : World) :
  let n := vibeCheck_providerName options current in
  llmService environment userConfig h = Return service →
  n ≠ "" →
  (n, entry)
  ∈ Obj.entries (VibeConfig.providers (vibeConfig environment userConfig h).1) →
  ∃ b,
    (b = OpenAI ∧ ProviderEntry.type entry = "openai"
     ∨ b = Anthropic ∧ ProviderEntry.type entry = "anthropic")
    ∧ LLMService_evaluateScreenshot service path specification (Some n)
        evaluationOptions w
      = provider_evaluateScreenshot b
          (validateConfig b environment (ProviderEntry.config entry))
          path specification evaluationOptions w.
Proof.
  intros n Hservice Hname Hin.
  pose proof Hservice as Hrun.
  apply registerEach_new in Hservice as [Hlookup _];
    [|apply NoDup_merged_providers].
  apply ObjProperties.get_Some in Hin; [|apply NoDup_merged_providers].
  specialize (Hlookup n). unfold vibeConfig in Hin.
  rewrite Hin in Hlookup. cbn [mbind option_bind] in Hlookup.
  unfold LLMService_evaluateScreenshot.
  rewrite RegistryProperties.getProvider_named by assumption.
  rewrite Hlookup. unfold constructed, createProvider.
  destruct (String.eqb_spec (ProviderEntry.type entry) "openai") as [Ho|Ho].
  { exists OpenAI. split; [now left | reflexivity]. }
  destruct (String.eqb_spec (ProviderEntry.type entry) "anthropic") as [Ha|Ha].
  { exists Anthropic. split; [now right | reflexivity]. }
  exfalso. unfold constructed, createProvider in Hlookup.
  rewrite (proj2 (String.eqb_neq _ _) Ho) in Hlookup.
  rewrite (proj2 (String.eqb_neq _ _) Ha) in Hlookup.
  clear -Hrun Hin Ho Ha.
  unfold llmService in Hrun.
  set (entries := Obj.entries _) in *.
  assert (Hbad : ¬ Forall (λ e, known e.2) entries).
  { intros Hall. rewrite Forall_forall in Hall.
    apply ObjProperties.get_Some in Hin;
      [|apply NoDup_merged_providers].
    destruct (Hall _ Hin) as [?|?]; contradiction. }
  match type of Hrun with
  | registerEach _ ?d _ _ = _ =>
      destruct (registerEach_unknown environment d entries LLMService.new Hbad)
        as (? & ? & _ & _ & Hthrow)
  end.
  rewrite Hthrow in Hrun. discriminate.
Qed.

End Checks.


(** ** The layers of the configuration (config.ts, fixtures.ts) *)

(** X26: a user configuration replaces or adds providers and never
    removes one: an entry it defines is its own, every other name has the
    entry of the default configuration, so "openai" and "anthropic" are
    always configured. *)
Theorem mergeConfig_providers
    (environment : gmap string string) (userConfig : PartialVibeConfig.t)
    (h : store) (n : string) :
  let own := default [] (PartialVibeConfig.providers userConfig) in
  let merged :=
    Obj.entries
      (VibeConfig.providers (mergeConfig environment userConfig h).1) in
  NoDup own.*1 →
  Obj.get n merged
  = match Obj.get n own with
    | Some entry => Some entry
    | None =>
        Obj.get n (VibeConfig.providers (createDefaultConfig environment h).1)
    end
  ∧ is_Some (Obj.get "openai" merged)
  ∧ is_Some (Obj.get "anthropic" merged).
Proof.
  intros own merged Hnodup.
  assert (Hget : ∀ k,
    Obj.get k merged
    = match Obj.get k own with
      | Some entry => Some entry
      | None =>
          Obj.get k (VibeConfig.providers (createDefaultConfig environment h).1)
      end).
  { intros k. unfold merged.
    rewrite ObjProperties.get_entries
      by (cbn; apply ObjProperties.NoDup_spread, NoDup_cons;
          split; [rewrite list_elem_of_singleton; discriminate
                 | apply NoDup_singleton]).
    cbn [mergeConfig createDefaultConfig allocate fst VibeConfig.providers].
    now rewrite ObjProperties.get_spread by assumption. }
  split; [apply Hget|].
  split; rewrite Hget; destruct (Obj.get _ own); cbn; eauto.
Qed.


(** X28: the provider a check names is the non-empty [provider] of its
    options, else the non-empty [defaultProvider] given to
    [configureVibes], else the [defaultProvider] given to
    [createVibeTest], empty string included, else VIBE_DEFAULT_PROVIDER
    when it is set and not empty, else "openai". *)
Theorem check_provider_layers
    (environment : gmap string string)
    (userConfig : option PartialVibeConfig.t) (h : store)
    (configured : PartialVibeConfig.t) (options : option VibeCheckOptions.t) :
  vibeCheck_providerName options
    (configureVibes configured (vibeConfig environment userConfig h).1)
  = match nonempty (options ≫= VibeCheckOptions.provider) with
    | Some p => p
    | None =>
        match nonempty (PartialVibeConfig.defaultProvider configured) with
        | Some p => p
        | None =>
            match userConfig ≫= PartialVibeConfig.defaultProvider with
            | Some p => p
            | None =>
                default "openai"
                  (nonempty (environment !! "VIBE_DEFAULT_PROVIDER"))
            end
        end
    end.
Proof.
  unfold vibeCheck_providerName, configureVibes.
  cbn [VibeConfig.defaultProvider].
  destruct (nonempty (options ≫= VibeCheckOptions.provider)); [reflexivity|].
  cbn [default from_option id].
  destruct (nonempty (PartialVibeConfig.defaultProvider configured));
    [reflexivity|].
  cbn [default from_option id].
  now destruct userConfig as [[[p|] ? ?]|].
Qed.


(** *** The fixtures on sample configurations *)

Lemma sample_entries :
  Obj.entries
    (VibeConfig.providers (vibeConfig SampleConfig.environment None ∅).1)
  = [ ("openai",
       {| ProviderEntry.type := "openai";
          ProviderEntry.config := builtin (Some "sk-test") |});
      ("anthropic",
       {| ProviderEntry.type := "anthropic";
          ProviderEntry.config := builtin None |}) ].
Proof. vm_compute. reflexivity. Qed.

Lemma sample_entries_known :
  Forall (λ e, known e.2)
    (Obj.entries
       (VibeConfig.providers (vibeConfig SampleConfig.environment None ∅).1)).
Proof.
  rewrite sample_entries.
  apply Forall_cons. split; [left; reflexivity|].
  apply Forall_cons. split; [right; reflexivity|]. constructor.
Qed.

(** No user configuration, [OPENAI_API_KEY] set: two providers, "openai"
    the default, constructed with the key of the environment. *)
Lemma llmService_registers_witness :
  let environment := SampleConfig.environment in
  Forall (λ e, known e.2)
    (Obj.entries (VibeConfig.providers (vibeConfig environment None ∅).1))
  ∧ ∃ service,
      llmService environment None ∅ = Return service
      ∧ LLMService.defaultProviderName service = Some "openai"
      ∧ LLMService.providers service !! "openai"
        = Some {| backend := OpenAI;
                  settings :=
                    validateConfig OpenAI environment
                      (builtin (Some "sk-test")) |}
      ∧ LLMService.providers service !! "gemini" = None.
Proof.
  intros environment.
  assert (Hknown :
    Forall (λ e, known e.2)
      (Obj.entries (VibeConfig.providers (vibeConfig environment None ∅).1))).
  { exact sample_entries_known. }
  split; [exact Hknown|].
  destruct (llmService_registers environment None ∅ Hknown)
    as (service & first & Hservice & Hfirst & Hlookup & Hdefault).
  exists service. split; [exact Hservice|].
  subst environment. rewrite sample_entries in Hfirst, Hlookup, Hdefault.
  injection Hfirst as <-. split; [exact Hdefault|].
  split; [exact (Hlookup "openai") | exact (Hlookup "gemini")].
Defined.

(** A provider of type "gemini" in the user configuration: the fixture
    throws. *)
Lemma llmService_unknown_type_witness :
  let userConfig := Some (SampleConfig.adding "gemini" "gemini") in
  ¬ Forall (λ e, known e.2)
      (Obj.entries
         (VibeConfig.providers
            (vibeConfig SampleConfig.environment userConfig ∅).1))
  ∧ llmService SampleConfig.environment userConfig ∅
    = Throw (Err "Unknown provider type: gemini").
Proof.
  intros userConfig.
  assert (Hunknown :
    ¬ Forall (λ e, known e.2)
        (Obj.entries
           (VibeConfig.providers
              (vibeConfig SampleConfig.environment userConfig ∅).1))).
  { intros Hall. rewrite Forall_forall in Hall.
    destruct (Hall ("gemini", SampleConfig.entry "gemini" "key"))
      as [Htype | Htype]; [|discriminate Htype..].
    right. right. left. }
  split; [exact Hunknown|].
  destruct (llmService_unknown_type SampleConfig.environment userConfig ∅
              Hunknown) as (n & entry & Hin & Hentry & Hthrow).
  rewrite Hthrow. clear Hthrow Hunknown.
  assert (Hentries :
    Obj.entries
      (VibeConfig.providers
         (vibeConfig SampleConfig.environment userConfig ∅).1)
    = [ ("openai",
         {| ProviderEntry.type := "openai";
            ProviderEntry.config := builtin (Some "sk-test") |});
        ("anthropic",
         {| ProviderEntry.type := "anthropic";
            ProviderEntry.config := builtin None |});
        ("gemini", SampleConfig.entry "gemini" "key") ])
    by (vm_compute; reflexivity).
  rewrite Hentries in Hin.
  apply elem_of_cons in Hin as [[= -> ->] | Hin];
    [exfalso; apply Hentry; left; reflexivity|].
  apply elem_of_cons in Hin as [[= -> ->] | Hin];
    [exfalso; apply Hentry; right; reflexivity|].
  apply list_elem_of_singleton in Hin as [= -> ->]. reflexivity.
Defined.

(** A provider added with [configureVibes] and made the default: the
    service does not have it, and the check fails before any call. *)
Lemma unregistered_provider_fails_witness :
  let environment := SampleConfig.environment in
  let current :=
    configureVibes (SampleConfig.adding "local" "openai")
                   (vibeConfig environment None ∅).1 in
  let w := Sample.world (Reply JNull (Replies.reply "0.95" "yes")) in
  vibeCheck_providerName None current = "local"
  ∧ Obj.get "local" (VibeConfig.providers current)
    = Some (SampleConfig.entry "openai" "key")
  ∧ ∃ service,
      llmService environment None ∅ = Return service
      ∧ Sample.summary
          (LLMService_evaluateScreenshot (H := Reference.platform) service
             "shots/login.png" "A login form" (Some "local") None w)
        = Some (Throw (Err ("Provider " +:+ dquote +:+ "local" +:+ dquote
                            +:+ " not found")),
                0%nat, [], 0%nat).
Proof.
  intros environment current w.
  split; [reflexivity|]. split; [reflexivity|].
  destruct (registerEach_known environment "openai"
              (Obj.entries
                 (VibeConfig.providers (vibeConfig environment None ∅).1))
              LLMService.new) as [service Hservice].
  { exact sample_entries_known. }
  exists service. split; [exact Hservice|].
  assert (Hname : vibeCheck_providerName None current ≠ "")
    by (change ("local" ≠ ""); discriminate).
  assert (Hout :
    vibeCheck_providerName None current
    ∉ (Obj.entries
         (VibeConfig.providers (vibeConfig environment None ∅).1)).*1).
  { change (vibeCheck_providerName None current) with "local".
    subst environment. rewrite sample_entries. cbn. intros Hin.
    apply elem_of_cons in Hin as [Hin | Hin]; [discriminate Hin|].
    apply list_elem_of_singleton in Hin. discriminate Hin. }
  pose proof (unregistered_provider_fails (H := Reference.platform)
                environment None ∅ service None current "shots/login.png"
                "A login form" None w Hservice Hname Hout) as Hrun.
  change (vibeCheck_providerName None current) with "local" in Hrun.
  rewrite Hrun. reflexivity.
Defined.

(** The default configuration: a check goes to the OpenAI adapter with
    the built-in entry. *)
Lemma check_is_evaluated_by_adapter_witness :
  let environment := SampleConfig.environment in
  let current := (vibeConfig environment None ∅).1 in
  let w := Sample.world (Reply JNull (Replies.reply "0.95" "yes")) in
  vibeCheck_providerName None current = "openai"
  ∧ ∃ service,
      llmService environment None ∅ = Return service
      ∧ LLMService_evaluateScreenshot (H := Reference.platform) service
          "shots/login.png" "A login form" (Some "openai") None w
        = provider_evaluateScreenshot (H := Reference.platform) OpenAI
            (validateConfig OpenAI environment (builtin (Some "sk-test")))
            "shots/login.png" "A login form" None w.
Proof.
  intros environment current w.
  split; [reflexivity|].
  destruct (registerEach_known environment "openai"
              (Obj.entries
                 (VibeConfig.providers (vibeConfig environment None ∅).1))
              LLMService.new) as [service Hservice].
  { exact sample_entries_known. }
  exists service. split; [exact Hservice|].
  destruct (check_is_evaluated_by_adapter (H := Reference.platform)
              environment None ∅ service None current
              {| ProviderEntry.type := "openai";
                 ProviderEntry.config := builtin (Some "sk-test") |}
              "shots/login.png" "A login form" None w Hservice)
    as (b & [[-> _] | [_ Htype]] & Hrun).
  - discriminate.
  - left.
  - exact Hrun.
  - discriminate Htype.
Defined.

(** A user configuration that replaces "openai" and adds "local". *)
Lemma mergeConfig_providers_witness :
  let userConfig :=
    {| PartialVibeConfig.defaultProvider := None;
       PartialVibeConfig.providers :=
         Some [ ("local", SampleConfig.entry "anthropic" "k1");
                ("openai", SampleConfig.entry "openai" "k2") ];
       PartialVibeConfig.evaluation := None |} in
  let merged :=
    Obj.entries
      (VibeConfig.providers
         (mergeConfig SampleConfig.environment userConfig ∅).1) in
  NoDup ["local"; "openai"]
  ∧ merged.*1 = ["openai"; "anthropic"; "local"]
  ∧ Obj.get "openai" merged = Some (SampleConfig.entry "openai" "k2")
  ∧ is_Some (Obj.get "anthropic" merged).
Proof.
  intros userConfig merged.
  assert (Hnodup : NoDup ["local"; "openai"]).
  { apply NoDup_cons. split; [|apply NoDup_singleton].
    rewrite list_elem_of_singleton. discriminate. }
  split; [exact Hnodup|]. split; [reflexivity|].
  destruct (mergeConfig_providers SampleConfig.environment userConfig ∅
              "openai" Hnodup) as (Hget & _ & Hanthropic).
  split; [exact Hget | exact Hanthropic].
Defined.


(** ** Failed exchanges and unreadable screenshots *)

Section FailedCalls.
Context `{Platform}.
Variable b : Backend.

Lemma usable_same
    (config : LLMProviderConfig) (path : string) (w w' : World) :
  files w' = files w → env w' = env w →
  usable b config path w' = usable b config path w.
Proof. intros Hfiles Henv. unfold usable. now rewrite Hfiles, Henv. Qed.

(** With file and key, the result of a call is decided by the exchange. *)
Lemma evaluateScreenshotInternal_exchange
    (config : LLMProviderConfig) (path specification : string)
    (options : EvaluateOptions) (w : World) :
  usable b config path w = true →
  (evaluateScreenshotInternal b config path specification options w).1
  = match network w (requests w) with
    | NetworkError reason => Throw (Rejected reason)
    | HttpError status error =>
        Throw (Err ("API request failed with status " +:+ pretty status
                    +:+ (if Js.truthy error
                         then ": " +:+ JSON_stringify (default JNull error)
                         else "")))
    | Reply data content => normalize b options data content
    end.
Proof.
  unfold usable, evaluateScreenshotInternal, bind, readFileAsBase64.
  destruct (files w !! path) as [[|c image]|]; [discriminate| |discriminate].
  replace (String.eqb (String c image) "") with false by reflexivity.
  destruct (nonempty (apiKey config)) as [k|].
  - intros _. unfold ret, fetch. cbn.
    now destruct (network w (requests w)).
  - unfold getApiKey, getEnv. cbn beta iota.
    destruct (nonempty (env w !! API_KEY b)) as [k|]; [|discriminate].
    intros _. unfold fetch. cbn.
    now destruct (network w (requests w)).
Qed.

(** X29: an exchange that fails is retried whatever the failure: when
    the first [n] exchanges are network errors or error responses of any
    status, an evaluation with [maxRetries] [n] sends [n] requests, waits
    between them, and throws the error of the last one. *)
Theorem failed_exchanges_are_retried
    (config : LLMProviderConfig) (path specification : string)
    (options : option EvaluateOptions) (w : World) (m : nat) :
  usable b config path w = true →
  read (maxRetries (mergedOptions config options))
  = Some (Num.of_Z (Z.of_nat (S m))) →
  (∀ k, (k ≤ m)%nat →
        match network w (requests w + k) with
        | Reply _ _ => False
        | _ => True
        end) →
  ∃ run,
    provider_evaluateScreenshot b config path specification options w
    = Some run
    ∧ calls run = S m
    ∧ delays run = waits 1 m
    ∧ requests (final run) = (requests w + S m)%nat
    ∧ outcome run
      = match network w (requests w + m) with
        | NetworkError reason => Throw (Rejected reason)
        | HttpError status error =>
            Throw (Err ("API request failed with status " +:+ pretty status
                        +:+ (if Js.truthy error
                             then ": " +:+ JSON_stringify (default JNull error)
                             else "")))
        | Reply data content =>
            normalize b (mergedOptions config options) data content
        end.
Proof.
  intros Husable Hretries Hfail.
  set (call := evaluateScreenshotInternal b config path specification
                 (mergedOptions config options)).
  assert (Hcall : ∀ k,
    (call (after call k w)).1
    = match network w (requests w + k) with
      | NetworkError reason => Throw (Rejected reason)
      | HttpError status error =>
          Throw (Err ("API request failed with status " +:+ pretty status
                      +:+ (if Js.truthy error
                           then ": " +:+ JSON_stringify (default JNull error)
                           else "")))
      | Reply data content =>
          normalize b (mergedOptions config options) data content
      end).
  { intros k.
    destruct (after_requests b config path specification
                (mergedOptions config options) k w)
      as (Hfiles & Henv & Hnetwork & Hrequests).
    fold call in Hfiles, Henv, Hnetwork, Hrequests.
    rewrite Husable in Hrequests. unfold call at 1.
    rewrite evaluateScreenshotInternal_exchange
      by (rewrite (usable_same config path w _ Hfiles Henv); exact Husable).
    fold call. now rewrite Hnetwork, Hrequests. }
  assert (Hthrows : ∀ k, (k ≤ m)%nat → ∃ e, (call (after call k w)).1 = Throw e).
  { intros k Hk. rewrite Hcall. specialize (Hfail k Hk).
    destruct (network w (requests w + k)); [eauto | eauto | contradiction]. }
  assert (Hexists : pathExists path w = true).
  { unfold pathExists. unfold usable in Husable.
    destruct (files w !! path); [reflexivity | discriminate]. }
  destruct (Hthrows m ltac:(lia)) as [e He].
  eexists. split.
  - unfold provider_evaluateScreenshot.
    apply evaluateScreenshot_exhausted with (m := m) (e := e);
      [assumption | assumption | | exact He].
    intros k Hk. apply Hthrows. lia.
  - cbn [calls delays final outcome]. fold call.
    split; [reflexivity|]. split; [reflexivity|]. split.
    + destruct (after_requests b config path specification
                  (mergedOptions config options) (S m) w)
        as (_ & _ & _ & Hrequests).
      fold call in Hrequests. now rewrite Husable in Hrequests.
    + rewrite <- He. apply Hcall.
Qed.

(** X30: a screenshot file that does not exist ends the evaluation
    before any call of the adapter; one that exists and is empty makes
    every attempt throw "Could not read screenshot file", and the
    attempts are repeated up to [maxRetries] without a request. *)
Theorem unreadable_screenshot
    (config : LLMProviderConfig) (path specification : string)
    (options : option EvaluateOptions) (w : World) :
  let run :=
    provider_evaluateScreenshot b config path specification options w in
  (files w !! path = None →
   run = Some {| outcome :=
                   Throw (Err ("Screenshot does not exist at path: "
                               +:+ path));
                 calls := 0; delays := []; final := w |})
  ∧ (∀ m, files w !! path = Some "" →
          read (maxRetries (mergedOptions config options))
          = Some (Num.of_Z (Z.of_nat (S m))) →
          run = Some {| outcome :=
                          Throw (Err ("Could not read screenshot file: "
                                      +:+ path));
                        calls := S m; delays := waits 1 m; final := w |}).
Proof.
  cbn zeta. split.
  - intros Hnone. unfold provider_evaluateScreenshot, evaluateScreenshot,
      pathExists. rewrite Hnone. reflexivity.
  - intros m Hempty Hretries.
    assert (Hcall : ∀ o,
      evaluateScreenshotInternal b config path specification o w
      = (Throw (Err ("Could not read screenshot file: " +:+ path)), w)).
    { intros o. unfold evaluateScreenshotInternal, bind, readFileAsBase64.
      rewrite Hempty. reflexivity. }
    unfold provider_evaluateScreenshot.
    rewrite (evaluateScreenshot_exhausted (name b) config
               (evaluateScreenshotInternal b config) path specification
               options w m
               (Err ("Could not read screenshot file: " +:+ path))).
    + now rewrite after_unchanged by now rewrite Hcall.
    + unfold pathExists. rewrite Hempty. reflexivity.
    + exact Hretries.
    + intros k _. eexists.
      rewrite after_unchanged by now rewrite Hcall. now rewrite Hcall.
    + rewrite after_unchanged by now rewrite Hcall. now rewrite Hcall.
Qed.

End FailedCalls.

(** Three error responses with status 401: three requests. *)
Lemma failed_exchanges_are_retried_witness :
  let config := validateConfig OpenAI ∅ (Sample.config "sk-test") in
  let options := Some (Sample.options 3) in
  let denied := HttpError 401 (Some (JString "Unauthorized")) in
  let w := Sample.world denied in
  usable OpenAI config "shots/login.png" w = true
  ∧ read (maxRetries (mergedOptions config options)) = Some (Num.of_Z 3)
  ∧ Sample.summary
      (provider_evaluateScreenshot (H := Reference.platform) OpenAI config
         "shots/login.png" "A login form" options w)
    = Some (Throw (Err ("API request failed with status 401: "
                        +:+ Replies.quoted "Unauthorized")),
            3%nat, [1000; 2000]%Z, 3%nat).
Proof.
  intros config options denied w.
  assert (Husable : usable OpenAI config "shots/login.png" w = true)
    by (vm_compute; reflexivity).
  split; [exact Husable|]. split; [reflexivity|].
  destruct (failed_exchanges_are_retried (H := Reference.platform) OpenAI
              config "shots/login.png" "A login form" options w 2
              Husable eq_refl)
    as (run & -> & Hcalls & Hdelays & Hrequests & Houtcome).
  { intros k _. exact I. }
  unfold Sample.summary. cbn [fmap option_fmap option_map].
  rewrite Hcalls, Hdelays, Hrequests, Houtcome.
  vm_compute. reflexivity.
Defined.
